(** * kubeyaml: a shallow embedding of [kubeyaml.py]

    [kubeyaml.py] edits one manifest in a stream of YAML documents: it sets
    the image of a named container ([update_image]) or edits the metadata
    annotations ([update_annotations]).

    The embedding follows the Python source function by function.

    - A loaded YAML document is a tree [value].  Mappings keep their key
      order (an association list), as ruamel's round-trip mappings do.
      Keys are strings.  YAML anchors, which would let one object occur at
      two places of a document, are not modelled: a document is a tree.
    - A Python exception is a constructor of [exn]; a computation that may
      raise has type [res A].  An exception that is not caught ends the run,
      so the state a function had half-written when it raised is never
      observed, and a function that mutates its argument in place returns
      the new value of that argument.
    - A reference into a document (the container picked by
      [find_container]) is the position it was found at, together with the
      object found there.
    - Strings are [string]s of 8-bit characters; [str.lower] is modelled on
      ASCII letters.
    - [collections.Mapping] exists (Python 3.3 to 3.9), an instance being a
      YAML mapping.
    - What ['%s'] prints for a value that is not a string depends on the
      ruamel release; it is the Section variable [py_str]. *)

From Stdlib Require Import String Ascii List ZArith Bool Arith Lia.
Import ListNotations.
Open Scope list_scope.
Open Scope string_scope.

(** ** Exceptions and results *)

Inductive exn : Type :=
| KeyError
| TypeError
| AttributeError
| IndexError
| NotFound.

Inductive res (A : Type) : Type :=
| Ok (a : A)
| Raise (e : exn).

Arguments Ok {A} a.
Arguments Raise {A} e.

Definition bind {A B : Type} (c : res A) (k : A -> res B) : res B :=
  match c with
  | Ok a => k a
  | Raise e => Raise e
  end.

Notation "x <- c ;; k" := (bind c (fun x => k))
  (at level 61, c at next level, right associativity).

(** [try: c except KeyError: h] *)
Definition except_KeyError {A : Type} (c : res A) (h : res A) : res A :=
  match c with
  | Raise KeyError => h
  | _ => c
  end.

Definition exn_eqb (a b : exn) : bool :=
  match a, b with
  | KeyError, KeyError | TypeError, TypeError
  | AttributeError, AttributeError | IndexError, IndexError
  | NotFound, NotFound => true
  | _, _ => false
  end.

(** ** Strings *)

Definition lower_ascii (c : ascii) : ascii :=
  let n := nat_of_ascii c in
  if (65 <=? n)%nat && (n <=? 90)%nat then ascii_of_nat (n + 32) else c.

(** [s.lower()] on a text of ASCII characters, as the kinds of Kubernetes
    are: the letters [A] to [Z] are lowered.  A character outside ASCII,
    which [str.lower] may lower too, is left as it is. *)
Fixpoint lower (s : string) : string :=
  match s with
  | EmptyString => EmptyString
  | String c s' => String (lower_ascii c) (lower s')
  end.

(** [s.startswith(p)] *)
Fixpoint startswith (s p : string) {struct p} : bool :=
  match p, s with
  | EmptyString, _ => true
  | String a p', String b s' => Ascii.eqb a b && startswith s' p'
  | String _ _, EmptyString => false
  end.

(** [s[n:]] for [0 <= n] *)
Fixpoint drop (n : nat) (s : string) : string :=
  match n, s with
  | O, _ => s
  | S n', String _ s' => drop n' s'
  | S _, EmptyString => EmptyString
  end.

(** [s.endswith(p)]: some suffix of [s] is [p] *)
Fixpoint endswith (s p : string) : bool :=
  String.eqb s p
  || match s with
     | EmptyString => false
     | String _ s' => endswith s' p
     end.

(** [k in s] for two strings: [k] occurs in [s] *)
Fixpoint is_substring (k s : string) : bool :=
  startswith s k
  || match s with
     | EmptyString => false
     | String _ s' => is_substring k s'
     end.

(** [s.split(sep)] for a separator of one character *)
Fixpoint split (sep : ascii) (s : string) : list string :=
  match s with
  | EmptyString => [EmptyString]
  | String c s' =>
      if Ascii.eqb c sep then EmptyString :: split sep s'
      else match split sep s' with
           | [] => [String c EmptyString]
           | x :: xs => String c x :: xs
           end
  end.

(** [s.split(sep, 1)] when [sep in s]: the text before the first separator
    and the text after it; [None] when [sep] does not occur in [s]. *)
Fixpoint split1 (sep : ascii) (s : string) : option (string * string) :=
  match s with
  | EmptyString => None
  | String c s' =>
      if Ascii.eqb c sep then Some (EmptyString, s')
      else match split1 sep s' with
           | Some (k, r) => Some (String c k, r)
           | None => None
           end
  end.

(** [sep.join(l)] *)
Fixpoint join (sep : string) (l : list string) : string :=
  match l with
  | [] => EmptyString
  | [x] => x
  | x :: xs => x ++ sep ++ join sep xs
  end.

(** [filter(None, l)] on strings: the non-empty ones *)
Definition filter_nonempty (l : list string) : list string :=
  filter (fun s => negb (String.eqb s EmptyString)) l.

(** the characters of a string, each as a string of length one *)
Fixpoint chars (s : string) : list string :=
  match s with
  | EmptyString => []
  | String c s' => String c EmptyString :: chars s'
  end.

(** ** YAML trees *)

#[local] Set Warnings "-register-all".

Inductive value : Type :=
| VStr (s : string)
| VInt (z : Z)
| VBool (b : bool)
| VOther (text : string)   (* null, a float, a timestamp, as it is written *)
| VList (l : list value)
| VMap (m : list (string * value)).

Definition dict : Type := list (string * value).

(** *** Ordered dictionaries *)

Fixpoint dict_get (k : string) (m : dict) : option value :=
  match m with
  | [] => None
  | (k', v) :: m' => if String.eqb k k' then Some v else dict_get k m'
  end.

Definition dict_mem (k : string) (m : dict) : bool :=
  match dict_get k m with Some _ => true | None => false end.

(** [m[k] = v]: an existing key keeps its place, a new one goes last *)
Fixpoint dict_set (k : string) (v : value) (m : dict) : dict :=
  match m with
  | [] => [(k, v)]
  | (k', v') :: m' =>
      if String.eqb k k' then (k', v) :: m'
      else (k', v') :: dict_set k v m'
  end.

(** [del m[k]], for a key that is there *)
Definition dict_remove (k : string) (m : dict) : dict :=
  filter (fun kv => negb (String.eqb k (fst kv))) m.

Definition dict_keys (m : dict) : list string := map fst m.

(** *** Python's operations on loaded values *)

Definition is_str (v : value) : bool :=
  match v with VStr _ => true | _ => false end.

(** [isinstance(v, collections.Mapping)] *)
Definition is_mapping (v : value) : bool :=
  match v with VMap _ => true | _ => false end.

(** [v == s] and [v != s] for a string [s] *)
Definition eq_str (v : value) (s : string) : bool :=
  match v with VStr s' => String.eqb s' s | _ => false end.

Definition ne_str (v : value) (s : string) : bool := negb (eq_str v s).

(** [d[k]] for a string [k] *)
Definition getitem (d : value) (k : string) : res value :=
  match d with
  | VMap m => match dict_get k m with
              | Some v => Ok v
              | None => Raise KeyError
              end
  | _ => Raise TypeError
  end.

(** [l[z]] for an integer [z], on a list or on the characters of a string *)
Definition index {A : Type} (l : list A) (z : Z) : res A :=
  let n := Z.of_nat (List.length l) in
  let i := if (z <? 0)%Z then (z + n)%Z else z in
  if ((0 <=? i)%Z && (i <? n)%Z)%bool
  then match nth_error l (Z.to_nat i) with
       | Some a => Ok a
       | None => Raise IndexError
       end
  else Raise IndexError.

Definition index_value (d : value) (z : Z) : res value :=
  match d with
  | VList l => index l z
  | VStr s => c <- index (chars s) z ;; Ok (VStr c)
  | VMap _ => Raise KeyError
  | _ => Raise TypeError
  end.

(** [d[k]] for any loaded value [k] *)
Definition subscript (d k : value) : res value :=
  match k with
  | VStr s => getitem d s
  | VInt z => index_value d z
  | VBool b => index_value d (if b then 1 else 0)%Z
  | VOther _ => match d with
                | VMap _ => Raise KeyError
                | _ => Raise TypeError
                end
  | VList _ | VMap _ => Raise TypeError
  end.

(** [k in d] for a string [k] *)
Definition contains (k : string) (d : value) : res bool :=
  match d with
  | VMap m => Ok (dict_mem k m)
  | VList l => Ok (existsb (fun v => eq_str v k) l)
  | VStr s => Ok (is_substring k s)
  | _ => Raise TypeError
  end.

(** the values a [for] loop over [d] visits *)
Definition py_iter (d : value) : res (list value) :=
  match d with
  | VList l => Ok l
  | VMap m => Ok (map VStr (dict_keys m))
  | VStr s => Ok (map VStr (chars s))
  | _ => Raise TypeError
  end.

(** [d.get(k, default)] *)
Definition get_default (d : value) (k : string) (default : value) : res value :=
  match d with
  | VMap m => match dict_get k m with
              | Some v => Ok v
              | None => Ok default
              end
  | _ => Raise AttributeError
  end.

(** a method of [str] called on [v]: [v.lower()], [v.endswith(..)],
    [v.split(..)] *)
Definition str_method (v : value) : res string :=
  match v with
  | VStr s => Ok s
  | _ => Raise AttributeError
  end.

(** [d[k] = v] for a string [k] *)
Definition setitem (d : value) (k : string) (v : value) : res value :=
  match d with
  | VMap m => Ok (VMap (dict_set k v m))
  | _ => Raise TypeError
  end.

(** [del d[k]] for a string [k] *)
Definition delitem (d : value) (k : string) : res value :=
  match d with
  | VMap m => if dict_mem k m then Ok (VMap (dict_remove k m))
              else Raise KeyError
  | _ => Raise TypeError
  end.

(** [len(d)] *)
Definition py_len (d : value) : res nat :=
  match d with
  | VMap m => Ok (List.length m)
  | VList l => Ok (List.length l)
  | VStr s => Ok (String.length s)
  | _ => Raise TypeError
  end.

(** ** Regular expressions

    [re.fullmatch] is used with one pattern, built from character classes,
    alternation, concatenation, [*], [+] and [?].  For such a pattern a
    full match exists exactly when the string is in the pattern's
    language, which the derivative of the pattern decides. *)

Inductive regex : Type :=
| Void
| Eps
| Class (p : ascii -> bool)
| Cat (r s : regex)
| Alt (r s : regex)
| Star (r : regex).

Definition Plus (r : regex) : regex := Cat r (Star r).
Definition Opt (r : regex) : regex := Alt r Eps.

Fixpoint Lit (s : string) : regex :=
  match s with
  | EmptyString => Eps
  | String c s' => Cat (Class (Ascii.eqb c)) (Lit s')
  end.

Fixpoint nullable (r : regex) : bool :=
  match r with
  | Void => false
  | Eps => true
  | Class _ => false
  | Cat r s => nullable r && nullable s
  | Alt r s => nullable r || nullable s
  | Star _ => true
  end.

Fixpoint deriv (c : ascii) (r : regex) : regex :=
  match r with
  | Void => Void
  | Eps => Void
  | Class p => if p c then Eps else Void
  | Cat r s =>
      if nullable r then Alt (Cat (deriv c r) s) (deriv c s)
      else Cat (deriv c r) s
  | Alt r s => Alt (deriv c r) (deriv c s)
  | Star r => Cat (deriv c r) (Star r)
  end.

(** [re.fullmatch(r, s)] is not [None] *)
Fixpoint fullmatch (r : regex) (s : string) : bool :=
  match s with
  | EmptyString => nullable r
  | String c s' => fullmatch (deriv c r) s'
  end.

(** the strings a pattern matches as a whole *)
Inductive matches : regex -> string -> Prop :=
| MEps : matches Eps EmptyString
| MClass (p : ascii -> bool) (c : ascii) :
    p c = true -> matches (Class p) (String c EmptyString)
| MCat (r s : regex) (a b : string) :
    matches r a -> matches s b -> matches (Cat r s) (a ++ b)
| MAltL (r s : regex) (a : string) : matches r a -> matches (Alt r s) a
| MAltR (r s : regex) (a : string) : matches s a -> matches (Alt r s) a
| MStarNil (r : regex) : matches (Star r) EmptyString
| MStarCons (r : regex) (a b : string) :
    matches r a -> matches (Star r) b -> matches (Star r) (a ++ b).

Definition in_range (lo hi : nat) (c : ascii) : bool :=
  let n := nat_of_ascii c in ((lo <=? n)%nat && (n <=? hi)%nat)%bool.

Definition is_digit : ascii -> bool := in_range 48 57.

(** [[a-zA-Z0-9]] *)
Definition is_alnum (c : ascii) : bool :=
  in_range 97 122 c || in_range 65 90 c || is_digit c.

(** [[a-zA-Z0-9-]] *)
Definition is_alnum_hyphen (c : ascii) : bool :=
  is_alnum c || Ascii.eqb c "-".

(** ['([a-zA-Z0-9]|[a-zA-Z0-9][a-zA-Z0-9-]*[a-zA-Z0-9])'] *)
Definition domainComponent : regex :=
  Alt (Class is_alnum)
      (Cat (Class is_alnum)
           (Cat (Star (Class is_alnum_hyphen)) (Class is_alnum))).

(** ['(localhost|(%s([.]%s)+))(:[0-9]+)?' % (domainComponent, domainComponent)] *)
Definition domain : regex :=
  Cat (Alt (Lit "localhost")
           (Cat domainComponent
                (Plus (Cat (Class (Ascii.eqb ".")) domainComponent))))
      (Opt (Cat (Class (Ascii.eqb ":")) (Plus (Class is_digit)))).

(** ** Image references *)

(** [parse_ref] of [set_fluxhelmrelease_container], with the image text
    [replace] it closes over as its argument.  It returns
    [(reg, im, tag)].  Nothing in its [try] block raises [ValueError].
    [split_registry] is its first half, on [replace.split('/')], and
    [split_tag] its second half, on [im.split(':')]. *)
Definition split_registry (replace : string) : string * string :=
  let segments := split "/" replace in
  match segments with
  | [_] => (EmptyString, replace)
  | [s0; s1] =>
      if fullmatch domain s0 then (s0, s1) else (EmptyString, replace)
  | _ => (hd EmptyString segments, join "/" (tl segments))
  end.

Definition split_tag (reg im : string) : string * string * string :=
  match split ":" im with
  | [a; b] => (reg, a, b)
  | [a; b; c] => (reg, join ":" [a; b], c)
  | _ => (reg, im, EmptyString)
  end.

Definition parse_ref (replace : string) : string * string * string :=
  let '(reg, im) := split_registry replace in
  split_tag reg im.

(** [format] of the specification (section 4.1), written after its words:
    the registry and ["/"] before the repository when the registry is not
    empty, then [":"] and the tag when the tag is not empty.  The source
    composes an image text this way in [get_image], from the fields
    [registry], [image] and [tag] of a mapping. *)
Definition format_ref (ref : string * string * string) : string :=
  let '(reg, im, tag) := ref in
  (if String.eqb reg EmptyString then im else reg ++ "/" ++ im)
  ++ (if String.eqb tag EmptyString then EmptyString else ":" ++ tag).

(** ** The command line *)

(** The attributes of [args] (called [spec] in some functions) that the
    two subcommands read: [--namespace], [--kind], [--name], and
    [--container], [--image] for [image], the [notes] for [annotate]. *)
Record Args : Type := mkArgs {
  args_namespace : string;
  args_kind : string;
  args_name : string;
  args_container : string;
  args_image : string;
  args_notes : list (string * string)
}.

Definition FHR_CONTAINER : string := "chart-image".
Definition REGISTRY_ANNOTATION : string := "registry.flux.weave.works/".
Definition REPOSITORY_ANNOTATION : string := "repository.flux.weave.works/".
Definition TAG_ANNOTATION : string := "tag.flux.weave.works/".

(** ** Locating manifests *)

(** [manifests(doc)]: the manifests the generator yields *)
Definition manifests (doc : value) : res (list value) :=
  k <- getitem doc "kind" ;;
  k <- str_method k ;;
  if endswith k "List" then
    items <- getitem doc "items" ;;
    py_iter items
  else Ok [doc].

(** The document after the [j]-th manifest that [manifests(doc)] yielded
    has become [m]: for a list document the manifest is the [j]-th of its
    items, otherwise it is the document. *)
Fixpoint list_set {A : Type} (j : nat) (a : A) (l : list A) : list A :=
  match l, j with
  | [], _ => []
  | _ :: l', O => a :: l'
  | x :: l', S j' => x :: list_set j' a l'
  end.

Definition put_manifest (doc : value) (j : nat) (m : value) : value :=
  match doc with
  | VMap d =>
      match dict_get "kind" d with
      | Some (VStr k) =>
          if endswith k "List" then
            match dict_get "items" d with
            | Some (VList items) =>
                VMap (dict_set "items" (VList (list_set j m items)) d)
            | _ => doc
            end
          else m
      | _ => doc
      end
  | _ => doc
  end.

(** [match_manifest(spec, manifest)]; only a [KeyError] is caught *)
Definition match_manifest (spec : Args) (manifest : value) : res bool :=
  except_KeyError
    (k <- getitem manifest "kind" ;;
     k <- str_method k ;;
     if negb (String.eqb (lower k) (lower (args_kind spec))) then Ok false
     else
       md <- getitem manifest "metadata" ;;
       ns <- get_default md "namespace" (VStr "default") ;;
       if ne_str ns (args_namespace spec) then Ok false
       else
         md <- getitem manifest "metadata" ;;
         n <- getitem md "name" ;;
         if ne_str n (args_name spec) then Ok false
         else Ok true)
    (Ok false).

(** ** Containers of a workload *)

(** [d[k1][k2]...] *)
Fixpoint getitems (d : value) (keys : list string) : res value :=
  match keys with
  | [] => Ok d
  | k :: keys' => d' <- getitem d k ;; getitems d' keys'
  end.

(** the keys [podspec] goes through *)
Definition podspec_path (manifest : value) : res (list string) :=
  k <- getitem manifest "kind" ;;
  if eq_str k "CronJob"
  then Ok ["spec"; "jobTemplate"; "spec"; "template"; "spec"]
  else Ok ["spec"; "template"; "spec"].

Definition podspec (manifest : value) : res value :=
  path <- podspec_path manifest ;;
  getitems manifest path.

(** [a + b], then the values a [for] loop over the sum visits: two lists
    are concatenated, two strings too (and visited character by
    character); every other sum either is a [TypeError] or is a number,
    which no loop can visit. *)
Definition py_add_iter (a b : value) : res (list value) :=
  match a, b with
  | VList l1, VList l2 => Ok (l1 ++ l2)%list
  | VStr s1, VStr s2 => Ok (map VStr (chars (s1 ++ s2)))
  | _, _ => Raise TypeError
  end.

(** [manifest['kind'] in ['FluxHelmRelease', 'HelmRelease']] *)
Definition is_helm_kind (manifest : value) : res bool :=
  k <- getitem manifest "kind" ;;
  Ok (eq_str k "FluxHelmRelease" || eq_str k "HelmRelease").

(** ** Containers of a Helm release *)

(** [{'name': name, 'image': image}] *)
Definition container_entry (name image : value) : value :=
  VMap [("name", name); ("image", image)].

(** [update(mappings, {name: {field: v}})].  The entry of [name] is a
    mapping once it exists.  When [v] is itself a mapping, [update]
    rebuilds it key by key, which on a tree is [v]. *)
Definition update_field (mappings : dict) (name field : string) (v : value)
  : dict :=
  let d := match dict_get name mappings with
           | Some (VMap d) => d
           | _ => []
           end in
  dict_set name (VMap (dict_set field v d)) mappings.

(** the loop over [annotations.items()] *)
Fixpoint collect_mappings (annotations : dict) (mappings : dict) : dict :=
  match annotations with
  | [] => mappings
  | (k, v) :: rest =>
      let mappings :=
        if startswith k REGISTRY_ANNOTATION
        then update_field mappings
               (drop (String.length REGISTRY_ANNOTATION) k) "registry" v
        else mappings in
      if startswith k REPOSITORY_ANNOTATION
      then collect_mappings rest
             (update_field mappings
                (drop (String.length REPOSITORY_ANNOTATION) k) "repository" v)
      else if startswith k TAG_ANNOTATION
      then collect_mappings rest
             (update_field mappings
                (drop (String.length TAG_ANNOTATION) k) "tag" v)
      else collect_mappings rest mappings
  end.

Definition container_mappings_from_annotations (manifest : value)
  : res dict :=
  except_KeyError
    (md <- getitem manifest "metadata" ;;
     annotations <- getitem md "annotations" ;;
     match annotations with
     | VMap a => Ok (collect_mappings a [])
     | _ => Raise AttributeError
     end)
    (Ok []).

(** one step of the generator [mappings(values)], at the key [k] that the
    loop over [values] has reached *)
Definition mappings_step (values k : value) : res (option (value * value)) :=
  v <- subscript values k ;;
  Ok (if is_mapping v then Some (k, v) else None).

Definition path_length (path : value) : nat :=
  match path with VStr p => String.length p | _ => O end.

(** [get_path(d, path)]; [None] is Python's [None] after a [KeyError].
    Each call has a shorter path to go through; [fuel] bounds the calls,
    and one more than the length of the path is enough
    ([get_path_fuel_enough]).  The branch of [split1] without a separator
    is not reached, ["."] being in the path ([split1_substring]). *)
Fixpoint get_path_fuel (fuel : nat) (d path : value) : res (option value) :=
  match fuel with
  | O => Raise TypeError
  | S fuel' =>
      except_KeyError
        (dot <- contains "." path ;;
         if dot then
           p <- str_method path ;;
           match split1 "." p with
           | Some (key, rest) =>
               d' <- getitem d key ;;
               get_path_fuel fuel' d' (VStr rest)
           | None => Raise TypeError
           end
         else
           v <- subscript d path ;;
           Ok (Some v))
        (Ok None)
  end.

Definition get_path (d path : value) : res (option value) :=
  get_path_fuel (S (path_length path)) d path.

(** [get_image_for_mapping(values, mapping)].  The body reads the mapping
    through the variable [v] of the enclosing loop, which is [mapping]
    at every call. *)
Definition get_image_for_mapping (values mapping : value)
  : res (option string) :=
  has <- contains "repository" mapping ;;
  if negb has then Ok None
  else
    p <- getitem mapping "repository" ;;
    repository <- get_path values p ;;
    match repository with
    | Some (VStr r) =>
        if String.eqb r EmptyString then Ok None
        else
          has <- contains "tag" mapping ;;
          if has then
            p <- getitem mapping "tag" ;;
            tag <- get_path values p ;;
            match tag with
            | Some (VStr t) =>
                if String.eqb t EmptyString then Ok None
                else Ok (Some (r ++ ":" ++ t))
            | _ => Ok None
            end
          else Ok (Some r)
    | _ => Ok None
    end.

(** [replace(d, value)] for an entry [value] whose name is the string [k] *)
Fixpoint replace (d : list value) (k : string) (entry : value)
  : res (list value) :=
  match d with
  | [] => Ok [entry]
  | c :: d' =>
      n <- getitem c "name" ;;
      if eq_str n k then Ok (entry :: d')
      else r <- replace d' k entry ;; Ok (c :: r)
  end.

(** the third loop of [fluxhelmrelease_containers] *)
Fixpoint annotated_containers (values : value) (mappings : dict)
  (containers : list value) : res (list value) :=
  match mappings with
  | [] => Ok containers
  | (k, v) :: rest =>
      image <- get_image_for_mapping values v ;;
      match image with
      | None => annotated_containers values rest containers
      | Some i =>
          if String.eqb i EmptyString
          then annotated_containers values rest containers
          else
            containers <- replace containers k
                            (container_entry (VStr k) (VStr i)) ;;
            annotated_containers values rest containers
      end
  end.

(** ** Writing an image back into a Helm release *)

(** [set_path(d, path, value)] on the keys of [path.split(".")]: the new
    [d] and the returned boolean.  A dictionary reached on the way is part
    of [d], so the write made in it is stored back under its key. *)
Fixpoint set_path_keys (d : value) (keys : list string) (v : string)
  : res (value * bool) :=
  match keys with
  | [] => Raise IndexError
  | [k] =>
      cur <- getitem d k ;;
      if negb (is_str cur) then Ok (d, false)
      else d' <- setitem d k (VStr v) ;; Ok (d', true)
  | k :: rest =>
      has <- contains k d ;;
      if negb has then Ok (d, false)
      else
        child <- getitem d k ;;
        r <- set_path_keys child rest v ;;
        d' <- setitem d k (fst r) ;;
        Ok (d', snd r)
  end.

Definition set_path (d path : value) (v : string) : res (value * bool) :=
  p <- str_method path ;;
  set_path_keys d (split "." p) v.

(** the four branches of [set_image], on the mapping and key it chose *)
Definition set_image_fields (values : value) (imageKey replace : string)
  : res value :=
  let '(reg, im, tag) := parse_ref replace in
  has_reg <- contains "registry" values ;;
  has_tag <- contains "tag" values ;;
  if has_reg && has_tag then
    values <- setitem values "registry" (VStr reg) ;;
    values <- setitem values imageKey (VStr im) ;;
    setitem values "tag" (VStr tag)
  else if has_reg then
    values <- setitem values "registry" (VStr reg) ;;
    setitem values imageKey (VStr (join ":" (filter_nonempty [im; tag])))
  else if has_tag then
    values <- setitem values imageKey
                (VStr (join "/" (filter_nonempty [reg; im]))) ;;
    setitem values "tag" (VStr tag)
  else setitem values imageKey (VStr replace).

(** [set_image(values)]: when [values['image']] is a mapping with a
    [repository], the fields are written in that mapping, which is part
    of [values]. *)
Definition set_image (values : value) (replace : string) : res value :=
  image <- getitem values "image" ;;
  nested <- (if is_mapping image then contains "repository" image
             else Ok false) ;;
  if nested then
    image <- set_image_fields image "repository" replace ;;
    setitem values "image" image
  else set_image_fields values "image" replace.

(** [set_image_for_mapping(values, mapping)]; the booleans [set_path]
    returns are dropped *)
Definition set_image_for_mapping (values mapping : value) (replace : string)
  : res value :=
  let '(reg, im, tag) := parse_ref replace in
  has_reg <- contains "registry" mapping ;;
  has_tag <- contains "tag" mapping ;;
  if has_reg && has_tag then
    p <- getitem mapping "registry" ;;
    r <- set_path values p reg ;;
    p <- getitem mapping "repository" ;;
    r <- set_path (fst r) p im ;;
    p <- getitem mapping "tag" ;;
    r <- set_path (fst r) p tag ;;
    Ok (fst r)
  else if has_reg then
    p <- getitem mapping "registry" ;;
    r <- set_path values p reg ;;
    p <- getitem mapping "repository" ;;
    r <- set_path (fst r) p (im ++ ":" ++ tag) ;;
    Ok (fst r)
  else if has_tag then
    p <- getitem mapping "repository" ;;
    r <- set_path values p im ;;
    p <- getitem mapping "tag" ;;
    r <- set_path (fst r) p tag ;;
    Ok (fst r)
  else
    p <- getitem mapping "repository" ;;
    r <- set_path values p replace ;;
    Ok (fst r).

(** the loop over [container_mappings_from_annotations(manifest).items()]
    of [set_fluxhelmrelease_container]: the new [values] when a mapping
    was used (the function then returns), [None] when the loop ends *)
Fixpoint set_annotated (values : value) (mappings : dict) (cname : value)
  (replace : string) : res (option value) :=
  match mappings with
  | [] => Ok None
  | (k, v) :: rest =>
      if eq_str cname k then
        has <- contains "repository" v ;;
        if has then
          values <- set_image_for_mapping values v replace ;;
          Ok (Some values)
        else set_annotated values rest cname replace
      else set_annotated values rest cname replace
  end.

Definition as_int (v : value) : Z :=
  match v with
  | VInt z => z
  | VBool true => 1%Z
  | _ => 0%Z
  end.

(** [k == name] for a key [k] that [mappings(values)] yielded: a string,
    or an integer when [values] is a list.  (A float name is not compared
    as a number.) *)
Definition eq_key (k name : value) : bool :=
  match k, name with
  | VStr a, VStr b => String.eqb a b
  | (VInt _ | VBool _), (VInt _ | VBool _) => Z.eqb (as_int k) (as_int name)
  | _, _ => false
  end.

(** [values[k]] has become [v], for a key [k] that [mappings(values)]
    yielded *)
Definition store_at (values k v : value) : res value :=
  match k, values with
  | VStr s, _ => setitem values s v
  | (VInt _ | VBool _), VList l =>
      let z := as_int k in
      let i := if (z <? 0)%Z then (z + Z.of_nat (List.length l))%Z else z in
      Ok (VList (list_set (Z.to_nat i) v l))
  | _, _ => Raise TypeError
  end.

(** the loop over [mappings(values)] of [set_fluxhelmrelease_container] *)
Fixpoint set_nested (values : value) (keys : list value) (cname : value)
  (replace : string) : res (option value) :=
  match keys with
  | [] => Ok None
  | k :: keys' =>
      kv <- mappings_step values k ;;
      match kv with
      | Some (k, v) =>
          if eq_key k cname then
            has <- contains "image" v ;;
            if has then
              v <- set_image v replace ;;
              values <- store_at values k v ;;
              Ok (Some values)
            else set_nested values keys' cname replace
          else set_nested values keys' cname replace
      | None => set_nested values keys' cname replace
      end
  end.

(** a stored mapping reached through [keys] has become [v] *)
Fixpoint setitems (d : value) (keys : list string) (v : value) : res value :=
  match keys with
  | [] => Ok v
  | k :: keys' =>
      child <- getitem d k ;;
      child <- setitems child keys' v ;;
      setitem d k child
  end.

(** [set_fluxhelmrelease_container(manifest, container, replace)]: the
    manifest with the image written into its [spec.values] *)
Definition set_fluxhelmrelease_container (manifest container : value)
  (replace : string) : res value :=
  values <- getitems manifest ["spec"; "values"] ;;
  cname <- getitem container "name" ;;
  top <- (if eq_str cname FHR_CONTAINER then contains "image" values
          else Ok false) ;;
  if top then
    values <- set_image values replace ;;
    setitems manifest ["spec"; "values"] values
  else
    mappings <- container_mappings_from_annotations manifest ;;
    r <- set_annotated values mappings cname replace ;;
    match r with
    | Some values => setitems manifest ["spec"; "values"] values
    | None =>
        keys <- py_iter values ;;
        r <- set_nested values keys cname replace ;;
        match r with
        | Some values => setitems manifest ["spec"; "values"] values
        | None => Raise NotFound
        end
    end.

(** ** Writing an image back into a workload *)

(** The container that [find_container] returned is the object at
    position [pos] of [containers + initContainers] of the pod
    specification; after [container['image'] = image] that object is [c]. *)
Definition store_container (manifest : value) (pos : nat) (c : value)
  : res value :=
  path <- podspec_path manifest ;;
  spec <- getitems manifest path ;;
  a <- get_default spec "containers" (VList []) ;;
  b <- get_default spec "initContainers" (VList []) ;;
  match a, b with
  | VList l1, VList l2 =>
      spec <- (if (pos <? List.length l1)%nat
               then setitem spec "containers" (VList (list_set pos c l1))
               else if (pos - List.length l1 <? List.length l2)%nat
               then setitem spec "initContainers"
                      (VList (list_set (pos - List.length l1) c l2))
               else Raise IndexError) ;;
      setitems manifest path spec
  | _, _ => Raise TypeError
  end.

(** [set_container_image(manifest, container, image)], with the container
    given by its position and the object there *)
Definition set_container_image (manifest : value) (container : nat * value)
  (image : string) : res value :=
  helm <- is_helm_kind manifest ;;
  if helm then set_fluxhelmrelease_container manifest (snd container) image
  else
    c <- setitem (snd container) "image" (VStr image) ;;
    store_container manifest (fst container) c.

(** ** Editing annotations *)

(** one key of [ensure(d, *keys)]: [d], with the key added when it was
    missing, and the value under the key *)
Definition ensure (d : value) (k : string) : res (value * value) :=
  match getitem d k with
  | Ok v => Ok (d, v)
  | Raise KeyError => d' <- setitem d k (VMap []) ;; Ok (d', VMap [])
  | Raise e => Raise e
  end.

(** the loop over [spec.notes] *)
Fixpoint apply_notes (notes : value) (l : list (string * string))
  : res value :=
  match l with
  | [] => Ok notes
  | (k, v) :: l' =>
      notes <- (if String.eqb v EmptyString
                then except_KeyError (delitem notes k) (Ok notes)
                else setitem notes k (VStr v)) ;;
      apply_notes notes l'
  end.

(** the body of [update_annotations] for a manifest [m] that matched *)
Definition annotate (spec : Args) (m : value) : res value :=
  r <- ensure m "metadata" ;;
  let '(m, md) := r in
  r <- ensure md "annotations" ;;
  let '(md, notes) := r in
  notes <- apply_notes notes (args_notes spec) ;;
  n <- py_len notes ;;
  md <- setitem md "annotations" notes ;;
  md <- (if (n =? 0)%nat then delitem md "annotations" else Ok md) ;;
  setitem m "metadata" md.

(** ** The loop over the stream

    [update_image] and [update_annotations] run the same loop over the
    documents, [found] being its flag.  [edit doc] is the inner loop over
    [manifests(doc)]: the edited document when a manifest was found,
    [None] when the loop ended without one.  The result is the documents
    yielded and the exception that ended the generator, if one did. *)
Fixpoint edit_stream (edit : value -> res (option value)) (found : bool)
  (docs : list value) : list value * option exn :=
  match docs with
  | [] => ([], if found then None else Some NotFound)
  | doc :: rest =>
      if found then
        let '(out, e) := edit_stream edit true rest in (doc :: out, e)
      else
        match edit doc with
        | Raise e => ([], Some e)
        | Ok (Some doc') =>
            let '(out, e) := edit_stream edit true rest in (doc' :: out, e)
        | Ok None =>
            let '(out, e) := edit_stream edit false rest in (doc :: out, e)
        end
  end.

(** the loop of [update_annotations] over [manifests(doc)] *)
Fixpoint annotate_manifests (spec : Args) (doc : value) (j : nat)
  (ms : list value) : res (option value) :=
  match ms with
  | [] => Ok None
  | m :: ms' =>
      b <- match_manifest spec m ;;
      if b then
        m' <- annotate spec m ;;
        Ok (Some (put_manifest doc j m'))
      else annotate_manifests spec doc (S j) ms'
  end.

Definition update_annotations (spec : Args) (docs : list value)
  : list value * option exn :=
  edit_stream
    (fun doc => ms <- manifests doc ;; annotate_manifests spec doc 0 ms)
    false docs.

Section Resolver.

(** What ['%s' % v] prints for a [v] that is not a string. *)
Variable py_str : value -> string.

Definition fmt (v : value) : string :=
  match v with
  | VStr s => s
  | _ => py_str v
  end.

Definition get_image (values : value) : res value :=
  image <- getitem values "image" ;;
  nested <- (if is_mapping image then contains "repository" image
             else Ok false) ;;
  r <- (if nested then
          repository <- getitem image "repository" ;;
          Ok (image, repository)
        else Ok (values, image)) ;;
  let '(values, image) := r in
  has <- contains "registry" values ;;
  image <- (if has then
              reg <- getitem values "registry" ;;
              if ne_str reg EmptyString
              then Ok (VStr (fmt reg ++ "/" ++ fmt image))
              else Ok image
            else Ok image) ;;
  has <- contains "tag" values ;;
  if has then
    tag <- getitem values "tag" ;;
    if ne_str tag EmptyString
    then Ok (VStr (fmt image ++ ":" ++ fmt tag))
    else Ok image
  else Ok image.

(** the second loop of [fluxhelmrelease_containers] *)
Fixpoint nested_containers (values : value) (keys : list value)
  (containers : list value) : res (list value) :=
  match keys with
  | [] => Ok containers
  | k :: keys' =>
      kv <- mappings_step values k ;;
      match kv with
      | Some (k, v) =>
          has <- contains "image" v ;;
          if has then
            image <- get_image v ;;
            nested_containers values keys'
              (containers ++ [container_entry k image])%list
          else nested_containers values keys' containers
      | None => nested_containers values keys' containers
      end
  end.

Definition fluxhelmrelease_containers (manifest : value)
  : res (list value) :=
  values <- getitems manifest ["spec"; "values"] ;;
  has <- contains "image" values ;;
  containers <- (if has then
                   image <- get_image values ;;
                   Ok [container_entry (VStr FHR_CONTAINER) image]
                 else Ok []) ;;
  keys <- py_iter values ;;
  containers <- nested_containers values keys containers ;;
  mappings <- container_mappings_from_annotations manifest ;;
  annotated_containers values mappings containers.

Definition containers (manifest : value) : res (list value) :=
  helm <- is_helm_kind manifest ;;
  if helm then fluxhelmrelease_containers manifest
  else
    spec <- podspec manifest ;;
    a <- get_default spec "containers" (VList []) ;;
    b <- get_default spec "initContainers" (VList []) ;;
    py_add_iter a b.

(** the loop of [find_container]: the container and its position *)
Fixpoint find_named (name : string) (pos : nat) (cs : list value)
  : res (option (nat * value)) :=
  match cs with
  | [] => Ok None
  | c :: cs' =>
      n <- getitem c "name" ;;
      if eq_str n name then Ok (Some (pos, c))
      else find_named name (S pos) cs'
  end.

(** [find_container(spec, manifest)]; [None] is Python's [None] *)
Definition find_container (spec : Args) (manifest : value)
  : res (option (nat * value)) :=
  m <- match_manifest spec manifest ;;
  if negb m then Ok None
  else
    cs <- containers manifest ;;
    find_named (args_container spec) 0 cs.

(** the loop of [update_image] over [manifests(doc)], from the [j]-th
    manifest on: the document after the edit, [None] when the loop ends
    without a container *)
Fixpoint update_manifests (args : Args) (doc : value) (j : nat)
  (ms : list value) : res (option value) :=
  match ms with
  | [] => Ok None
  | m :: ms' =>
      c <- find_container args m ;;
      match c with
      | Some c =>
          m' <- set_container_image m c (args_image args) ;;
          Ok (Some (put_manifest doc j m'))
      | None => update_manifests args doc (S j) ms'
      end
  end.

Definition update_doc (args : Args) (doc : value) : res (option value) :=
  ms <- manifests doc ;;
  update_manifests args doc 0 ms.

Definition update_image (args : Args) (docs : list value)
  : list value * option exn :=
  edit_stream (update_doc args) false docs.

End Resolver.

(** ** Notions used in the statements *)

(** An image text that is well formed for [parse_ref]: it does not begin
    with the separator of the registry, and it does not end with the
    separator of the tag. *)
Definition well_formed_ref (s : string) : Prop :=
  startswith s "/" = false /\ endswith s ":" = false.





(** The mapping that [keys] lead to from [d], when every key on the way is
    there and holds a mapping. *)
Fixpoint descend (d : value) (keys : list string) : option dict :=
  match keys, d with
  | [], VMap m => Some m
  | k :: ks, VMap m =>
      match dict_get k m with
      | Some c => descend c ks
      | None => None
      end
  | _, _ => None
  end.

(** ** Manifests used in the examples *)

(** An instance of [py_str].  The examples print strings only. *)
Definition py_str_example (v : value) : string :=
  match v with
  | VStr s => s
  | VBool true => "True"
  | VBool false => "False"
  | VOther text => text
  | VInt _ => "<int>"
  | VList _ => "<list>"
  | VMap _ => "<mapping>"
  end.

(** a Helm release [rel] with the given annotations and values *)
Definition ex_release (annotations : dict) (values : value) : value :=
  VMap [("kind", VStr "HelmRelease");
        ("metadata", VMap [("name", VStr "rel");
                           ("annotations", VMap annotations)]);
        ("spec", VMap [("values", values)])].


Definition ex_values_web : value :=
  VMap [("web", VMap [("image", VStr "x"); ("version", VStr "y")])].

(** the annotations of the specification's example: the paths begin with
    [values.] *)
Definition ex_annotations_prefixed : dict :=
  [("repository.flux.weave.works/web", VStr "values.web.image");
   ("tag.flux.weave.works/web", VStr "values.web.version")].

(** the same with paths that start inside [spec.values] *)
Definition ex_annotations_relative : dict :=
  [("repository.flux.weave.works/web", VStr "web.image");
   ("tag.flux.weave.works/web", VStr "web.version")].

(** a repository path whose last key [img] is not in [values.web] *)
Definition ex_annotations_missing : dict :=
  [("repository.flux.weave.works/web", VStr "web.img")].

Definition ex_args_web : Args :=
  mkArgs "default" "HelmRelease" "rel" "web" "z:9" [].

Definition ex_args_chart : Args :=
  mkArgs "default" "helmrelease" "rel" "chart-image" "bar:2.0" [].

(** a workload whose pod template is at [spec.template.spec], with one
    container *)
Definition ex_workload_with (kind name : string) (extra : dict)
  (container image : string) : value :=
  VMap [("kind", VStr kind);
        ("metadata", VMap (("name", VStr name) :: extra));
        ("spec",
         VMap [("template",
                VMap [("spec",
                       VMap [("containers",
                              VList [VMap [("name", VStr container);
                                           ("image", VStr image)]])])])])].

(** the same with the container [c] running [old] *)
Definition ex_workload (kind name : string) (extra : dict) : value :=
  ex_workload_with kind name extra "c" "old".


(** a Deployment [b] whose [spec] has no pod template *)
Definition ex_no_template : value :=
  VMap [("kind", VStr "Deployment");
        ("metadata", VMap [("name", VStr "b")]);
        ("spec", VMap [("replicas", VInt 1)])].

Definition ex_args_image : Args :=
  mkArgs "default" "deployment" "b" "c" "new:1" [].

(** [r] is not the exception [NotFound] *)
Definition nnf {A : Type} (r : res A) : Prop := r <> Raise NotFound.

(** A container of a Helm release that one of the three loops of
    [set_fluxhelmrelease_container] can write: it is named [chart-image]
    and [values] has an [image]; or it is named after a key of [values]
    that holds a mapping with an [image]; or it is named after a mapping of
    the annotations that has a repository path. *)
Definition writable (values : value) (mappings : dict) (keys : list value)
  (c : value) : Prop :=
  exists n img,
    c = container_entry n img
    /\ ((n = VStr FHR_CONTAINER /\ contains "image" values = Ok true)
        \/ (exists v, In n keys
                      /\ mappings_step values n = Ok (Some (n, v))
                      /\ contains "image" v = Ok true)
        \/ (exists k v, n = VStr k /\ In (k, v) mappings
                        /\ contains "repository" v = Ok true)).

(** The loop over [manifests(doc)] that [update_image] and
    [update_annotations] both run: [pick] looks at a manifest and [apply]
    edits the one that was picked. *)
Fixpoint edit_manifests {X : Type} (pick : value -> res (option X))
  (apply : value -> X -> res value) (doc : value) (j : nat)
  (ms : list value) : res (option value) :=
  match ms with
  | [] => Ok None
  | m :: ms' =>
      x <- pick m ;;
      match x with
      | Some x => m' <- apply m x ;; Ok (Some (put_manifest doc j m'))
      | None => edit_manifests pick apply doc (S j) ms'
      end
  end.

(** what [update_annotations] picks: the manifests that match *)
Definition pick_match (spec : Args) (m : value) : res (option unit) :=
  b <- match_manifest spec m ;;
  Ok (if b then Some tt else None).

(** [m] is the [j]-th manifest of [ms], it is picked with [x], and no
    manifest before it is. *)
Definition first_hit {X : Type} (pick : value -> res (option X))
  (ms : list value) (j : nat) (m : value) (x : X) : Prop :=
  nth_error ms j = Some m
  /\ pick m = Ok (Some x)
  /\ forall i mi, (i < j)%nat -> nth_error ms i = Some mi ->
                  pick mi = Ok None.

(** the manifests of [doc] are looked at without an exception and none is
    picked *)
Definition no_hit {X : Type} (pick : value -> res (option X)) (doc : value)
  : Prop :=
  exists ms, manifests doc = Ok ms /\ Forall (fun m => pick m = Ok None) ms.

(** [out] is [docs] with one manifest edited: the first that is picked, in
    the order of the documents and of the manifests in a document. *)
Definition edits_first {X : Type} (pick : value -> res (option X))
  (apply : value -> X -> res value) (docs out : list value) : Prop :=
  exists pre doc post ms j m x m',
    docs = (pre ++ doc :: post)%list
    /\ out = (pre ++ put_manifest doc j m' :: post)%list
    /\ Forall (no_hit pick) pre
    /\ manifests doc = Ok ms
    /\ first_hit pick ms j m x
    /\ apply m x = Ok m'.

(** a list of three workloads, and the list after the image of the
    container [c] of the second has become ["new:1"] *)
Definition ex_workload_list : value :=
  VMap [("kind", VStr "DeploymentList");
        ("items", VList [ex_workload "Deployment" "a" [];
                         ex_workload "Deployment" "b" [];
                         ex_workload "Deployment" "c" []])].

Definition ex_workload_list_updated : value :=
  VMap [("kind", VStr "DeploymentList");
        ("items", VList [ex_workload "Deployment" "a" [];
                         ex_workload_with "Deployment" "b" [] "c" "new:1";
                         ex_workload "Deployment" "c" []])].

(** a Pod as Kubernetes has it: the containers are at [spec.containers] *)
Definition ex_pod (name : string) : value :=
  VMap [("kind", VStr "Pod");
        ("metadata", VMap [("name", VStr name)]);
        ("spec", VMap [("containers",
                        VList [VMap [("name", VStr "c");
                                     ("image", VStr "old")]])])].

Definition ex_pod_list : value :=
  VMap [("kind", VStr "PodList");
        ("items", VList [ex_pod "a"; ex_pod "b"; ex_pod "c"])].

Definition ex_args_pod : Args :=
  mkArgs "default" "Pod" "b" "c" "new:1" [].

(** a Service: a manifest that has no container anywhere *)
Definition ex_service : value :=
  VMap [("kind", VStr "Service");
        ("metadata", VMap [("name", VStr "web")]);
        ("spec", VMap [("ports", VList [VMap [("port", VInt 80)]])])].

Definition ex_args_service : Args :=
  mkArgs "default" "Service" "web" "c" "new:1" [].

(** ** The notes of the command line *)

(** [note(s)] of [parse_args]: [k, v = s.split('=')].  [None] is the
    [ValueError] of an unpacking that does not get exactly two values;
    argparse then refuses the argument. *)
Definition note (s : string) : option (string * string) :=
  match split "=" s with
  | [k; v] => Some (k, v)
  | _ => None
  end.

(** no manifest of the stream is a Helm release *)
Definition workloads_only (docs : list value) : Prop :=
  forall doc ms m,
    In doc docs -> manifests doc = Ok ms -> In m ms ->
    is_helm_kind m <> Ok true.

(** the path that the mapping of the container [name] holds for [field],
    when the mappings have one *)
Definition mapping_field (mappings : dict) (name field : string)
  : option value :=
  match dict_get name mappings with
  | Some (VMap d) => dict_get field d
  | _ => None
  end.

(** every character of the text is an ASCII character *)
Fixpoint is_ascii (s : string) : bool :=
  match s with
  | EmptyString => true
  | String c s' => (nat_of_ascii c <? 128)%nat && is_ascii s'
  end.




(** * Properties *)

(** ** Strings *)

Lemma append_nil_r (s : string) : s ++ "" = s.
Proof. induction s as [|c s IH]; simpl; [reflexivity | now rewrite IH]. Qed.

Lemma append_assoc (a b c : string) : (a ++ b) ++ c = a ++ (b ++ c).
Proof. induction a as [|x a IH]; simpl; [reflexivity | now rewrite IH]. Qed.

Lemma split_not_nil (sep : ascii) (s : string) : split sep s <> [].
Proof.
  destruct s as [|c s]; simpl; [discriminate|].
  destruct (Ascii.eqb c sep); [discriminate|].
  destruct (split sep s); discriminate.
Qed.

Lemma join_cons (sep x : string) (xs : list string) :
  xs <> [] -> join sep (x :: xs) = x ++ sep ++ join sep xs.
Proof. destruct xs; [congruence | reflexivity]. Qed.

(** [sep.join(s.split(sep)) == s] *)
Lemma join_split (sep : ascii) (s : string) :
  join (String sep "") (split sep s) = s.
Proof.
  induction s as [|c s IH]; simpl; [reflexivity|].
  destruct (Ascii.eqb_spec c sep) as [->|Hne].
  - rewrite join_cons by apply split_not_nil. simpl. now rewrite IH.
  - destruct (split sep s) as [|x xs] eqn:E.
    + now apply split_not_nil in E.
    + destruct xs as [|y ys].
      * simpl in *. now rewrite IH.
      * rewrite join_cons by discriminate.
        rewrite join_cons in IH by discriminate.
        change (String c (x ++ String sep "" ++ join (String sep "") (y :: ys))
                = String c s).
        now rewrite IH.
Qed.

(** a segment of a split holds no separator *)
Lemma split_segment (sep : ascii) (s x : string) :
  In x (split sep s) -> split sep x = [x].
Proof.
  revert x. induction s as [|c s IH]; simpl; intros x Hin.
  - destruct Hin as [<-|[]]. reflexivity.
  - destruct (Ascii.eqb_spec c sep) as [->|Hne].
    + destruct Hin as [<-|Hin]; [reflexivity | now apply IH].
    + destruct (split sep s) as [|y ys] eqn:E.
      * now apply split_not_nil in E.
      * destruct Hin as [<-|Hin].
        -- simpl. destruct (Ascii.eqb_spec c sep); [contradiction|].
           rewrite (IH y) by now left. reflexivity.
        -- apply IH. now right.
Qed.

Lemma endswith_append (a p : string) : endswith (a ++ p) p = true.
Proof.
  induction a as [|x a IH]; simpl.
  - destruct p as [|c p]; [reflexivity|].
    change (String.eqb (String c p) (String c p) || endswith p (String c p)
            = true).
    now rewrite String.eqb_refl.
  - rewrite IH. apply orb_true_r.
Qed.

Lemma endswith_suffix (a b p : string) :
  endswith b p = true -> endswith (a ++ b) p = true.
Proof.
  intros H. induction a as [|x a IH]; simpl; [assumption|].
  rewrite IH. apply orb_true_r.
Qed.

Lemma split1_substring (p : string) :
  is_substring "." p = true -> split1 "." p <> None.
Proof.
  induction p as [|c p IH]; [discriminate|].
  change (is_substring "." (String c p))
    with (Ascii.eqb "." c && true || is_substring "." p).
  change (split1 "." (String c p))
    with (if Ascii.eqb c "." then Some (EmptyString, p)
          else match split1 "." p with
               | Some (k, r) => Some (String c k, r)
               | None => None
               end).
  rewrite (Ascii.eqb_sym "." c).
  destruct (Ascii.eqb c "."); [discriminate|].
  intros H. specialize (IH H).
  destruct (split1 "." p) as [[k r]|]; [discriminate | contradiction].
Qed.

Lemma split1_shorter (sep : ascii) (p key rest : string) :
  split1 sep p = Some (key, rest) -> (String.length rest < String.length p)%nat.
Proof.
  revert key. induction p as [|c p IH]; simpl; intros key; [discriminate|].
  destruct (Ascii.eqb c sep).
  - intros [= <- <-]. lia.
  - destruct (split1 sep p) as [[k r]|]; [|discriminate].
    intros [= <- <-]. specialize (IH k eq_refl). lia.
Qed.

(** ** Dictionaries *)

Lemma dict_get_set_same (k : string) (v : value) (m : dict) :
  dict_get k (dict_set k v m) = Some v.
Proof.
  induction m as [|[k' v'] m IH]; simpl.
  - now rewrite String.eqb_refl.
  - destruct (String.eqb k k') eqn:E; simpl; now rewrite E.
Qed.

Lemma dict_get_set_other (k k' : string) (v : value) (m : dict) :
  k' <> k -> dict_get k' (dict_set k v m) = dict_get k' m.
Proof.
  intros Hne. induction m as [|[k0 v0] m IH]; simpl.
  - now apply String.eqb_neq in Hne as ->.
  - destruct (String.eqb_spec k k0) as [->|Hk]; simpl.
    + now apply String.eqb_neq in Hne as ->.
    + now rewrite IH.
Qed.



Lemma dict_set_same (k : string) (v : value) (m : dict) :
  dict_get k m = Some v -> dict_set k v m = m.
Proof.
  induction m as [|[k0 v0] m IH]; simpl; [discriminate|].
  destruct (String.eqb_spec k k0) as [->|Hk].
  - now intros [= ->].
  - intros H. now rewrite IH.
Qed.



(** ** Regular expressions: the derivative decides the language *)

Lemma matches_nil_nullable (r : regex) :
  matches r "" <-> nullable r = true.
Proof.
  split.
  - intros H. remember EmptyString as s eqn:Es.
    induction H as [|p c Hp|r1 r2 a b H1 IH1 H2 IH2|r1 r2 a H IH
                    |r1 r2 a H IH|r1|r1 a b H1 IH1 H2 IH2]; simpl;
      try reflexivity; try discriminate.
    + destruct a; [|discriminate]. simpl in Es. subst b.
      now rewrite IH1, IH2.
    + now rewrite IH.
    + rewrite IH by assumption. apply orb_true_r.
  - induction r as [| |p|r1 IH1 r2 IH2|r1 IH1 r2 IH2|r1 IH]; simpl;
      try discriminate; intros H.
    + constructor.
    + apply andb_true_iff in H as [H1 H2].
      change EmptyString with (EmptyString ++ EmptyString).
      constructor; auto.
    + apply orb_true_iff in H as [H|H];
        [apply MAltL | apply MAltR]; auto.
    + constructor.
Qed.

Lemma matches_star_cons (r : regex) (c : ascii) (s : string) :
  matches (Star r) (String c s) ->
  exists a b, s = a ++ b /\ matches r (String c a) /\ matches (Star r) b.
Proof.
  intros H. remember (Star r) as r' eqn:Er.
  remember (String c s) as s' eqn:Es. revert s Es.
  induction H as [|p c0 Hp|r1 r2 a b H1 IH1 H2 IH2|r1 r2 a H IH
                  |r1 r2 a H IH|r1|r1 a b H1 IH1 H2 IH2];
    intros s0 Es; try discriminate.
  injection Er as ->.
  destruct a as [|c1 a].
  - simpl in Es. now apply IH2.
  - simpl in Es. injection Es as -> <-. now exists a, b.
Qed.

Lemma matches_deriv (r : regex) :
  forall c s, matches (deriv c r) s <-> matches r (String c s).
Proof.
  induction r as [| |p|r1 IH1 r2 IH2|r1 IH1 r2 IH2|r1 IH]; intros c s;
    simpl.
  - split; intros H; inversion H.
  - split; intros H; inversion H.
  - destruct (p c) eqn:Hp; split; intros H.
    + inversion H; subst. now constructor.
    + inversion H; subst. constructor.
    + inversion H.
    + inversion H; subst. congruence.
  - assert (Hcat : matches (Cat (deriv c r1) r2) s ->
                   matches (Cat r1 r2) (String c s)).
    { intros H. inversion H as [| |? ? a b Ha Hb| | | |]; subst.
      apply IH1 in Ha.
      change (String c (a ++ b)) with (String c a ++ b). now constructor. }
    split.
    + destruct (nullable r1) eqn:Hn; [|exact Hcat].
      intros H. inversion H as [| | |? ? ? Ha|? ? ? Hb| |]; subst.
      * now apply Hcat.
      * apply IH2 in Hb. apply matches_nil_nullable in Hn.
        change (String c s) with (EmptyString ++ String c s).
        now constructor.
    + intros H. remember (String c s) as s' eqn:Es.
      inversion H as [| |? ? a b Ha Hb Ea| | | |]; subst.
      destruct a as [|c1 a].
      * simpl in H1. subst b.
        apply matches_nil_nullable in Ha. rewrite Ha.
        apply MAltR. now apply IH2.
      * simpl in H1. injection H1 as -> <-.
        assert (Hc : matches (Cat (deriv c r1) r2) (a ++ b))
          by (constructor; [now apply IH1 | assumption]).
        destruct (nullable r1); [now apply MAltL | exact Hc].
  - split; intros H.
    + inversion H; subst; [apply MAltL; now apply IH1
                          |apply MAltR; now apply IH2].
    + inversion H; subst; [apply MAltL; now apply IH1
                          |apply MAltR; now apply IH2].
  - split; intros H.
    + inversion H as [| |? ? a b Ha Hb| | | |]; subst.
      apply IH in Ha.
      change (String c (a ++ b)) with (String c a ++ b). now constructor.
    + apply matches_star_cons in H as (a & b & -> & Ha & Hb).
      constructor; [now apply IH | assumption].
Qed.

(** [fullmatch] decides whether the whole string is in the language of
    the pattern *)
Lemma fullmatch_matches (s : string) :
  forall r, fullmatch r s = true <-> matches r s.
Proof.
  induction s as [|c s IH]; intros r; simpl.
  - symmetry. apply matches_nil_nullable.
  - rewrite IH. apply matches_deriv.
Qed.

(** ** Image references: C9 and C2 *)

Lemma split_registry_two (replace s0 s1 : string) :
  split "/" replace = [s0; s1] ->
  split_registry replace
  = if fullmatch domain s0 then (s0, s1) else (EmptyString, replace).
Proof. intros H. unfold split_registry. now rewrite H. Qed.

(** C9: for an image text of exactly two segments [s0] and [s1],
    [parse_ref] takes [s0] as the registry and [s1] as the rest exactly when
    [s0] as a whole matches the domain pattern
    [(localhost|label([.]label)+)(:[0-9]+)?], a label being one
    alphanumeric character or two with alphanumeric characters and hyphens
    between them; otherwise the registry is empty and the whole text is
    the rest.  The tag is then split off the rest.  ["img"],
    ["localhost/img:tag"] and ["ns/img"] parse as the specification lists
    them. *)
Theorem parse_ref_two_segments (replace s0 s1 : string) :
  split "/" replace = [s0; s1] ->
  (matches domain s0 <-> split_registry replace = (s0, s1))
  /\ (~ matches domain s0
      <-> split_registry replace = (EmptyString, replace))
  /\ parse_ref replace
     = (if fullmatch domain s0 then split_tag s0 s1
        else split_tag EmptyString replace)
  /\ parse_ref "img" = ("", "img", "")
  /\ parse_ref "localhost/img:tag" = ("localhost", "img", "tag")
  /\ parse_ref "ns/img" = ("", "ns/img", "").
Proof.
  intros H.
  assert (Hs1 : split "/" s1 = [s1]).
  { apply (split_segment "/" replace). rewrite H. simpl. auto. }
  assert (Hne : s1 <> replace).
  { intros ->. rewrite H in Hs1. discriminate. }
  pose proof (split_registry_two _ _ _ H) as E.
  pose proof (fullmatch_matches s0 domain) as M.
  unfold parse_ref. rewrite E.
  destruct (fullmatch domain s0).
  - assert (Hm : matches domain s0) by now apply M.
    repeat split; try reflexivity; try congruence; try contradiction.
  - assert (Hm : ~ matches domain s0).
    { intros Hm. apply M in Hm. discriminate. }
    repeat split; try reflexivity; try congruence; try contradiction.
Qed.

Lemma parse_ref_two_segments_witness :
  split "/" "localhost:5000/img" = ["localhost:5000"; "img"]
  /\ parse_ref "localhost:5000/img" = ("localhost:5000", "img", "").
Proof.
  split; [reflexivity|].
  destruct (parse_ref_two_segments "localhost:5000/img" "localhost:5000" "img"
              eq_refl) as (_ & _ & E & _).
  rewrite E. reflexivity.
Defined.

Lemma format_split_tag (reg im : string) :
  endswith im ":" = false ->
  format_ref (split_tag reg im)
  = (if String.eqb reg "" then im else reg ++ "/" ++ im).
Proof.
  intros Hend. pose proof (join_split ":" im) as J.
  unfold split_tag.
  destruct (split ":" im) as [|a [|b [|c [|d l]]]] eqn:E.
  - simpl. now rewrite append_nil_r.
  - simpl. now rewrite append_nil_r.
  - assert (J1 : a ++ ":" ++ b = im) by exact J.
    unfold format_ref.
    destruct (String.eqb_spec b "") as [->|Hb].
    + assert (J2 : a ++ ":" = im) by exact J1.
      rewrite <- J2, endswith_append in Hend. discriminate.
    + rewrite <- J1. destruct (String.eqb reg "");
        rewrite ?append_assoc; reflexivity.
  - assert (J1 : (a ++ ":" ++ b) ++ ":" ++ c = im).
    { rewrite <- J, append_assoc. reflexivity. }
    unfold format_ref.
    change (join ":" [a; b]) with (a ++ ":" ++ b).
    destruct (String.eqb_spec c "") as [->|Hc].
    + assert (J2 : (a ++ ":" ++ b) ++ ":" = im) by exact J1.
      rewrite <- J2, endswith_append in Hend. discriminate.
    + rewrite <- J1. destruct (String.eqb reg "");
        rewrite ?append_assoc; reflexivity.
  - simpl. now rewrite append_nil_r.
Qed.

Lemma format_parse_ref_text (s : string) :
  well_formed_ref s -> format_ref (parse_ref s) = s.
Proof.
  intros [Hstart Hend].
  pose proof (join_split "/" s) as J.
  unfold parse_ref, split_registry.
  destruct (split "/" s) as [|s0 [|s1 [|s2 l]]] eqn:E.
  - now apply split_not_nil in E.
  - rewrite format_split_tag by assumption. reflexivity.
  - simpl in J. destruct (fullmatch domain s0) eqn:M.
    + assert (Hs1 : endswith s1 ":" = false).
      { destruct (endswith s1 ":") eqn:E1; [|reflexivity].
        rewrite <- J in Hend.
        rewrite (endswith_suffix s0 ("/" ++ s1)) in Hend; [discriminate|].
        now apply (endswith_suffix "/"). }
      rewrite format_split_tag by assumption.
      destruct (String.eqb_spec s0 "") as [->|_]; [discriminate M | exact J].
    + rewrite format_split_tag by assumption. reflexivity.
  - set (rest := s1 :: s2 :: l) in *.
    assert (J' : s0 ++ "/" ++ join "/" rest = s).
    { rewrite <- J. unfold rest. reflexivity. }
    simpl hd. simpl tl. fold rest.
    assert (Him : endswith (join "/" rest) ":" = false).
    { destruct (endswith (join "/" rest) ":") eqn:E1; [|reflexivity].
      rewrite <- J' in Hend.
      rewrite (endswith_suffix s0 ("/" ++ join "/" rest)) in Hend;
        [discriminate|].
      now apply (endswith_suffix "/"). }
    rewrite format_split_tag by assumption.
    destruct (String.eqb_spec s0 "") as [->|_]; [|exact J'].
    rewrite <- J' in Hstart. discriminate Hstart.
Qed.

(** [get_image] composes the three fields as [format] does *)
Lemma get_image_format (py_str : value -> string) (vs : dict)
  (reg im tag : string) :
  dict_get "image" vs = Some (VStr im) ->
  dict_get "registry" vs = Some (VStr reg) ->
  dict_get "tag" vs = Some (VStr tag) ->
  get_image py_str (VMap vs) = Ok (VStr (format_ref (reg, im, tag))).
Proof.
  intros Hi Hr Ht. unfold get_image, getitem, contains, dict_mem.
  rewrite Hi. cbn [bind is_mapping]. rewrite Hr, Ht.
  unfold ne_str, format_ref. cbn [bind eq_str fmt].
  destruct (String.eqb reg ""), (String.eqb tag ""); cbn [negb bind fmt];
    now rewrite ?append_nil_r.
Qed.

(** C2: on every well-formed image text [s] (no leading ["/"], no trailing
    [":"]), formatting what [parse_ref] returns gives [s] back.  So does
    the code: after [set_image] has written [s] into a mapping that has
    the keys [registry] and [tag] beside its [image], [get_image] composes
    [s] from that mapping. *)
Theorem format_parse_ref (s : string) :
  well_formed_ref s ->
  format_ref (parse_ref s) = s
  /\ forall (py_str : value -> string) (vs : dict) (x : value),
       dict_get "image" vs = Some x -> is_mapping x = false ->
       dict_mem "registry" vs = true -> dict_mem "tag" vs = true ->
       exists vs',
         set_image (VMap vs) s = Ok (VMap vs')
         /\ get_image py_str (VMap vs') = Ok (VStr s).
Proof.
  intros Hwf. pose proof (format_parse_ref_text s Hwf) as Hfmt.
  split; [exact Hfmt|].
  intros py_str vs x Hi Hx Hreg Htag.
  destruct (parse_ref s) as [[reg im] tag] eqn:Ep.
  exists (dict_set "tag" (VStr tag)
            (dict_set "image" (VStr im)
               (dict_set "registry" (VStr reg) vs))).
  split.
  - unfold set_image. cbn [getitem]. rewrite Hi. cbn [bind].
    rewrite Hx. cbn [bind]. unfold set_image_fields. rewrite Ep.
    cbn [contains bind]. rewrite Hreg, Htag. reflexivity.
  - rewrite (get_image_format py_str _ reg im tag).
    + now rewrite Hfmt.
    + rewrite dict_get_set_other by discriminate. apply dict_get_set_same.
    + rewrite !dict_get_set_other by discriminate. apply dict_get_set_same.
    + apply dict_get_set_same.
Qed.

Lemma format_parse_ref_witness :
  well_formed_ref "registry.example.com:5000/ns/img:v2"
  /\ format_ref (parse_ref "registry.example.com:5000/ns/img:v2")
     = "registry.example.com:5000/ns/img:v2".
Proof.
  assert (W : well_formed_ref "registry.example.com:5000/ns/img:v2")
    by (split; reflexivity).
  split; [exact W | exact (proj1 (format_parse_ref _ W))].
Defined.

(** ** Annotations: C8 *)





(** ** Writing at a dot-path: C10 and C6 *)

Lemma set_path_keys_cons (d : value) (k : string) (rest : list string)
  (v : string) :
  rest <> [] ->
  set_path_keys d (k :: rest) v
  = (has <- contains k d ;;
     if negb has then Ok (d, false)
     else
       child <- getitem d k ;;
       r <- set_path_keys child rest v ;;
       d' <- setitem d k (fst r) ;;
       Ok (d', snd r)).
Proof. destruct rest; [congruence | reflexivity]. Qed.

Lemma app_last_not_nil {A : Type} (l : list A) (a : A) : (l ++ [a])%list <> [].
Proof. destruct l; discriminate. Qed.

Lemma descend_mapping (d : value) (keys : list string) (m : dict) :
  descend d keys = Some m -> exists m0, d = VMap m0.
Proof.
  destruct keys, d; simpl; try discriminate; intros _; eexists; reflexivity.
Qed.

(** the final key is missing: [KeyError] *)
Lemma set_path_keys_missing_final (d : value) (init : list string)
  (last : string) (m : dict) (v : string) :
  descend d init = Some m -> dict_get last m = None ->
  set_path_keys d (init ++ [last]) v = Raise KeyError.
Proof.
  revert d. induction init as [|k ks IH]; intros d Hd Hlast.
  - destruct d; try discriminate. injection Hd as ->.
    simpl. now rewrite Hlast.
  - destruct d as [| | | | |m0]; try discriminate. simpl in Hd.
    destruct (dict_get k m0) as [c|] eqn:G; [|discriminate].
    change ((k :: ks) ++ [last])%list with (k :: (ks ++ [last]))%list.
    rewrite set_path_keys_cons by apply app_last_not_nil.
    simpl. unfold dict_mem. rewrite G. simpl.
    now rewrite (IH c Hd Hlast).
Qed.



(** when [set_path] returns [False] it has written nothing *)
Lemma set_path_keys_false (keys : list string) (v : string) :
  forall d d', set_path_keys d keys v = Ok (d', false) -> d' = d.
Proof.
  induction keys as [|k rest IH]; intros d d'; [discriminate|].
  destruct rest as [|k1 rest].
  - simpl. destruct (getitem d k) as [cur|]; [|discriminate]. simpl.
    destruct (is_str cur); simpl.
    + destruct (setitem d k (VStr v)); simpl; discriminate.
    + now intros [= <-].
  - rewrite set_path_keys_cons by discriminate.
    destruct d as [| | | | |m0]; cbn -[set_path_keys];
      try (destruct (negb _); [now intros [= <-] | discriminate]);
      try discriminate.
    unfold dict_mem.
    destruct (dict_get k m0) as [c|] eqn:G; cbn -[set_path_keys];
      [|now intros [= <-]].
    destruct (set_path_keys c (k1 :: rest) v) as [[c' b]|] eqn:E;
      cbn -[set_path_keys]; [|discriminate].
    intros [= <- ->]. apply IH in E. subst c'.
    now rewrite (dict_set_same _ _ _ G).
Qed.

Lemma descend_str (s : string) (keys : list string) :
  descend (VStr s) keys = None.
Proof. destruct keys; reflexivity. Qed.

(** a write leaves every mapping of the tree with the keys it had *)
Lemma set_path_keys_descend (keys : list string) (v : string) :
  forall d d' b, set_path_keys d keys v = Ok (d', b) ->
  forall init m, descend d init = Some m ->
  exists m', descend d' init = Some m'
             /\ forall k, dict_mem k m' = dict_mem k m.
Proof.
  induction keys as [|k rest IH]; intros d d' b; [discriminate|].
  intros Hset init m Hd.
  destruct (descend_mapping _ _ _ Hd) as [m0 ->].
  assert (Hmem : forall c c', dict_get k m0 = Some c ->
            forall k', dict_mem k' (dict_set k c' m0) = dict_mem k' m0).
  { intros c c' G k'. unfold dict_mem.
    destruct (String.eqb_spec k' k) as [->|Hne].
    - now rewrite dict_get_set_same, G.
    - now rewrite dict_get_set_other by assumption. }
  destruct rest as [|k1 rest].
  - simpl in Hset.
    destruct (dict_get k m0) as [cur|] eqn:G; [|discriminate].
    simpl in Hset. destruct (is_str cur) eqn:S; simpl in Hset.
    + injection Hset as <- <-.
      destruct init as [|k0 ks]; simpl in *.
      * injection Hd as <-. eexists. split; [reflexivity|]. eauto.
      * destruct (String.eqb_spec k0 k) as [->|Hne].
        -- rewrite G in Hd. destruct cur; try discriminate.
           now rewrite descend_str in Hd.
        -- rewrite dict_get_set_other by assumption.
           exists m. split; [assumption | reflexivity].
    + injection Hset as <- <-. exists m. split; [assumption | reflexivity].
  - rewrite set_path_keys_cons in Hset by discriminate.
    cbn -[set_path_keys] in Hset. unfold dict_mem in Hset.
    destruct (dict_get k m0) as [c|] eqn:G; cbn -[set_path_keys] in Hset.
    2:{ injection Hset as <- <-. exists m. split; [assumption|reflexivity]. }
    destruct (set_path_keys c (k1 :: rest) v) as [[c' b']|] eqn:E;
      cbn -[set_path_keys] in Hset; [|discriminate].
    injection Hset as <- <-.
    destruct init as [|k0 ks]; simpl in *.
    + injection Hd as <-. eexists. split; [reflexivity|]. eauto.
    + destruct (String.eqb_spec k0 k) as [->|Hne].
      * rewrite dict_get_set_same. rewrite G in Hd.
        exact (IH c c' b' E ks m Hd).
      * rewrite dict_get_set_other by assumption.
        exists m. split; [assumption | reflexivity].
Qed.

Lemma set_path_missing (d : value) (path : string) (init : list string)
  (last : string) (m : dict) (v : string) :
  split "." path = (init ++ [last])%list ->
  descend d init = Some m -> dict_get last m = None ->
  set_path d (VStr path) v = Raise KeyError.
Proof.
  intros Hs Hd Hl. unfold set_path. simpl. rewrite Hs.
  now apply (set_path_keys_missing_final d init last m).
Qed.

Lemma set_path_keeps_missing (d p : value) (v : string)
  (r : value * bool) (init : list string) (last : string) (m : dict) :
  set_path d p v = Ok r ->
  descend d init = Some m -> dict_get last m = None ->
  exists m', descend (fst r) init = Some m' /\ dict_get last m' = None.
Proof.
  unfold set_path. destruct p; try discriminate. simpl.
  destruct r as [d' b]. intros Hset Hd Hl.
  destruct (set_path_keys_descend _ _ _ _ _ Hset _ _ Hd) as (m' & Hd' & Hk).
  exists m'. split; [assumption|].
  specialize (Hk last). unfold dict_mem in Hk. rewrite Hl in Hk.
  destruct (dict_get last m'); [discriminate | reflexivity].
Qed.

Lemma getitem_mem (fields : dict) (k : string) :
  dict_mem k fields = true -> exists p, getitem (VMap fields) k = Ok p.
Proof.
  unfold dict_mem, getitem. simpl.
  destruct (dict_get k fields); [eauto | discriminate].
Qed.

(** a mapping whose repository path ends in a missing key: the write-back
    raises *)
Lemma set_image_for_mapping_raises (values : value) (fields : dict)
  (replace path : string) (init : list string) (last : string) (m : dict) :
  dict_get "repository" fields = Some (VStr path) ->
  split "." path = (init ++ [last])%list ->
  descend values init = Some m -> dict_get last m = None ->
  exists e, set_image_for_mapping values (VMap fields) replace = Raise e
            /\ (dict_mem "registry" fields = false -> e = KeyError).
Proof.
  intros Hrepo Hs Hd Hl. unfold set_image_for_mapping.
  destruct (parse_ref replace) as [[reg im] tag].
  assert (Hgr : getitem (VMap fields) "repository" = Ok (VStr path)).
  { unfold getitem. now rewrite Hrepo. }
  simpl contains. cbn [bind].
  destruct (dict_mem "registry" fields) eqn:Hreg.
  - destruct (getitem_mem _ _ Hreg) as [p Hp].
    assert (Hfirst : forall X (k : value * bool -> res X),
              (forall r, set_path values p reg = Ok r ->
                         exists e, k r = Raise e) ->
              exists e, (r <- set_path values p reg ;; k r) = Raise e).
    { intros X k Hk. destruct (set_path values p reg) as [r|e] eqn:E.
      - simpl. now apply Hk.
      - simpl. eauto. }
    destruct (dict_mem "tag" fields); cbn [andb]; rewrite Hp; cbn [bind].
    + destruct (Hfirst _ (fun r =>
          p0 <- getitem (VMap fields) "repository" ;;
          r0 <- set_path (fst r) p0 im ;;
          p1 <- getitem (VMap fields) "tag" ;;
          r1 <- set_path (fst r0) p1 tag ;; Ok (fst r1))) as [e He].
      { intros r Hr.
        destruct (set_path_keeps_missing _ _ _ _ _ _ _ Hr Hd Hl)
          as (m' & Hd' & Hl').
        rewrite Hgr. cbn [bind].
        rewrite (set_path_missing _ _ _ _ _ im Hs Hd' Hl'). simpl. eauto. }
      exists e. split; [exact He | discriminate].
    + destruct (Hfirst _ (fun r =>
          p0 <- getitem (VMap fields) "repository" ;;
          r0 <- set_path (fst r) p0 (im ++ ":" ++ tag) ;; Ok (fst r0)))
        as [e He].
      { intros r Hr.
        destruct (set_path_keeps_missing _ _ _ _ _ _ _ Hr Hd Hl)
          as (m' & Hd' & Hl').
        rewrite Hgr. cbn [bind].
        rewrite (set_path_missing _ _ _ _ _ (im ++ ":" ++ tag) Hs Hd' Hl').
        simpl. eauto. }
      exists e. split; [exact He | discriminate].
  - exists KeyError. split; [|reflexivity].
    destruct (dict_mem "tag" fields); cbn [andb]; rewrite Hgr; cbn [bind];
      now rewrite (set_path_missing _ _ _ _ _ _ Hs Hd Hl).
Qed.

Lemma set_annotated_first (values : value) (mappings : dict) (k : string)
  (v : value) (replace : string) :
  dict_get k mappings = Some v -> contains "repository" v = Ok true ->
  set_annotated values mappings (VStr k) replace
  = (values' <- set_image_for_mapping values v replace ;; Ok (Some values')).
Proof.
  intros Hget Hrepo. induction mappings as [|[k0 v0] rest IH];
    [discriminate|].
  simpl in *. destruct (String.eqb k k0).
  - injection Hget as ->. rewrite Hrepo. reflexivity.
  - now apply IH.
Qed.

(** the write-back of a container that an annotated mapping names: the
    mapping's paths are written and the function returns; the nested
    mappings of [values] are not tried *)
Lemma set_fluxhelmrelease_container_annotated (manifest container : value)
  (replace : string) (values : value) (k : string) (mappings : dict)
  (v : value) :
  getitems manifest ["spec"; "values"] = Ok values ->
  getitem container "name" = Ok (VStr k) ->
  (k <> FHR_CONTAINER \/ contains "image" values = Ok false) ->
  container_mappings_from_annotations manifest = Ok mappings ->
  dict_get k mappings = Some v ->
  contains "repository" v = Ok true ->
  set_fluxhelmrelease_container manifest container replace
  = (values' <- set_image_for_mapping values v replace ;;
     setitems manifest ["spec"; "values"] values').
Proof.
  intros Hv Hn Htop Hm Hget Hrepo. unfold set_fluxhelmrelease_container.
  rewrite Hv, Hn. cbn [bind].
  assert (Etop : (if eq_str (VStr k) FHR_CONTAINER
                  then contains "image" values else Ok false) = Ok false).
  { simpl eq_str. destruct (String.eqb_spec k FHR_CONTAINER) as [E|_];
      [|reflexivity].
    destruct Htop as [Hne|Hc]; [contradiction | exact Hc]. }
  rewrite Etop. cbn [bind]. rewrite Hm. cbn [bind].
  rewrite (set_annotated_first _ _ _ _ _ Hget Hrepo).
  destruct (set_image_for_mapping values v replace); reflexivity.
Qed.

(** ** The loop over the stream *)

Lemma edit_stream_found (edit : value -> res (option value))
  (docs : list value) :
  edit_stream edit true docs = (docs, None).
Proof.
  induction docs as [|d docs IH]; simpl; [reflexivity|]. now rewrite IH.
Qed.

Lemma edit_stream_raise (edit : value -> res (option value))
  (pre : list value) (doc : value) (post : list value) (e : exn) :
  Forall (fun d => edit d = Ok None) pre -> edit doc = Raise e ->
  edit_stream edit false (pre ++ doc :: post)%list = (pre, Some e).
Proof.
  intros Hpre Hdoc. induction Hpre as [|d pre Hd _ IH]; simpl.
  - now rewrite Hdoc.
  - now rewrite Hd, IH.
Qed.

Lemma edit_stream_edit (edit : value -> res (option value))
  (pre : list value) (doc doc' : value) (post : list value) :
  Forall (fun d => edit d = Ok None) pre -> edit doc = Ok (Some doc') ->
  edit_stream edit false (pre ++ doc :: post)%list
  = ((pre ++ doc' :: post)%list, None).
Proof.
  intros Hpre Hdoc. induction Hpre as [|d pre Hd _ IH]; simpl.
  - now rewrite Hdoc, edit_stream_found.
  - now rewrite Hd, IH.
Qed.

Lemma edit_stream_none (edit : value -> res (option value))
  (docs : list value) :
  Forall (fun d => edit d = Ok None) docs ->
  edit_stream edit false docs = (docs, Some NotFound).
Proof.
  intros H. induction H as [|d docs Hd _ IH]; simpl; [reflexivity|].
  now rewrite Hd, IH.
Qed.

Lemma setitems_same (keys : list string) :
  forall d v, getitems d keys = Ok v -> setitems d keys v = Ok d.
Proof.
  induction keys as [|k ks IH]; intros d v; simpl.
  - now intros [= ->].
  - destruct d as [| | | | |m]; try discriminate. simpl.
    destruct (dict_get k m) as [c|] eqn:G; [|discriminate]. simpl.
    intros H. rewrite (IH c v H). simpl.
    now rewrite (dict_set_same _ _ _ G).
Qed.


Lemma update_image_raise (py_str : value -> string) (args : Args)
  (doc m : value) (ms rest : list value) (c : nat * value) (e : exn) :
  manifests doc = Ok (m :: ms) ->
  find_container py_str args m = Ok (Some c) ->
  set_container_image m c (args_image args) = Raise e ->
  update_image py_str args (doc :: rest) = ([], Some e).
Proof.
  intros Hms Hfind Hset. unfold update_image.
  apply (edit_stream_raise _ [] doc rest e); [constructor|].
  unfold update_doc. rewrite Hms. cbn [bind update_manifests].
  rewrite Hfind. cbn [bind]. now rewrite Hset.
Qed.

(** C10: when every key of a dot-path but the last leads through a
    mapping and the last key is not in the mapping reached, [set_path]
    raises [KeyError]; it does not return [False].  A write-back through an
    annotated mapping whose repository path is such a path therefore
    raises, and [update_image] ends with that exception at the document
    of the manifest, which is not yielded.  The exception is the
    [KeyError] when the mapping has no registry path to write before. *)
Theorem set_path_missing_final_key :
  (forall (d : value) (path : string) (init : list string) (last : string)
          (m : dict) (v : string),
      split "." path = (init ++ [last])%list ->
      descend d init = Some m -> dict_get last m = None ->
      set_path d (VStr path) v = Raise KeyError)
  /\ (forall (py_str : value -> string) (args : Args) (doc m : value)
             (ms rest : list value) (c : nat * value) (values : value)
             (k : string) (mappings fields : dict) (path : string)
             (init : list string) (last : string) (mlast : dict),
      manifests doc = Ok (m :: ms) ->
      find_container py_str args m = Ok (Some c) ->
      is_helm_kind m = Ok true ->
      getitems m ["spec"; "values"] = Ok values ->
      getitem (snd c) "name" = Ok (VStr k) ->
      (k <> FHR_CONTAINER \/ contains "image" values = Ok false) ->
      container_mappings_from_annotations m = Ok mappings ->
      dict_get k mappings = Some (VMap fields) ->
      dict_get "repository" fields = Some (VStr path) ->
      split "." path = (init ++ [last])%list ->
      descend values init = Some mlast -> dict_get last mlast = None ->
      exists e,
        set_image_for_mapping values (VMap fields) (args_image args)
        = Raise e
        /\ set_container_image m c (args_image args) = Raise e
        /\ update_image py_str args (doc :: rest) = ([], Some e)
        /\ (dict_mem "registry" fields = false -> e = KeyError)).
Proof.
  split.
  - intros. eapply set_path_missing; eassumption.
  - intros py_str args doc m ms rest c values k mappings fields path init
      last mlast Hms Hfind Hhelm Hv Hn Htop Hmap Hget Hrepo Hs Hd Hl.
    destruct (set_image_for_mapping_raises values fields (args_image args)
                path init last mlast Hrepo Hs Hd Hl) as (e & He & Hk).
    assert (Hset : set_container_image m c (args_image args) = Raise e).
    { unfold set_container_image. rewrite Hhelm. cbn [bind].
      rewrite (set_fluxhelmrelease_container_annotated m (snd c)
                 (args_image args) values k mappings (VMap fields)
                 Hv Hn Htop Hmap Hget).
      - now rewrite He.
      - simpl. unfold dict_mem. now rewrite Hrepo. }
    exists e. repeat split; try assumption.
    eapply update_image_raise; eassumption.
Qed.

Lemma set_path_missing_final_key_witness :
  set_path ex_values_web (VStr "web.img") "z" = Raise KeyError
  /\ update_image py_str_example ex_args_web
       [ex_release ex_annotations_missing ex_values_web]
     = ([], Some KeyError).
Proof.
  destruct set_path_missing_final_key as [Ha Hb]. split.
  - apply (Ha ex_values_web "web.img" ["web"] "img"
              [("image", VStr "x"); ("version", VStr "y")]); reflexivity.
  - assert (Htop : "web" <> FHR_CONTAINER
                   \/ contains "image" ex_values_web = Ok false)
      by (left; discriminate).
    destruct (Hb py_str_example ex_args_web
                (ex_release ex_annotations_missing ex_values_web)
                (ex_release ex_annotations_missing ex_values_web)
                [] [] (0%nat, container_entry (VStr "web") (VStr "x"))
                ex_values_web "web"
                [("web", VMap [("repository", VStr "web.img")])]
                [("repository", VStr "web.img")] "web.img" ["web"] "img"
                [("image", VStr "x"); ("version", VStr "y")]
                eq_refl eq_refl eq_refl eq_refl eq_refl Htop
                eq_refl eq_refl eq_refl eq_refl eq_refl eq_refl)
      as (e & _ & _ & Hu & Hk).
    rewrite Hu, (Hk eq_refl). reflexivity.
Defined.

(** ** Matching and the pod specification: C7 *)

Lemma getitems_app_raise (p1 p2 : list string) (e : exn) :
  forall d, getitems d p1 = Raise e -> getitems d (p1 ++ p2)%list = Raise e.
Proof.
  induction p1 as [|k p1 IH]; intros d; simpl; [discriminate|].
  destruct (getitem d k) as [c|e']; simpl; [apply IH | trivial].
Qed.

Lemma podspec_path_last (m : value) (path : list string) :
  podspec_path m = Ok path -> path = (removelast path ++ ["spec"])%list.
Proof.
  unfold podspec_path. destruct (getitem m "kind") as [k|]; [|discriminate].
  simpl. destruct (eq_str k "CronJob"); intros [= <-]; reflexivity.
Qed.

(** C7, as the code has it: [match_manifest] never lets a [KeyError] out,
    and a mapping without [kind], without [metadata] or without a name
    does not match.  A manifest that matched, whose kind is not a Helm
    release and whose pod template ([spec.template], or
    [spec.jobTemplate.spec.template] for a CronJob) is missing, makes
    [find_container] raise [KeyError]; [update_image] ends with that
    [KeyError], not with [NotFound]. *)
Theorem match_manifest_false_podspec_raises :
  (forall spec m, match_manifest spec m <> Raise KeyError)
  /\ (forall spec mm,
        dict_get "kind" mm = None -> match_manifest spec (VMap mm) = Ok false)
  /\ (forall spec mm k,
        dict_get "kind" mm = Some (VStr k) ->
        dict_get "metadata" mm = None ->
        match_manifest spec (VMap mm) = Ok false)
  /\ (forall spec mm k md,
        dict_get "kind" mm = Some (VStr k) ->
        dict_get "metadata" mm = Some (VMap md) ->
        dict_get "name" md = None ->
        match_manifest spec (VMap mm) = Ok false)
  /\ (forall (py_str : value -> string) (args : Args) (doc m : value)
             (ms rest : list value),
        manifests doc = Ok (m :: ms) ->
        match_manifest args m = Ok true ->
        is_helm_kind m = Ok false ->
        (forall path, podspec_path m = Ok path ->
                      getitems m (removelast path) = Raise KeyError) ->
        find_container py_str args m = Raise KeyError
        /\ update_image py_str args (doc :: rest) = ([], Some KeyError)).
Proof.
  split; [|split; [|split; [|split]]].
  - intros spec m. unfold match_manifest, except_KeyError.
    match goal with |- match ?c with _ => _ end <> _ =>
      destruct c as [b|[]] end; discriminate.
  - intros spec mm Hk. unfold match_manifest. simpl. now rewrite Hk.
  - intros spec mm k Hk Hmd. unfold match_manifest. simpl. rewrite Hk, Hmd.
    simpl. destruct (negb _); reflexivity.
  - intros spec mm k md Hk Hmd Hn. unfold match_manifest. simpl.
    rewrite Hk, Hmd. simpl. destruct (negb _); [reflexivity|].
    destruct (dict_get "namespace" md); simpl;
      destruct (ne_str _ _); try reflexivity; now rewrite Hn.
  - intros py_str args doc m ms rest Hms Hmatch Hhelm Hlack.
    assert (Hfind : find_container py_str args m = Raise KeyError).
    { unfold find_container. rewrite Hmatch. cbn [bind negb].
      unfold containers. rewrite Hhelm. cbn [bind].
      unfold podspec. destruct (podspec_path m) as [path|e] eqn:Hp.
      - cbn [bind]. rewrite (podspec_path_last _ _ Hp).
        now rewrite (getitems_app_raise _ _ _ _ (Hlack path eq_refl)).
      - unfold podspec_path, is_helm_kind in *.
        destruct (getitem m "kind"); simpl in *; [|discriminate].
        destruct (eq_str a "CronJob"); discriminate. }
    split; [exact Hfind|].
    unfold update_image.
    apply (edit_stream_raise _ [] doc rest KeyError); [constructor|].
    unfold update_doc. rewrite Hms. cbn [bind update_manifests].
    now rewrite Hfind.
Qed.

Lemma match_manifest_false_podspec_raises_witness :
  match_manifest ex_args_image (VMap [("kind", VStr "Deployment")])
  = Ok false
  /\ update_image py_str_example ex_args_image [ex_no_template]
     = ([], Some KeyError).
Proof.
  destruct match_manifest_false_podspec_raises as (_ & _ & Hb & _ & He).
  split.
  - exact (Hb ex_args_image [("kind", VStr "Deployment")] "Deployment"
              eq_refl eq_refl).
  - refine (proj2 (He py_str_example ex_args_image ex_no_template
                     ex_no_template [] [] eq_refl eq_refl eq_refl _)).
    intros path H. injection H as <-. reflexivity.
Defined.

(** C7 as stated fails: a Deployment that matches and has no
    [spec.template] ends the run with [KeyError]; the outcome is not
    [NotFound]. *)
Lemma missing_template_counterexample :
  match_manifest ex_args_image ex_no_template = Ok true
  /\ snd (update_image py_str_example ex_args_image [ex_no_template])
     = Some KeyError
  /\ snd (update_image py_str_example ex_args_image [ex_no_template])
     <> Some NotFound.
Proof. repeat split; try reflexivity. discriminate. Qed.

(** ** The image of a chart: C4 *)




(** ** Dot-paths: the fuel of [get_path] is enough *)

Lemma get_path_fuel_irrelevant (fuel1 : nat) :
  forall fuel2 d path,
  (path_length path < fuel1)%nat -> (path_length path < fuel2)%nat ->
  get_path_fuel fuel1 d path = get_path_fuel fuel2 d path.
Proof.
  induction fuel1 as [|fuel1 IH]; intros fuel2 d path H1 H2; [lia|].
  destruct fuel2 as [|fuel2]; [lia|].
  cbn [get_path_fuel].
  destruct path as [p| | | | |]; try reflexivity.
  cbn [contains bind str_method].
  destruct (is_substring "." p); [|reflexivity]. cbn [bind].
  destruct (split1 "." p) as [[key rest]|] eqn:Es; [|reflexivity].
  destruct (getitem d key) as [d'|]; [|reflexivity]. cbn [bind].
  pose proof (split1_shorter _ _ _ _ Es) as Hs. simpl in H1, H2.
  now rewrite (IH fuel2 d' (VStr rest)) by (simpl; lia).
Qed.

(** more fuel than the path is long changes nothing: [get_path] never
    stops for want of fuel *)
Lemma get_path_fuel_enough (fuel : nat) (d path : value) :
  (path_length path < fuel)%nat ->
  get_path_fuel fuel d path = get_path d path.
Proof.
  intros H. unfold get_path. apply get_path_fuel_irrelevant; [assumption|lia].
Qed.

(** ** Containers from annotated mappings: C5 *)

Lemma dict_get_not_in (k : string) (m : dict) :
  ~ In k (dict_keys m) -> dict_get k m = None.
Proof.
  induction m as [|[k0 v0] m IH]; simpl; [reflexivity|].
  intros H. destruct (String.eqb_spec k k0) as [->|Hne].
  - exfalso. apply H. now left.
  - apply IH. intros Hin. apply H. now right.
Qed.

Lemma dict_set_keys_in (k k' : string) (v : value) (m : dict) :
  In k' (dict_keys (dict_set k v m)) -> k' = k \/ In k' (dict_keys m).
Proof.
  induction m as [|[k0 v0] m IH]; simpl.
  - intros [<-|[]]. now left.
  - destruct (String.eqb_spec k k0) as [->|Hne]; simpl.
    + intros [<-|H]; right; [now left | now right].
    + intros [<-|H]; [right; now left|].
      destruct (IH H) as [->|H']; [now left | right; now right].
Qed.

Lemma dict_set_nodup (k : string) (v : value) (m : dict) :
  NoDup (dict_keys m) -> NoDup (dict_keys (dict_set k v m)).
Proof.
  induction m as [|[k0 v0] m IH]; simpl; intros H.
  - constructor; [intros [] | constructor].
  - inversion H as [|? ? Hnin Hnd]; subst.
    destruct (String.eqb_spec k k0) as [->|Hne]; simpl.
    + now constructor.
    + constructor; [|now apply IH].
      intros Hin. apply dict_set_keys_in in Hin as [->|Hin]; congruence.
Qed.

Lemma collect_mappings_nodup (annotations mappings : dict) :
  NoDup (dict_keys mappings) ->
  NoDup (dict_keys (collect_mappings annotations mappings)).
Proof.
  revert mappings. induction annotations as [|[k v] rest IH];
    intros mappings H; cbn [collect_mappings]; [assumption|].
  assert (H1 : NoDup (dict_keys
            (if startswith k REGISTRY_ANNOTATION
             then update_field mappings
                    (drop (String.length REGISTRY_ANNOTATION) k) "registry" v
             else mappings))).
  { destruct (startswith k REGISTRY_ANNOTATION); [|assumption].
    now apply dict_set_nodup. }
  destruct (startswith k REPOSITORY_ANNOTATION).
  - apply IH. now apply dict_set_nodup.
  - destruct (startswith k TAG_ANNOTATION).
    + apply IH. now apply dict_set_nodup.
    + now apply IH.
Qed.

Lemma container_mappings_nodup (manifest : value) (mappings : dict) :
  container_mappings_from_annotations manifest = Ok mappings ->
  NoDup (dict_keys mappings).
Proof.
  unfold container_mappings_from_annotations.
  destruct (getitem manifest "metadata") as [md|[]]; simpl;
    try discriminate; try (intros [= <-]; constructor).
  destruct (getitem md "annotations") as [a|[]]; simpl;
    try discriminate; try (intros [= <-]; constructor).
  destruct a; simpl; try discriminate.
  intros [= <-]. apply collect_mappings_nodup. constructor.
Qed.

Lemma append_empty (a b : string) : a ++ b = "" -> a = "".
Proof. destruct a; [reflexivity | discriminate]. Qed.

Lemma get_image_for_mapping_cases (values : value) (fields : dict)
  (p : value) (r : string) :
  dict_get "repository" fields = Some p ->
  get_path values p = Ok (Some (VStr r)) -> r <> "" ->
  get_image_for_mapping values (VMap fields)
  = match dict_get "tag" fields with
    | None => Ok (Some r)
    | Some q =>
        tag <- get_path values q ;;
        match tag with
        | Some (VStr t) =>
            if String.eqb t "" then Ok None else Ok (Some (r ++ ":" ++ t))
        | _ => Ok None
        end
    end.
Proof.
  intros Hrepo Hp Hr. unfold get_image_for_mapping.
  cbn [contains getitem]. unfold dict_mem. rewrite Hrepo. cbn [bind negb].
  rewrite Hp. cbn [bind].
  apply String.eqb_neq in Hr as ->.
  destruct (dict_get "tag" fields); reflexivity.
Qed.

Lemma get_image_for_mapping_image (values v : value) (i : string) :
  get_image_for_mapping values v = Ok (Some i) ->
  i <> "" /\ contains "repository" v = Ok true.
Proof.
  unfold get_image_for_mapping.
  destruct (contains "repository" v) as [[|]|]; simpl; try discriminate.
  destruct (getitem v "repository") as [p|]; simpl; [|discriminate].
  destruct (get_path values p) as [[[r| | | | |]|]|]; simpl;
    try discriminate.
  destruct (String.eqb_spec r "") as [->|Hr]; [discriminate|].
  destruct (contains "tag" v) as [[|]|]; simpl; try discriminate.
  - destruct (getitem v "tag") as [q|]; simpl; [|discriminate].
    destruct (get_path values q) as [[[t| | | | |]|]|]; simpl;
      try discriminate.
    destruct (String.eqb t ""); [discriminate|].
    intros [= <-]. split; [|reflexivity].
    intros H. now apply append_empty in H.
  - intros [= <-]. now split.
Qed.

Lemma replace_find (k : string) (img : value) :
  forall d d' p,
  replace d k (container_entry (VStr k) img) = Ok d' ->
  exists pos,
    find_named k p d' = Ok (Some (pos, container_entry (VStr k) img)).
Proof.
  induction d as [|c d IH]; intros d' p; simpl.
  - intros [= <-]. exists p. simpl. now rewrite String.eqb_refl.
  - destruct (getitem c "name") as [n|] eqn:Hn; simpl; [|discriminate].
    destruct (eq_str n k) eqn:E.
    + intros [= <-]. exists p. simpl. now rewrite String.eqb_refl.
    + destruct (replace d k _) as [r|] eqn:R; simpl; [|discriminate].
      intros [= <-]. simpl. rewrite Hn. simpl. rewrite E. now apply IH.
Qed.

Lemma replace_find_other (k k' : string) (img' : value) :
  k' <> k ->
  forall d d' p x,
  replace d k' (container_entry (VStr k') img') = Ok d' ->
  find_named k p d = Ok (Some x) ->
  find_named k p d' = Ok (Some x).
Proof.
  intros Hne. induction d as [|c d IH]; intros d' p x; simpl;
    [discriminate|].
  destruct (getitem c "name") as [n|] eqn:Hn; simpl; [|discriminate].
  destruct (eq_str n k') eqn:E'.
  - intros [= <-]. simpl.
    assert (En : eq_str n k = false).
    { destruct n; simpl in *; try reflexivity.
      apply String.eqb_eq in E' as ->. now apply String.eqb_neq. }
    apply String.eqb_neq in Hne as ->.
    now rewrite En.
  - destruct (replace d k' _) as [r|] eqn:R; simpl; [|discriminate].
    intros [= <-]. simpl. rewrite Hn. simpl.
    destruct (eq_str n k); [trivial|]. now apply IH.
Qed.

Lemma annotated_containers_keeps (values : value) (k : string) :
  forall mappings cs0 cs x,
  ~ In k (dict_keys mappings) ->
  annotated_containers values mappings cs0 = Ok cs ->
  find_named k 0 cs0 = Ok (Some x) ->
  find_named k 0 cs = Ok (Some x).
Proof.
  induction mappings as [|[k0 v0] rest IH]; intros cs0 cs x Hnin; simpl.
  - now intros [= <-].
  - assert (Hne : k0 <> k) by (intros ->; apply Hnin; now left).
    assert (Hrest : ~ In k (dict_keys rest))
      by (intros H; apply Hnin; now right).
    destruct (get_image_for_mapping values v0) as [[i|]|]; simpl;
      try discriminate; try (now apply IH).
    destruct (String.eqb i ""); [now apply IH|].
    destruct (replace cs0 k0 _) as [cs1|] eqn:R; simpl; [|discriminate].
    intros Hrun Hfind. apply (IH cs1 cs x Hrest Hrun).
    now apply (replace_find_other k k0 (VStr i) Hne cs0).
Qed.

(** the first container named after a mapping that yields an image is
    the container of that mapping *)
Lemma annotated_containers_first (values : value) (k : string) (v : value)
  (image : string) :
  forall mappings cs0 cs,
  NoDup (dict_keys mappings) ->
  dict_get k mappings = Some v ->
  get_image_for_mapping values v = Ok (Some image) ->
  annotated_containers values mappings cs0 = Ok cs ->
  exists pos,
    find_named k 0 cs
    = Ok (Some (pos, container_entry (VStr k) (VStr image))).
Proof.
  intros mappings. induction mappings as [|[k0 v0] rest IH];
    intros cs0 cs Hnd Hget Himg; [discriminate|].
  simpl in Hget, Hnd. inversion Hnd as [|? ? Hnin Hnd']; subst.
  simpl. destruct (String.eqb_spec k k0) as [<-|Hne].
  - injection Hget as ->. rewrite Himg. cbn [bind].
    destruct (get_image_for_mapping_image _ _ _ Himg) as [Hi _].
    apply String.eqb_neq in Hi as ->.
    destruct (replace cs0 k _) as [cs1|] eqn:R; simpl; [|discriminate].
    intros Hrun.
    destruct (replace_find k (VStr image) cs0 cs1 0%nat R) as [pos Hpos].
    exists pos. now apply (annotated_containers_keeps values k rest cs1).
  - destruct (get_image_for_mapping values v0) as [[i|]|]; simpl;
      try discriminate; try (now apply IH).
    destruct (String.eqb i ""); [now apply IH|].
    destruct (replace cs0 k0 _) as [cs1|]; simpl; [|discriminate].
    now apply IH.
Qed.

Lemma fluxhelmrelease_containers_annotated (py_str : value -> string)
  (manifest values : value) (mappings : dict) (cs : list value) :
  getitems manifest ["spec"; "values"] = Ok values ->
  container_mappings_from_annotations manifest = Ok mappings ->
  fluxhelmrelease_containers py_str manifest = Ok cs ->
  exists cs0, annotated_containers values mappings cs0 = Ok cs.
Proof.
  intros Hv Hm. unfold fluxhelmrelease_containers. rewrite Hv. cbn [bind].
  destruct (contains "image" values) as [has|]; [|discriminate]. cbn [bind].
  match goal with |- (x <- ?c ;; _) = _ -> _ =>
    destruct c as [cs1|]; [|discriminate] end. cbn [bind].
  destruct (py_iter values) as [keys|]; [|discriminate]. cbn [bind].
  destruct (nested_containers py_str values keys cs1) as [cs2|];
    [|discriminate].
  cbn [bind]. rewrite Hm. cbn [bind]. eauto.
Qed.

(** C5, as the code has it: let a mapping derived from the annotations
    of a Helm release have a repository path that resolves, from
    [spec.values], to a non-empty string.  When the mapping has no tag
    path, the first container of that name that the resolver returns is
    the mapping's container with the repository as image; when its tag
    path resolves to a non-empty string, the image is the repository,
    [":"] and the tag; when its tag path does not resolve to a non-empty
    string, the mapping yields no container.  Paths start inside
    [spec.values]: with [web.image] and [web.version] over
    [{web: {image: "x", version: "y"}}] the resolver returns the container
    [web] with image ["x:y"], and writing ["z:9"] back sets [web.image] to
    ["z"] and [web.version] to ["9"]. *)
Theorem annotated_mapping_container :
  (forall (py_str : value -> string) (manifest values : value)
          (mappings : dict) (cs : list value) (k : string) (fields : dict)
          (p : value) (r : string),
      getitems manifest ["spec"; "values"] = Ok values ->
      container_mappings_from_annotations manifest = Ok mappings ->
      fluxhelmrelease_containers py_str manifest = Ok cs ->
      dict_get k mappings = Some (VMap fields) ->
      dict_get "repository" fields = Some p ->
      get_path values p = Ok (Some (VStr r)) -> r <> "" ->
      (dict_get "tag" fields = None ->
       exists pos,
         find_named k 0 cs
         = Ok (Some (pos, container_entry (VStr k) (VStr r))))
      /\ (forall q t,
             dict_get "tag" fields = Some q ->
             get_path values q = Ok (Some (VStr t)) -> t <> "" ->
             exists pos,
               find_named k 0 cs
               = Ok (Some (pos, container_entry (VStr k)
                                  (VStr (r ++ ":" ++ t)))))
      /\ (forall q x,
             dict_get "tag" fields = Some q ->
             get_path values q = Ok x ->
             (forall t, x = Some (VStr t) -> t = "") ->
             get_image_for_mapping values (VMap fields) = Ok None))
  /\ (forall py_str : value -> string,
         fluxhelmrelease_containers py_str
           (ex_release ex_annotations_relative ex_values_web)
         = Ok [container_entry (VStr "web") (VStr "x:y")])
  /\ set_container_image (ex_release ex_annotations_relative ex_values_web)
       (0%nat, container_entry (VStr "web") (VStr "x:y")) "z:9"
     = Ok (ex_release ex_annotations_relative
             (VMap [("web", VMap [("image", VStr "z");
                                  ("version", VStr "9")])])).
Proof.
  split; [|split; [intros; reflexivity | reflexivity]].
  intros py_str manifest values mappings cs k fields p r
    Hv Hm Hcs Hget Hrepo Hp Hr.
  destruct (fluxhelmrelease_containers_annotated _ _ _ _ _ Hv Hm Hcs)
    as [cs0 Hrun].
  pose proof (container_mappings_nodup _ _ Hm) as Hnd.
  pose proof (get_image_for_mapping_cases _ _ _ _ Hrepo Hp Hr) as Hcases.
  split; [|split].
  - intros Htag. rewrite Htag in Hcases.
    exact (annotated_containers_first values k (VMap fields) r
             mappings cs0 cs Hnd Hget Hcases Hrun).
  - intros q t Htag Hq Ht. rewrite Htag, Hq in Hcases. cbn [bind] in Hcases.
    apply String.eqb_neq in Ht. rewrite Ht in Hcases.
    exact (annotated_containers_first values k (VMap fields)
             (r ++ ":" ++ t) mappings cs0 cs Hnd Hget Hcases Hrun).
  - intros q x Htag Hq Hx. rewrite Hcases, Htag, Hq. cbn [bind].
    destruct x as [[t| | | | |]|]; try reflexivity.
    now rewrite (Hx t eq_refl).
Qed.

Lemma annotated_mapping_container_witness :
  get_path ex_values_web (VStr "web.image") = Ok (Some (VStr "x"))
  /\ exists pos,
       find_named "web" 0
         [container_entry (VStr "web") (VStr "x:y")]
       = Ok (Some (pos, container_entry (VStr "web") (VStr "x:y"))).
Proof.
  split; [reflexivity|].
  destruct annotated_mapping_container as (Ha & Hb & _).
  assert (Hr : "x" <> "") by discriminate.
  assert (Ht : "y" <> "") by discriminate.
  destruct (Ha py_str_example
              (ex_release ex_annotations_relative ex_values_web)
              ex_values_web
              [("web", VMap [("repository", VStr "web.image");
                             ("tag", VStr "web.version")])]
              [container_entry (VStr "web") (VStr "x:y")] "web"
              [("repository", VStr "web.image"); ("tag", VStr "web.version")]
              (VStr "web.image") "x"
              eq_refl eq_refl (Hb py_str_example) eq_refl eq_refl eq_refl Hr)
    as (_ & Htag & _).
  exact (Htag (VStr "web.version") "y" eq_refl eq_refl Ht).
Defined.

(** C5 as stated fails twice.  With the annotations of the
    specification's example, whose paths begin with [values.], the path
    does not resolve in [spec.values]: the container [web] comes from the
    nested mapping, with image ["x"] and not ["x:y"], and writing ["z:9"]
    back changes nothing.  And a mapping whose repository resolves but
    whose tag path does not yields no container at all. *)
Lemma prefixed_paths_counterexample :
  fluxhelmrelease_containers py_str_example
    (ex_release ex_annotations_prefixed ex_values_web)
  = Ok [container_entry (VStr "web") (VStr "x")]
  /\ update_image py_str_example ex_args_web
       [ex_release ex_annotations_prefixed ex_values_web]
     = ([ex_release ex_annotations_prefixed ex_values_web], None)
  /\ get_path (VMap [("app", VMap [("img", VStr "x")])]) (VStr "app.img")
     = Ok (Some (VStr "x"))
  /\ fluxhelmrelease_containers py_str_example
       (ex_release
          [("repository.flux.weave.works/app", VStr "app.img");
           ("tag.flux.weave.works/app", VStr "app.version")]
          (VMap [("app", VMap [("img", VStr "x")])]))
     = Ok [].
Proof. repeat split; reflexivity. Qed.

(** ** Which exceptions a function can raise

    [NotFound] is raised at two places: at the end of the loop over the
    stream, and at the end of [set_fluxhelmrelease_container].  No other
    function raises it. *)

Lemma nnf_ok {A : Type} (a : A) : nnf (Ok a).
Proof. discriminate. Qed.

Lemma nnf_raise {A : Type} (e : exn) : e <> NotFound -> nnf (@Raise A e).
Proof. unfold nnf. congruence. Qed.

Lemma nnf_raise_any {A B : Type} (e : exn) :
  nnf (@Raise A e) -> nnf (@Raise B e).
Proof. unfold nnf. congruence. Qed.

Lemma nnf_bind {A B : Type} (c : res A) (k : A -> res B) :
  nnf c -> (forall a, nnf (k a)) -> nnf (bind c k).
Proof.
  unfold nnf. destruct c as [a|e]; simpl; intros Hc Hk; [apply Hk|].
  congruence.
Qed.

Lemma nnf_except {A : Type} (c h : res A) :
  nnf c -> nnf h -> nnf (except_KeyError c h).
Proof. unfold nnf. destruct c as [a|[]]; simpl; congruence. Qed.

Ltac nnf_prim :=
  unfold nnf, bind; intros; cbv zeta;
  repeat (match goal with
          | |- context [match ?x with _ => _ end] => destruct x
          end; simpl);
  discriminate.

Lemma nnf_getitem d k : nnf (getitem d k).
Proof. unfold getitem. nnf_prim. Qed.

Lemma nnf_index {A : Type} (l : list A) z : nnf (index l z).
Proof.
  unfold index, nnf. cbv zeta.
  destruct (_ && _)%bool; [|discriminate].
  destruct (nth_error l _); discriminate.
Qed.

Lemma nnf_index_value d z : nnf (index_value d z).
Proof.
  unfold index_value. destruct d; try apply nnf_index;
    try (apply nnf_raise; discriminate).
  apply nnf_bind; [apply nnf_index | intros; apply nnf_ok].
Qed.

Lemma nnf_subscript d k : nnf (subscript d k).
Proof.
  unfold subscript. destruct k; try apply nnf_getitem;
    try apply nnf_index_value; nnf_prim.
Qed.

Lemma nnf_contains k d : nnf (contains k d).
Proof. unfold contains. nnf_prim. Qed.

Lemma nnf_py_iter d : nnf (py_iter d).
Proof. unfold py_iter. nnf_prim. Qed.

Lemma nnf_get_default d k v : nnf (get_default d k v).
Proof. unfold get_default. nnf_prim. Qed.

Lemma nnf_str_method v : nnf (str_method v).
Proof. unfold str_method. nnf_prim. Qed.

Lemma nnf_setitem d k v : nnf (setitem d k v).
Proof. unfold setitem. nnf_prim. Qed.

Lemma nnf_py_add_iter a b : nnf (py_add_iter a b).
Proof. unfold py_add_iter. nnf_prim. Qed.

Lemma nnf_store_at values k v : nnf (store_at values k v).
Proof.
  unfold store_at. destruct k; try apply nnf_setitem; nnf_prim.
Qed.

Create HintDb nnf.
#[local] Hint Resolve nnf_getitem nnf_subscript nnf_contains nnf_py_iter
  nnf_get_default nnf_str_method nnf_setitem nnf_py_add_iter nnf_store_at
  : nnf.

Ltac nnf_step :=
  match goal with
  | |- nnf (Ok _) => apply nnf_ok
  | |- nnf (Raise _) => apply nnf_raise; discriminate
  | |- nnf (bind _ _) => apply nnf_bind; [|intros]
  | |- nnf (except_KeyError _ _) => apply nnf_except
  | |- nnf _ => solve [auto with nnf]
  | |- nnf (match ?x with _ => _ end) => destruct x
  end.

Ltac nnf_solve := repeat nnf_step.

Lemma nnf_getitems keys : forall d, nnf (getitems d keys).
Proof. induction keys; intros d; cbn [getitems]; nnf_solve. Qed.
#[local] Hint Resolve nnf_getitems : nnf.

Lemma nnf_setitems keys : forall d v, nnf (setitems d keys v).
Proof. induction keys; intros d v; cbn [setitems]; nnf_solve. Qed.
#[local] Hint Resolve nnf_setitems : nnf.

Lemma nnf_manifests doc : nnf (manifests doc).
Proof. unfold manifests. nnf_solve. Qed.

Lemma nnf_match_manifest spec m : nnf (match_manifest spec m).
Proof. unfold match_manifest. nnf_solve. Qed.

Lemma nnf_podspec m : nnf (podspec m).
Proof. unfold podspec, podspec_path. nnf_solve. Qed.

Lemma nnf_is_helm_kind m : nnf (is_helm_kind m).
Proof. unfold is_helm_kind. nnf_solve. Qed.

Lemma nnf_container_mappings m :
  nnf (container_mappings_from_annotations m).
Proof. unfold container_mappings_from_annotations. nnf_solve. Qed.

Lemma nnf_mappings_step values k : nnf (mappings_step values k).
Proof. unfold mappings_step. nnf_solve. Qed.

#[local] Hint Resolve nnf_manifests nnf_match_manifest nnf_podspec
  nnf_is_helm_kind nnf_container_mappings nnf_mappings_step : nnf.

Lemma nnf_get_path_fuel fuel : forall d path, nnf (get_path_fuel fuel d path).
Proof.
  induction fuel; intros d path; cbn [get_path_fuel]; nnf_solve.
Qed.

Lemma nnf_get_path d path : nnf (get_path d path).
Proof. apply nnf_get_path_fuel. Qed.
#[local] Hint Resolve nnf_get_path : nnf.

Lemma nnf_get_image_for_mapping values mapping :
  nnf (get_image_for_mapping values mapping).
Proof. unfold get_image_for_mapping. nnf_solve. Qed.
#[local] Hint Resolve nnf_get_image_for_mapping : nnf.

Lemma nnf_replace k entry : forall d, nnf (replace d k entry).
Proof. induction d; cbn [replace]; nnf_solve. Qed.
#[local] Hint Resolve nnf_replace : nnf.

Lemma nnf_annotated_containers values :
  forall mappings cs, nnf (annotated_containers values mappings cs).
Proof.
  induction mappings as [|[k v] rest IH]; intros cs;
    cbn [annotated_containers]; nnf_solve.
Qed.
#[local] Hint Resolve nnf_annotated_containers : nnf.

Lemma nnf_set_path_keys v : forall keys d, nnf (set_path_keys d keys v).
Proof.
  induction keys as [|k rest IH]; intros d;
    [apply nnf_raise; discriminate|].
  destruct rest as [|k1 rest].
  - cbn [set_path_keys]. nnf_solve.
  - rewrite set_path_keys_cons by discriminate. nnf_solve.
Qed.
#[local] Hint Resolve nnf_set_path_keys : nnf.

Lemma nnf_set_path d p v : nnf (set_path d p v).
Proof. unfold set_path. nnf_solve. Qed.
#[local] Hint Resolve nnf_set_path : nnf.

Lemma nnf_set_image_fields values key replace :
  nnf (set_image_fields values key replace).
Proof. unfold set_image_fields. nnf_solve. Qed.
#[local] Hint Resolve nnf_set_image_fields : nnf.

Lemma nnf_set_image values replace : nnf (set_image values replace).
Proof. unfold set_image. nnf_solve. Qed.

Lemma nnf_set_image_for_mapping values mapping replace :
  nnf (set_image_for_mapping values mapping replace).
Proof. unfold set_image_for_mapping. nnf_solve. Qed.

#[local] Hint Resolve nnf_set_image nnf_set_image_for_mapping : nnf.

Lemma nnf_set_annotated values cname replace :
  forall mappings, nnf (set_annotated values mappings cname replace).
Proof.
  induction mappings as [|[k v] rest IH]; cbn [set_annotated]; nnf_solve.
Qed.

Lemma nnf_set_nested values cname replace :
  forall keys, nnf (set_nested values keys cname replace).
Proof. induction keys; cbn [set_nested]; nnf_solve. Qed.

Lemma nnf_store_container m pos c : nnf (store_container m pos c).
Proof. unfold store_container, podspec_path. nnf_solve. Qed.

#[local] Hint Resolve nnf_set_annotated nnf_set_nested nnf_store_container
  : nnf.

Lemma nnf_get_image py_str values : nnf (get_image py_str values).
Proof. unfold get_image. nnf_solve. Qed.
#[local] Hint Resolve nnf_get_image : nnf.

Lemma nnf_nested_containers py_str values :
  forall keys cs, nnf (nested_containers py_str values keys cs).
Proof.
  induction keys; intros cs; cbn [nested_containers]; nnf_solve.
Qed.
#[local] Hint Resolve nnf_nested_containers : nnf.

Lemma nnf_containers py_str m : nnf (containers py_str m).
Proof. unfold containers, fluxhelmrelease_containers. nnf_solve. Qed.
#[local] Hint Resolve nnf_containers : nnf.

Lemma nnf_find_named name : forall cs pos, nnf (find_named name pos cs).
Proof. induction cs; intros pos; cbn [find_named]; nnf_solve. Qed.
#[local] Hint Resolve nnf_find_named : nnf.

Lemma nnf_find_container py_str args m : nnf (find_container py_str args m).
Proof. unfold find_container. nnf_solve. Qed.

Lemma nnf_annotate spec m : nnf (annotate spec m).
Proof.
  assert (Hens : forall d k, nnf (ensure d k)).
  { intros d k. unfold ensure. pose proof (nnf_getitem d k) as H.
    destruct (getitem d k) as [v|[]]; nnf_solve. now elim H. }
  assert (Hdel : forall d k, nnf (delitem d k))
    by (intros; unfold delitem; nnf_prim).
  assert (Hlen : forall d, nnf (py_len d))
    by (intros; unfold py_len; nnf_prim).
  assert (Happ : forall l notes, nnf (apply_notes notes l)).
  { induction l as [|[k v] l IH]; intros notes; cbn [apply_notes];
      nnf_solve; auto. }
  unfold annotate. nnf_solve; auto.
Qed.

(** ** The resolver and the write-back agree *)

Lemma mappings_step_key (values k k' v : value) :
  mappings_step values k = Ok (Some (k', v)) -> k' = k.
Proof.
  unfold mappings_step. destruct (subscript values k) as [x|]; simpl;
    [|discriminate].
  destruct (is_mapping x); [|discriminate]. now intros [= <- _].
Qed.

Lemma nested_containers_writable (py_str : value -> string)
  (values : value) (mappings : dict) (keys : list value) :
  forall keys0 cs0 cs,
  incl keys0 keys ->
  Forall (writable values mappings keys) cs0 ->
  nested_containers py_str values keys0 cs0 = Ok cs ->
  Forall (writable values mappings keys) cs.
Proof.
  induction keys0 as [|k keys0 IH]; intros cs0 cs Hincl Hall;
    cbn [nested_containers].
  - now intros [= <-].
  - assert (Hk : In k keys) by (apply Hincl; now left).
    assert (Hincl' : incl keys0 keys)
      by (intros x Hx; apply Hincl; now right).
    destruct (mappings_step values k) as [[[k' v]|]|] eqn:Hstep;
      cbn [bind]; try discriminate; [|now apply IH].
    pose proof (mappings_step_key _ _ _ _ Hstep) as ->.
    destruct (contains "image" v) as [[|]|] eqn:Hc; cbn [bind];
      try discriminate; [|now apply IH].
    destruct (get_image py_str v) as [image|]; cbn [bind]; [|discriminate].
    apply IH; [assumption|].
    apply Forall_app. split; [assumption|].
    constructor; [|constructor].
    exists k, image. split; [reflexivity|]. right. left. eauto.
Qed.

Lemma replace_forall (P : value -> Prop) (k : string) (entry : value) :
  P entry ->
  forall d d', Forall P d -> replace d k entry = Ok d' -> Forall P d'.
Proof.
  intros He. induction d as [|c d IH]; intros d' Hall; cbn [replace].
  - intros [= <-]. now constructor.
  - inversion Hall as [|? ? Hc Hd]; subst.
    destruct (getitem c "name") as [n|]; cbn [bind]; [|discriminate].
    destruct (eq_str n k).
    + intros [= <-]. now constructor.
    + destruct (replace d k entry) as [r|] eqn:R; cbn [bind];
        [|discriminate].
      intros [= <-]. constructor; [assumption | now apply IH].
Qed.

Lemma annotated_containers_writable (values : value) (mappings : dict)
  (keys : list value) :
  forall maps0 cs0 cs,
  incl maps0 mappings ->
  Forall (writable values mappings keys) cs0 ->
  annotated_containers values maps0 cs0 = Ok cs ->
  Forall (writable values mappings keys) cs.
Proof.
  induction maps0 as [|[k v] maps0 IH]; intros cs0 cs Hincl Hall;
    cbn [annotated_containers].
  - now intros [= <-].
  - assert (Hk : In (k, v) mappings) by (apply Hincl; now left).
    assert (Hincl' : incl maps0 mappings)
      by (intros x Hx; apply Hincl; now right).
    destruct (get_image_for_mapping values v) as [[i|]|] eqn:Hi;
      cbn [bind]; try discriminate; [|now apply IH].
    destruct (String.eqb i ""); [now apply IH|].
    destruct (replace cs0 k _) as [cs1|] eqn:R; cbn [bind]; [|discriminate].
    apply IH; [assumption|].
    apply (replace_forall (writable values mappings keys) k
             (container_entry (VStr k) (VStr i))) with (d := cs0);
      try assumption.
    exists (VStr k), (VStr i). split; [reflexivity|]. right. right.
    exists k, v. repeat split; try assumption.
    now apply (get_image_for_mapping_image values v i).
Qed.

Lemma fluxhelmrelease_containers_writable (py_str : value -> string)
  (manifest : value) (cs : list value) :
  fluxhelmrelease_containers py_str manifest = Ok cs ->
  exists values mappings keys,
    getitems manifest ["spec"; "values"] = Ok values
    /\ container_mappings_from_annotations manifest = Ok mappings
    /\ py_iter values = Ok keys
    /\ Forall (writable values mappings keys) cs.
Proof.
  unfold fluxhelmrelease_containers.
  destruct (getitems manifest ["spec"; "values"]) as [values|];
    [|discriminate].
  cbn [bind].
  destruct (contains "image" values) as [has|] eqn:Hhas; [|discriminate].
  cbn [bind].
  destruct (py_iter values) as [keys|] eqn:Hkeys.
  2:{ destruct has; [destruct (get_image py_str values)|]; discriminate. }
  destruct (container_mappings_from_annotations manifest) as [mappings|]
    eqn:Hm.
  2:{ destruct has; [destruct (get_image py_str values)|]; cbn [bind];
        try discriminate;
        match goal with |- (x <- ?c ;; _) = _ -> _ => destruct c end;
        discriminate. }
  intros Hrun. exists values, mappings, keys.
  repeat split; try reflexivity; try assumption.
  assert (H1 : exists cs1,
     (if has then image <- get_image py_str values ;;
                  Ok [container_entry (VStr FHR_CONTAINER) image]
      else Ok []) = Ok cs1
     /\ Forall (writable values mappings keys) cs1).
  { destruct has.
    - destruct (get_image py_str values) as [image|]; [|discriminate].
      eexists. split; [reflexivity|]. constructor; [|constructor].
      exists (VStr FHR_CONTAINER), image. split; [reflexivity|]. now left.
    - eexists. split; [reflexivity | constructor]. }
  destruct H1 as (cs1 & E1 & Hall1). rewrite E1 in Hrun. cbn [bind] in Hrun.
  destruct (nested_containers py_str values keys cs1) as [cs2|] eqn:E2;
    [|discriminate].
  cbn [bind] in Hrun.
  apply (annotated_containers_writable values mappings keys mappings cs2);
    [apply incl_refl| |assumption].
  apply (nested_containers_writable py_str values mappings keys keys cs1);
    [apply incl_refl | assumption | assumption].
Qed.

Lemma find_named_in (name : string) :
  forall cs p pos c,
  find_named name p cs = Ok (Some (pos, c)) ->
  In c cs /\ getitem c "name" = Ok (VStr name).
Proof.
  induction cs as [|c0 cs IH]; intros p pos c; cbn [find_named];
    [discriminate|].
  destruct (getitem c0 "name") as [n|] eqn:Hn; cbn [bind]; [|discriminate].
  destruct (eq_str n name) eqn:E.
  - intros [= _ <-]. split; [now left|].
    destruct n; try discriminate. simpl in E.
    apply String.eqb_eq in E as ->. exact Hn.
  - intros H. destruct (IH _ _ _ H). split; [now right | assumption].
Qed.

Lemma set_annotated_hit (values : value) (k : string) (v : value)
  (replace : string) :
  forall mappings,
  In (k, v) mappings -> contains "repository" v = Ok true ->
  set_annotated values mappings (VStr k) replace <> Ok None.
Proof.
  induction mappings as [|[k0 v0] rest IH]; intros Hin Hrepo; [destruct Hin|].
  cbn [set_annotated].
  assert (Hhit : forall v1, contains "repository" v1 = Ok true ->
     (has <- contains "repository" v1 ;;
      if has then
        values' <- set_image_for_mapping values v1 replace ;;
        Ok (Some values')
      else set_annotated values rest (VStr k) replace) <> Ok None).
  { intros v1 H1. rewrite H1. cbn [bind].
    destruct (set_image_for_mapping values v1 replace); discriminate. }
  destruct Hin as [[= -> ->]|Hin].
  - simpl eq_str. rewrite String.eqb_refl. now apply Hhit.
  - destruct (eq_str (VStr k) k0); [|now apply IH].
    destruct (contains "repository" v0) as [[|]|] eqn:H0; cbn [bind];
      [|now apply IH | discriminate].
    destruct (set_image_for_mapping values v0 replace); discriminate.
Qed.

Lemma set_nested_hit (values : value) (k : string) (v : value)
  (replace : string) :
  mappings_step values (VStr k) = Ok (Some (VStr k, v)) ->
  contains "image" v = Ok true ->
  forall keys,
  In (VStr k) keys ->
  set_nested values keys (VStr k) replace <> Ok None.
Proof.
  intros Hstep Himg. induction keys as [|k0 keys IH]; intros Hin;
    [destruct Hin|].
  cbn [set_nested].
  assert (Hhit : forall k1 v1, contains "image" v1 = Ok true ->
     (has <- contains "image" v1 ;;
      if has then
        v' <- set_image v1 replace ;;
        values' <- store_at values k1 v' ;;
        Ok (Some values')
      else set_nested values keys (VStr k) replace) <> Ok None).
  { intros k1 v1 H1. rewrite H1. cbn [bind].
    destruct (set_image v1 replace); cbn [bind]; [|discriminate].
    destruct (store_at values k1 a); discriminate. }
  destruct Hin as [->|Hin].
  - rewrite Hstep. cbn [bind]. simpl eq_key. rewrite String.eqb_refl.
    now apply Hhit.
  - destruct (mappings_step values k0) as [[[k1 v1]|]|]; cbn [bind];
      [|now apply IH|discriminate].
    destruct (eq_key k1 (VStr k)); [|now apply IH].
    destruct (contains "image" v1) as [[|]|] eqn:H1; cbn [bind];
      [|now apply IH | discriminate].
    destruct (set_image v1 replace); cbn [bind]; [|discriminate].
    destruct (store_at values k1 a); discriminate.
Qed.

Lemma set_fluxhelmrelease_container_writable (manifest c : value)
  (replace : string) (values : value) (mappings : dict)
  (keys : list value) (k : string) :
  getitems manifest ["spec"; "values"] = Ok values ->
  container_mappings_from_annotations manifest = Ok mappings ->
  py_iter values = Ok keys ->
  writable values mappings keys c ->
  getitem c "name" = Ok (VStr k) ->
  nnf (set_fluxhelmrelease_container manifest c replace).
Proof.
  intros Hv Hm Hkeys (n & img & -> & Hw) Hn.
  injection Hn as ->.
  unfold set_fluxhelmrelease_container. rewrite Hv. cbn [bind].
  change (getitem (container_entry (VStr k) img) "name")
    with (@Ok value (VStr k)).
  cbn [bind].
  destruct (if eq_str (VStr k) FHR_CONTAINER
            then contains "image" values else Ok false) as [[|]|e] eqn:Etop;
    cbn [bind].
  - nnf_solve.
  - rewrite Hm. cbn [bind].
    pose proof (nnf_set_annotated values (VStr k) replace mappings) as Ha.
    destruct (set_annotated values mappings (VStr k) replace)
      as [[values'|]|ea] eqn:Ea; cbn [bind];
      [nnf_solve | | exact (nnf_raise_any _ Ha)].
    rewrite Hkeys. cbn [bind].
    pose proof (nnf_set_nested values (VStr k) replace keys) as Hb.
    destruct (set_nested values keys (VStr k) replace)
      as [[values'|]|eb] eqn:Eb; cbn [bind];
      [nnf_solve | | exact (nnf_raise_any _ Hb)].
    exfalso. destruct Hw as [[Hname Himg]|[(v & Hin & Hstep & Himg)|Hc]].
    + injection Hname as ->. simpl in Etop. congruence.
    + now apply (set_nested_hit values k v replace Hstep Himg keys Hin).
    + destruct Hc as (k' & v & [= <-] & Hin & Hrepo).
      now apply (set_annotated_hit values k v replace mappings Hin Hrepo).
  - assert (H : nnf (if eq_str (VStr k) FHR_CONTAINER
                     then contains "image" values else @Ok bool false))
      by (destruct (eq_str _ _); nnf_solve).
    rewrite Etop in H. exact (nnf_raise_any _ H).
Qed.

(** the write-back of a container that [find_container] returned does not
    raise [NotFound] *)
Lemma set_container_image_found (py_str : value -> string) (args : Args)
  (m : value) (c : nat * value) (image : string) :
  find_container py_str args m = Ok (Some c) ->
  nnf (set_container_image m c image).
Proof.
  unfold find_container.
  destruct (match_manifest args m) as [[|]|]; cbn [bind negb];
    try discriminate.
  unfold containers, set_container_image.
  destruct (is_helm_kind m) as [[|]|]; cbn [bind]; try discriminate.
  - destruct (fluxhelmrelease_containers py_str m) as [cs|] eqn:Hcs;
      cbn [bind]; [|discriminate].
    intros Hfind. destruct c as [pos c].
    destruct (find_named_in _ _ _ _ _ Hfind) as [Hin Hname].
    destruct (fluxhelmrelease_containers_writable _ _ _ Hcs)
      as (values & mappings & keys & Hv & Hm & Hkeys & Hall).
    rewrite Forall_forall in Hall.
    exact (set_fluxhelmrelease_container_writable m c image values mappings
             keys (args_container args) Hv Hm Hkeys (Hall c Hin) Hname).
  - intros _. nnf_solve.
Qed.

(** ** One manifest is edited: C3 and C1 *)

Lemma update_manifests_generic (py_str : value -> string) (args : Args)
  (doc : value) :
  forall ms j,
  update_manifests py_str args doc j ms
  = edit_manifests (find_container py_str args)
      (fun m c => set_container_image m c (args_image args)) doc j ms.
Proof.
  induction ms as [|m ms IH]; intros j; [reflexivity|].
  cbn [update_manifests edit_manifests].
  destruct (find_container py_str args m) as [[c|]|]; cbn [bind];
    [reflexivity | apply IH | reflexivity].
Qed.

Lemma annotate_manifests_generic (spec : Args) (doc : value) :
  forall ms j,
  annotate_manifests spec doc j ms
  = edit_manifests (pick_match spec) (fun m _ => annotate spec m) doc j ms.
Proof.
  induction ms as [|m ms IH]; intros j; [reflexivity|].
  cbn [annotate_manifests edit_manifests]. unfold pick_match.
  destruct (match_manifest spec m) as [[|]|]; cbn [bind];
    [reflexivity | apply IH | reflexivity].
Qed.

Lemma edit_manifests_none {X : Type} (pick : value -> res (option X))
  (apply : value -> X -> res value) (doc : value) :
  forall ms j,
  edit_manifests pick apply doc j ms = Ok None
  <-> Forall (fun m => pick m = Ok None) ms.
Proof.
  induction ms as [|m ms IH]; intros j; cbn [edit_manifests].
  - split; [constructor | reflexivity].
  - destruct (pick m) as [[x|]|] eqn:Hp; cbn [bind].
    + split.
      * destruct (apply m x); discriminate.
      * intros H. inversion H; subst. congruence.
    + rewrite IH. split.
      * intros H. now constructor.
      * intros H. now inversion H.
    + split; [discriminate|]. intros H. inversion H; subst. congruence.
Qed.

Lemma edit_manifests_some {X : Type} (pick : value -> res (option X))
  (apply : value -> X -> res value) (doc doc' : value) :
  forall ms j0,
  edit_manifests pick apply doc j0 ms = Ok (Some doc') ->
  exists j m x m',
    first_hit pick ms j m x /\ apply m x = Ok m'
    /\ doc' = put_manifest doc (j0 + j) m'.
Proof.
  induction ms as [|m ms IH]; intros j0; cbn [edit_manifests];
    [discriminate|].
  destruct (pick m) as [[x|]|] eqn:Hp; cbn [bind]; [| |discriminate].
  - destruct (apply m x) as [m'|] eqn:Ha; cbn [bind]; [|discriminate].
    intros [= <-]. exists 0%nat, m, x, m'. repeat split; try assumption.
    + intros i mi Hi. lia.
    + now rewrite Nat.add_0_r.
  - intros H. destruct (IH _ H) as (j & m1 & x & m' & (Hn & Hx & Hb) & Ha & E).
    exists (S j), m1, x, m'. repeat split; try assumption.
    + intros [|i] mi Hi Hnth.
      * injection Hnth as <-. exact Hp.
      * apply (Hb i); [lia | exact Hnth].
    + rewrite E. f_equal. lia.
Qed.

Lemma edit_stream_inv (edit : value -> res (option value)) :
  forall docs out e,
  edit_stream edit false docs = (out, e) ->
  (e = None ->
   exists pre doc doc' post,
     docs = (pre ++ doc :: post)%list /\ out = (pre ++ doc' :: post)%list
     /\ Forall (fun d => edit d = Ok None) pre
     /\ edit doc = Ok (Some doc'))
  /\ (e <> None ->
      exists post, docs = (out ++ post)%list
                   /\ Forall (fun d => edit d = Ok None) out)
  /\ (e = Some NotFound -> (forall d, nnf (edit d)) -> out = docs).
Proof.
  induction docs as [|doc docs IH]; intros out e; cbn [edit_stream].
  - intros [= <- <-]. repeat split; try discriminate.
    intros _. exists []. split; [reflexivity | constructor].
  - destruct (edit doc) as [[doc'|]|e0] eqn:Hd.
    + rewrite edit_stream_found. intros [= <- <-].
      repeat split; try congruence.
      intros _. exists [], doc, doc', docs. repeat split; try assumption.
      constructor.
    + destruct (edit_stream edit false docs) as [out1 e1] eqn:E1.
      intros [= <- <-]. destruct (IH out1 e1 eq_refl) as (Ha & Hb & Hc).
      repeat split.
      * intros He. destruct (Ha He) as (pre & d & d' & post & -> & -> & Hp & Hx).
        exists (doc :: pre), d, d', post. repeat split; try assumption.
        now constructor.
      * intros He. destruct (Hb He) as (post & -> & Hall).
        exists post. split; [reflexivity | now constructor].
      * intros He Hn. now rewrite (Hc He Hn).
    + intros [= <- <-]. repeat split; try discriminate.
      * intros _. exists (doc :: docs). split; [reflexivity | constructor].
      * intros [= ->] Hn. exfalso. now apply (Hn doc).
Qed.

Lemma edit_stream_not_found (edit : value -> res (option value)) :
  (forall d, nnf (edit d)) ->
  forall docs,
  snd (edit_stream edit false docs) = Some NotFound
  <-> Forall (fun d => edit d = Ok None) docs.
Proof.
  intros Hn docs. split.
  - destruct (edit_stream edit false docs) as [out e] eqn:E. simpl.
    intros ->. destruct (edit_stream_inv edit docs out _ E) as (_ & Hb & Hc).
    rewrite <- (Hc eq_refl Hn).
    destruct Hb as (post & _ & Hall); [discriminate | exact Hall].
  - intros H. now rewrite edit_stream_none.
Qed.

Lemma update_doc_generic (py_str : value -> string) (args : Args)
  (doc : value) :
  update_doc py_str args doc
  = (ms <- manifests doc ;;
     edit_manifests (find_container py_str args)
       (fun m c => set_container_image m c (args_image args)) doc 0 ms).
Proof.
  unfold update_doc. destruct (manifests doc); [|reflexivity].
  cbn [bind]. apply update_manifests_generic.
Qed.

Lemma edit_doc_none {X : Type} (pick : value -> res (option X))
  (apply : value -> X -> res value) (doc : value) :
  (ms <- manifests doc ;; edit_manifests pick apply doc 0 ms) = Ok None
  <-> no_hit pick doc.
Proof.
  unfold no_hit. destruct (manifests doc) as [ms|e]; cbn [bind].
  - rewrite edit_manifests_none. split.
    + intros H. now exists ms.
    + intros (ms' & [= <-] & H). exact H.
  - split; [discriminate|]. intros (ms' & H & _). discriminate.
Qed.

Lemma edit_doc_some {X : Type} (pick : value -> res (option X))
  (apply : value -> X -> res value) (doc doc' : value) :
  (ms <- manifests doc ;; edit_manifests pick apply doc 0 ms)
  = Ok (Some doc') ->
  exists ms j m x m',
    manifests doc = Ok ms /\ first_hit pick ms j m x
    /\ apply m x = Ok m' /\ doc' = put_manifest doc j m'.
Proof.
  destruct (manifests doc) as [ms|e]; cbn [bind]; [|discriminate].
  intros H. destruct (edit_manifests_some _ _ _ _ _ _ H)
    as (j & m & x & m' & Hf & Ha & E).
  exists ms, j, m, x, m'. repeat split; try apply Hf; assumption.
Qed.

(** what the loop over the stream does, for either operation *)
Lemma edit_stream_frame {X : Type} (pick : value -> res (option X))
  (apply : value -> X -> res value) (docs out : list value)
  (e : option exn) :
  edit_stream
    (fun doc => ms <- manifests doc ;; edit_manifests pick apply doc 0 ms)
    false docs = (out, e) ->
  (e = None -> edits_first pick apply docs out)
  /\ (e <> None ->
      exists post, docs = (out ++ post)%list /\ Forall (no_hit pick) out).
Proof.
  intros H. destruct (edit_stream_inv _ _ _ _ H) as (Ha & Hb & _). split.
  - intros He. destruct (Ha He) as (pre & doc & doc' & post & -> & -> & Hp & Hd).
    destruct (edit_doc_some _ _ _ _ Hd) as (ms & j & m & x & m' & Hms & Hf & Hx & ->).
    exists pre, doc, post, ms, j, m, x, m'. repeat split; try apply Hf;
      try assumption.
    revert Hp. apply Forall_impl. intros d. apply edit_doc_none.
  - intros He. destruct (Hb He) as (post & -> & Hall).
    exists post. split; [reflexivity|].
    revert Hall. apply Forall_impl. intros d. apply edit_doc_none.
Qed.

Lemma update_image_generic (py_str : value -> string) (args : Args)
  (docs : list value) :
  update_image py_str args docs
  = edit_stream
      (fun doc => ms <- manifests doc ;;
         edit_manifests (find_container py_str args)
           (fun m c => set_container_image m c (args_image args)) doc 0 ms)
      false docs.
Proof.
  unfold update_image.
  assert (G : forall found,
    edit_stream (update_doc py_str args) found docs
    = edit_stream
        (fun doc => ms <- manifests doc ;;
           edit_manifests (find_container py_str args)
             (fun m c => set_container_image m c (args_image args)) doc 0 ms)
        found docs).
  { induction docs as [|d docs IH]; intros found; [reflexivity|].
    cbn [edit_stream]. rewrite <- update_doc_generic.
    destruct found; [now rewrite IH|].
    destruct (update_doc py_str args d) as [[d'|]|]; now rewrite ?IH. }
  apply G.
Qed.

Lemma update_annotations_generic (spec : Args) (docs : list value) :
  update_annotations spec docs
  = edit_stream
      (fun doc => ms <- manifests doc ;;
         edit_manifests (pick_match spec) (fun m _ => annotate spec m)
           doc 0 ms)
      false docs.
Proof.
  unfold update_annotations.
  assert (E : forall doc,
    (ms <- manifests doc ;; annotate_manifests spec doc 0 ms)
    = (ms <- manifests doc ;;
       edit_manifests (pick_match spec) (fun m _ => annotate spec m)
         doc 0 ms)).
  { intros doc. destruct (manifests doc); [|reflexivity].
    cbn [bind]. apply annotate_manifests_generic. }
  generalize false.
  induction docs as [|d docs IH]; intros found; [reflexivity|].
  cbn [edit_stream]. rewrite <- E.
  destruct found; [now rewrite IH|].
  destruct (ms <- manifests d ;; annotate_manifests spec d 0 ms)
    as [[d'|]|]; now rewrite ?IH.
Qed.

Lemma nth_error_list_set_other {A : Type} (a : A) :
  forall l j i, i <> j -> nth_error (list_set j a l) i = nth_error l i.
Proof.
  induction l as [|x l IH]; intros j i Hne; [destruct j; reflexivity|].
  destruct j as [|j], i as [|i]; simpl; try reflexivity; try congruence.
  apply IH. congruence.
Qed.

(** C3, as the code has it: when [update_image] ends without an
    exception, its output is the stream with one manifest edited, the
    first (in the order of the documents, the items of a list document
    taken in their order) for which [find_container] finds the named
    container of a manifest that matches; [update_annotations] likewise
    edits the first manifest that matches.  When either ends with an
    exception, the documents it yielded are a prefix of the stream,
    unchanged.  In a list document the edited manifest takes the place it
    had among the items and no other item changes.  For a list of three
    workloads whose pod template is at [spec.template.spec], setting the
    image of the container of the second changes that image and nothing
    else. *)
Theorem only_first_match_edited :
  (forall (py_str : value -> string) (args : Args) (docs out : list value)
          (e : option exn),
      update_image py_str args docs = (out, e) ->
      (e = None ->
       edits_first (find_container py_str args)
         (fun m c => set_container_image m c (args_image args)) docs out)
      /\ (e <> None ->
          exists post,
            docs = (out ++ post)%list
            /\ Forall (no_hit (find_container py_str args)) out))
  /\ (forall (spec : Args) (docs out : list value) (e : option exn),
      update_annotations spec docs = (out, e) ->
      (e = None ->
       edits_first (pick_match spec) (fun m _ => annotate spec m) docs out)
      /\ (e <> None ->
          exists post,
            docs = (out ++ post)%list
            /\ Forall (no_hit (pick_match spec)) out))
  /\ (forall (d : dict) (k : string) (items : list value) (j : nat)
            (m' : value),
      dict_get "kind" d = Some (VStr k) -> endswith k "List" = true ->
      dict_get "items" d = Some (VList items) ->
      put_manifest (VMap d) j m'
      = VMap (dict_set "items" (VList (list_set j m' items)) d)
      /\ forall i, i <> j ->
                   nth_error (list_set j m' items) i = nth_error items i)
  /\ (forall py_str : value -> string,
      update_image py_str ex_args_image [ex_workload_list]
      = ([ex_workload_list_updated], None)).
Proof.
  split; [|split; [|split]].
  - intros py_str args docs out e H.
    rewrite update_image_generic in H. now apply edit_stream_frame.
  - intros spec docs out e H.
    rewrite update_annotations_generic in H. now apply edit_stream_frame.
  - intros d k items j m' Hk He Hi. split.
    + unfold put_manifest. now rewrite Hk, He, Hi.
    + intros i Hne. now apply nth_error_list_set_other.
  - intros py_str. reflexivity.
Qed.

Lemma only_first_match_edited_witness :
  update_image py_str_example ex_args_image
    [ex_workload "Deployment" "a" []; ex_workload_list]
  = ([ex_workload "Deployment" "a" []; ex_workload_list_updated], None)
  /\ edits_first (find_container py_str_example ex_args_image)
       (fun m c => set_container_image m c (args_image ex_args_image))
       [ex_workload "Deployment" "a" []; ex_workload_list]
       [ex_workload "Deployment" "a" []; ex_workload_list_updated].
Proof.
  destruct only_first_match_edited as (Ha & _).
  assert (E : update_image py_str_example ex_args_image
                [ex_workload "Deployment" "a" []; ex_workload_list]
              = ([ex_workload "Deployment" "a" [];
                  ex_workload_list_updated], None)) by reflexivity.
  split; [exact E|].
  exact (proj1 (Ha py_str_example ex_args_image _ _ _ E) eq_refl).
Defined.

(** a manifest that matches and has no container of the requested name
    is passed over; a later one that has it is edited *)
Lemma match_without_container_passed :
  match_manifest ex_args_image
    (ex_workload_with "Deployment" "b" [] "side" "old") = Ok true
  /\ find_container py_str_example ex_args_image
       (ex_workload_with "Deployment" "b" [] "side" "old") = Ok None
  /\ update_image py_str_example ex_args_image
       [ex_workload_with "Deployment" "b" [] "side" "old";
        ex_workload "Deployment" "b" []]
     = ([ex_workload_with "Deployment" "b" [] "side" "old";
         ex_workload_with "Deployment" "b" [] "c" "new:1"], None).
Proof. repeat split; reflexivity. Qed.

(** C3 as stated fails on its example: a Pod keeps its containers at
    [spec.containers], where [podspec] does not look; on a [PodList] of
    three pods the second pod matches, [podspec] raises [KeyError], and
    the run ends without yielding the list.  No image is changed. *)
Lemma pod_list_counterexample :
  manifests ex_pod_list = Ok [ex_pod "a"; ex_pod "b"; ex_pod "c"]
  /\ match_manifest ex_args_pod (ex_pod "b") = Ok true
  /\ find_container py_str_example ex_args_pod (ex_pod "b") = Raise KeyError
  /\ update_image py_str_example ex_args_pod [ex_pod_list]
     = ([], Some KeyError).
Proof. repeat split; reflexivity. Qed.

(** C1, as the code has it: [update_image] ends with [NotFound] exactly
    when every document of the stream is gone through without another
    exception and [find_container] finds the named container in no
    manifest that matches; the stream is then yielded as it was.  (An
    exception of a lookup, such as the [KeyError] of a manifest that
    matches and has no pod template, ends the run in place of
    [NotFound].) *)
Theorem update_image_not_found (py_str : value -> string) (args : Args)
  (docs : list value) :
  (snd (update_image py_str args docs) = Some NotFound
   <-> Forall (no_hit (find_container py_str args)) docs)
  /\ (snd (update_image py_str args docs) = Some NotFound ->
      fst (update_image py_str args docs) = docs).
Proof.
  rewrite update_image_generic.
  set (edit := fun doc =>
         ms <- manifests doc ;;
         edit_manifests (find_container py_str args)
           (fun m c => set_container_image m c (args_image args)) doc 0 ms).
  assert (Hn : forall d, nnf (edit d)).
  { intros d. unfold edit. rewrite <- update_doc_generic. unfold update_doc.
    apply nnf_bind; [apply nnf_manifests|]. intros ms. generalize 0%nat.
    induction ms as [|m ms IH]; intros j; cbn [update_manifests];
      [apply nnf_ok|].
    pose proof (nnf_find_container py_str args m) as Hf.
    destruct (find_container py_str args m) as [[c|]|ef] eqn:Ef;
      cbn [bind]; [|apply IH|exact (nnf_raise_any _ Hf)].
    apply nnf_bind; [|intros; apply nnf_ok].
    exact (set_container_image_found py_str args m c _ Ef). }
  assert (Hiff : snd (edit_stream edit false docs) = Some NotFound
                 <-> Forall (no_hit (find_container py_str args)) docs).
  { rewrite (edit_stream_not_found edit Hn docs).
    split; apply Forall_impl; intros d; apply edit_doc_none. }
  split; [exact Hiff|].
  intros H. apply Hiff in H.
  rewrite edit_stream_none; [reflexivity|].
  revert H. apply Forall_impl. intros d. apply edit_doc_none.
Qed.

(** C1 as stated fails: the Service matches and no manifest of the
    stream has a container named [c], yet the run ends with the
    [KeyError] of [podspec], not with [NotFound]. *)
Lemma service_counterexample :
  manifests ex_service = Ok [ex_service]
  /\ match_manifest ex_args_service ex_service = Ok true
  /\ (forall c, find_container py_str_example ex_args_service ex_service
                <> Ok (Some c))
  /\ snd (update_image py_str_example ex_args_service [ex_service])
     = Some KeyError
  /\ snd (update_image py_str_example ex_args_service [ex_service])
     <> Some NotFound.
Proof. repeat split; try reflexivity; discriminate. Qed.

(** * Further properties *)

(** ** Splitting *)

Lemma split_single_iff (sep : ascii) (s : string) :
  split sep s = [s] <-> is_substring (String sep "") s = false.
Proof.
  induction s as [|c s IH].
  - split; reflexivity.
  - change (is_substring (String sep "") (String c s))
      with (Ascii.eqb sep c && true || is_substring (String sep "") s).
    cbn [split]. rewrite (Ascii.eqb_sym sep c).
    destruct (Ascii.eqb c sep) eqn:E; cbn [andb orb].
    + split; intros H; discriminate.
    + rewrite <- IH. destruct (split sep s) as [|x xs] eqn:Es.
      * now apply split_not_nil in Es.
      * split.
        -- intros [= -> ->]. reflexivity.
        -- intros [= -> ->]. reflexivity.
Qed.

Lemma split_append (sep : ascii) (a b : string) :
  split sep a = [a] ->
  split sep (a ++ String sep b) = a :: split sep b.
Proof.
  induction a as [|c a IH]; cbn [append split].
  - intros _. now rewrite Ascii.eqb_refl.
  - destruct (Ascii.eqb c sep); [discriminate|].
    destruct (split sep a) as [|x xs] eqn:Es;
      [now apply split_not_nil in Es|].
    intros [= -> ->]. now rewrite IH.
Qed.

(** X1: [note] accepts exactly the texts [k=v] in which neither [k] nor
    [v] holds another [=]; a text without [=], or with two, is refused. *)
Theorem note_accepts (s k v : string) :
  note s = Some (k, v)
  <-> s = k ++ "=" ++ v
      /\ is_substring "=" k = false /\ is_substring "=" v = false.
Proof.
  unfold note. split.
  - pose proof (join_split "=" s) as J.
    destruct (split "=" s) as [|a [|b [|c l]]] eqn:E; try discriminate.
    intros [= <- <-]. split; [now rewrite <- J|].
    split; apply (split_single_iff "="); apply (split_segment "=" s);
      rewrite E; simpl; auto.
  - intros (-> & Hk & Hv).
    apply (split_single_iff "=") in Hk, Hv.
    change (k ++ "=" ++ v) with (k ++ String "=" v).
    now rewrite (split_append "=" k v Hk), Hv.
Qed.

(** ** More on image references *)

Lemma is_substring_empty (k : string) : k <> "" -> is_substring k "" = false.
Proof. destruct k; [congruence | reflexivity]. Qed.

Lemma split_registry_decomposes (s : string) :
  let '(reg, rest) := split_registry s in
  ((reg = "" /\ rest = s) \/ s = reg ++ "/" ++ rest)
  /\ is_substring "/" reg = false.
Proof.
  unfold split_registry. pose proof (join_split "/" s) as J.
  destruct (split "/" s) as [|s0 [|s1 [|s2 l]]] eqn:E.
  - now apply split_not_nil in E.
  - split; [left; now split | reflexivity].
  - assert (H0 : is_substring "/" s0 = false).
    { apply (split_single_iff "/"), (split_segment "/" s).
      rewrite E. now left. }
    destruct (fullmatch domain s0).
    + split; [right; now rewrite <- J | exact H0].
    + split; [left; now split | reflexivity].
  - cbn [hd tl]. split.
    + right. rewrite <- J. reflexivity.
    + apply (split_single_iff "/"), (split_segment "/" s).
      rewrite E. now left.
Qed.

Lemma split_tag_decomposes (reg rest : string) :
  let '(reg', im, tag) := split_tag reg rest in
  reg' = reg
  /\ ((tag = "" /\ im = rest) \/ rest = im ++ ":" ++ tag)
  /\ is_substring ":" tag = false.
Proof.
  unfold split_tag. pose proof (join_split ":" rest) as J.
  assert (Hp : forall x, In x (split ":" rest) ->
                         is_substring ":" x = false).
  { intros x Hx. now apply (split_single_iff ":"), (split_segment ":" rest). }
  destruct (split ":" rest) as [|a [|b [|c [|d l]]]] eqn:E;
    try (split; [reflexivity|]; split; [left; now split | reflexivity]).
  - split; [reflexivity|]. split; [right; now rewrite <- J|].
    apply Hp. simpl. auto.
  - split; [reflexivity|]. split.
    + right. rewrite <- J. cbn [join]. now rewrite append_assoc.
    + apply Hp. simpl. auto.
Qed.

(** X2: [parse_ref] only cuts its text: the registry is empty or the text
    before a ["/"], the tag is empty or the text after a [":"], nothing is
    invented or dropped but the two separators; the registry holds no
    ["/"] and the tag no [":"]. *)
Theorem parse_ref_cuts (s reg im tag : string) :
  parse_ref s = (reg, im, tag) ->
  exists rest,
    ((reg = "" /\ rest = s) \/ s = reg ++ "/" ++ rest)
    /\ ((tag = "" /\ im = rest) \/ rest = im ++ ":" ++ tag)
    /\ is_substring "/" reg = false
    /\ is_substring ":" tag = false.
Proof.
  unfold parse_ref. pose proof (split_registry_decomposes s) as H1.
  destruct (split_registry s) as [reg0 rest]. destruct H1 as [Ha Hb].
  pose proof (split_tag_decomposes reg0 rest) as H2.
  destruct (split_tag reg0 rest) as [[reg1 im1] tag1].
  destruct H2 as (-> & Hc & Hd).
  intros [= <- <- <-]. now exists rest.
Qed.

Lemma parse_ref_cuts_witness :
  exists rest,
    (("quay.io" = "" /\ rest = "quay.io/org/app:v1")
     \/ "quay.io/org/app:v1" = "quay.io" ++ "/" ++ rest)
    /\ (("v1" = "" /\ "org/app" = rest) \/ rest = "org/app" ++ ":" ++ "v1")
    /\ is_substring "/" "quay.io" = false
    /\ is_substring ":" "v1" = false.
Proof.
  exact (parse_ref_cuts "quay.io/org/app:v1" "quay.io" "org/app" "v1"
           eq_refl).
Defined.

Lemma matches_lit (t a : string) : matches (Lit t) a -> a = t.
Proof.
  revert a. induction t as [|c t IH]; intros a H; simpl in H.
  - now inversion H.
  - inversion H as [| |? ? x y Hx Hy| | | |]; subst.
    inversion Hx; subst. apply IH in Hy. subst.
    match goal with Hc : Ascii.eqb _ _ = true |- _ =>
      apply Ascii.eqb_eq in Hc; now subst end.
Qed.

Lemma startswith_append (p b : string) : startswith (p ++ b) p = true.
Proof.
  induction p as [|c p IH]; [reflexivity|].
  cbn [append startswith]. now rewrite Ascii.eqb_refl, IH.
Qed.

Lemma is_substring_middle (c : ascii) (a b : string) :
  is_substring (String c "") (a ++ String c b) = true.
Proof.
  induction a as [|x a IH].
  - cbn [append]. cbn [is_substring startswith].
    now rewrite Ascii.eqb_refl.
  - cbn [append]. cbn [is_substring]. rewrite IH. apply orb_true_r.
Qed.

Lemma is_substring_append_l (k a b : string) :
  is_substring k a = true -> is_substring k (a ++ b) = true.
Proof.
  assert (Hs : forall k a, startswith a k = true ->
                           startswith (a ++ b) k = true).
  { induction k0 as [|c k0 IHk]; intros a0 H; [reflexivity|].
    destruct a0 as [|x a0]; [discriminate|]. cbn [append startswith] in *.
    apply andb_true_iff in H as [-> H]. now rewrite IHk. }
  induction a as [|x a IH]; intros H.
  - cbn [is_substring] in H. rewrite orb_false_r in H.
    destruct k; [|discriminate]. destruct b; reflexivity.
  - cbn [append is_substring] in *.
    apply orb_true_iff in H as [H|H].
    + change (String x (a ++ b)) with (String x a ++ b).
      now rewrite (Hs _ _ H).
    + rewrite (IH H). apply orb_true_r.
Qed.

(* what the domain pattern asks of a text *)
Lemma fullmatch_domain_dot (s : string) :
  fullmatch domain s = true ->
  startswith s "localhost" = true \/ is_substring "." s = true.
Proof.
  intros H. apply fullmatch_matches in H. unfold domain in H.
  inversion H as [| |? ? host port Hh Hp| | | |]; subst.
  inversion Hh as [| | |? ? ? Hl|? ? ? Hd| |]; subst.
  - left. apply (matches_lit "localhost") in Hl. subst.
    apply startswith_append.
  - right. apply is_substring_append_l.
    inversion Hd as [| |? ? c rest Hc Hr| | | |]; subst.
    unfold Plus in Hr.
    inversion Hr as [| |? ? x y Hx Hy| | | |]; subst.
    inversion Hx as [| |? ? d z Hdot Hz| | | |]; subst.
    inversion Hdot as [|? dc Hdc| | | | |]; subst.
    apply Ascii.eqb_eq in Hdc. subst dc.
    rewrite !append_assoc. apply is_substring_middle.
Qed.

(** X3: a text that matches the domain pattern begins with [localhost]
    or holds a ["."].  So [parse_ref] gives a text of two segments no
    registry when its first segment has no ["."] and does not begin with
    [localhost], whatever port it may name. *)
Theorem domain_needs_dot (s : string) :
  fullmatch domain s = true ->
  startswith s "localhost" = true \/ is_substring "." s = true.
Proof. exact (fullmatch_domain_dot s). Qed.

Lemma domain_needs_dot_witness :
  startswith "registry.local:5000" "localhost" = true
  \/ is_substring "." "registry.local:5000" = true.
Proof. exact (domain_needs_dot "registry.local:5000" eq_refl). Defined.

(** X4: a text of two segments whose first segment has no ["."] and does
    not begin with [localhost] is parsed without a registry, the whole
    text being the repository and tag, even when the first segment names
    a port. *)
Theorem no_dot_no_registry (s s0 s1 : string) :
  split "/" s = [s0; s1] ->
  is_substring "." s0 = false -> startswith s0 "localhost" = false ->
  split_registry s = ("", s) /\ parse_ref s = split_tag "" s.
Proof.
  intros Hs Hdot Hloc.
  assert (M : fullmatch domain s0 = false).
  { destruct (fullmatch domain s0) eqn:E; [|reflexivity].
    destruct (fullmatch_domain_dot s0 E); congruence. }
  assert (E : split_registry s = ("", s)).
  { rewrite (split_registry_two _ _ _ Hs). now rewrite M. }
  split; [exact E|]. unfold parse_ref. now rewrite E.
Qed.

Lemma no_dot_no_registry_witness :
  parse_ref "registry:5000/app" = ("", "registry", "5000/app").
Proof.
  destruct (no_dot_no_registry "registry:5000/app" "registry:5000" "app"
              eq_refl eq_refl eq_refl) as [_ E].
  rewrite E. reflexivity.
Defined.

(** ** More on matching *)

(** X5: what [match_manifest] accepts, when the kind asked for and the
    kind of the manifest are texts of ASCII characters (on these [lower]
    is [str.lower]): a mapping whose [kind] is a string equal to the kind
    asked for up to the case of letters, whose [metadata] is a mapping
    with the namespace asked for ([default] when it has none) and the
    name asked for.  Nothing else of the manifest is looked at. *)
Theorem match_manifest_true_iff (spec : Args) (m : value) :
  is_ascii (args_kind spec) = true ->
  (forall k, getitem m "kind" = Ok (VStr k) -> is_ascii k = true) ->
  match_manifest spec m = Ok true
  <-> exists mm md k,
        m = VMap mm
        /\ dict_get "kind" mm = Some (VStr k)
        /\ lower k = lower (args_kind spec)
        /\ dict_get "metadata" mm = Some (VMap md)
        /\ match dict_get "namespace" md with
           | Some ns => ns = VStr (args_namespace spec)
           | None => args_namespace spec = "default"
           end
        /\ dict_get "name" md = Some (VStr (args_name spec)).
Proof.
  intros _ _.
  assert (Heq : forall v t, ne_str v t = false <-> v = VStr t).
  { intros v t. unfold ne_str. destruct v; simpl; try (split; discriminate).
    rewrite negb_false_iff, String.eqb_eq. split; congruence. }
  unfold match_manifest, getitem, get_default, str_method. split.
  - destruct m as [| | | | |mm]; try discriminate.
    destruct (dict_get "kind" mm) as [[k| | | | |]|] eqn:Ekind;
      try discriminate.
    cbn [bind].
    destruct (String.eqb_spec (lower k) (lower (args_kind spec)))
      as [Ek|]; [|discriminate]. cbn [negb].
    destruct (dict_get "metadata" mm) as [[| | | | |md]|] eqn:Emd;
      try discriminate.
    cbn [bind].
    destruct (dict_get "namespace" md) as [ns|] eqn:Ens; cbn [bind].
    + destruct (ne_str ns (args_namespace spec)) eqn:En; [discriminate|].
      destruct (dict_get "name" md) as [n|] eqn:Enm; [|discriminate].
      cbn [bind].
      destruct (ne_str n (args_name spec)) eqn:Em; [discriminate|].
      intros _. exists mm, md, k. rewrite Ens.
      apply Heq in En, Em. subst. repeat split; try reflexivity; assumption.
    + destruct (ne_str (VStr "default") (args_namespace spec)) eqn:En;
        [discriminate|].
      destruct (dict_get "name" md) as [n|] eqn:Enm; [|discriminate].
      cbn [bind].
      destruct (ne_str n (args_name spec)) eqn:Em; [discriminate|].
      intros _. exists mm, md, k. rewrite Ens.
      apply Heq in En, Em. injection En as En. subst.
      repeat split; try reflexivity; try assumption. now symmetry.
  - intros (mm & md & k & -> & Hk & Hl & Hmd & Hns & Hn).
    rewrite Hk. cbn [bind]. rewrite Hl.
    rewrite String.eqb_refl. cbn [negb]. rewrite Hmd.
    cbn [bind]. rewrite Hn.
    destruct (dict_get "namespace" md) as [ns|]; cbn [bind].
    + subst ns.
      rewrite (proj2 (Heq (VStr (args_namespace spec)) _) eq_refl).
      now rewrite (proj2 (Heq (VStr (args_name spec)) _) eq_refl).
    + rewrite Hns.
      rewrite (proj2 (Heq (VStr "default") _) eq_refl).
      now rewrite (proj2 (Heq (VStr (args_name spec)) _) eq_refl).
Qed.

Lemma match_manifest_true_iff_witness :
  match_manifest ex_args_image (ex_workload "Deployment" "b" []) = Ok true.
Proof.
  apply (match_manifest_true_iff ex_args_image
           (ex_workload "Deployment" "b" [])).
  - reflexivity.
  - intros k [= <-]. reflexivity.
  - exists [("kind", VStr "Deployment");
            ("metadata", VMap [("name", VStr "b")]);
            ("spec",
             VMap [("template",
                    VMap [("spec",
                           VMap [("containers",
                                  VList [VMap [("name", VStr "c");
                                               ("image", VStr "old")]])])])])],
      [("name", VStr "b")], "Deployment".
    repeat split; reflexivity.
Defined.

(** ** More on finding a container *)

(* the result of the search for a name, from the first position *)
Lemma find_named_spec (name : string) (cs : list value) (i : nat)
  (c : value) :
  find_named name 0 cs = Ok (Some (i, c))
  <-> nth_error cs i = Some c
      /\ getitem c "name" = Ok (VStr name)
      /\ forall j cj, (j < i)%nat -> nth_error cs j = Some cj ->
           exists nj, getitem cj "name" = Ok nj /\ eq_str nj name = false.
Proof.
  assert (G : forall cs p i c,
    find_named name p cs = Ok (Some (i, c))
    <-> exists d, i = (p + d)%nat
        /\ nth_error cs d = Some c
        /\ getitem c "name" = Ok (VStr name)
        /\ forall j cj, (j < d)%nat -> nth_error cs j = Some cj ->
             exists nj, getitem cj "name" = Ok nj
                        /\ eq_str nj name = false).
  { clear. induction cs as [|c0 cs IH]; intros p i c; cbn [find_named].
    - split; [discriminate|]. intros (d & _ & H & _). destruct d; discriminate.
    - destruct (getitem c0 "name") as [n|e] eqn:Hn; cbn [bind].
      + destruct (eq_str n name) eqn:E.
        * split.
          -- intros [= <- <-]. exists 0%nat. repeat split.
             ++ lia.
             ++ destruct n; try discriminate. simpl in E.
                apply String.eqb_eq in E as ->. exact Hn.
             ++ intros j cj Hj. lia.
          -- intros (d & -> & Hd & Hname & Hbefore).
             destruct d as [|d].
             ++ injection Hd as <-. now rewrite Nat.add_0_r.
             ++ destruct (Hbefore 0%nat c0 ltac:(lia) eq_refl)
                  as (nj & Hnj & Ej). congruence.
        * rewrite IH. split.
          -- intros (d & -> & Hd & Hname & Hbefore).
             exists (S d). repeat split; try assumption; [lia|].
             intros [|j] cj Hj Hcj.
             ++ injection Hcj as <-. eauto.
             ++ apply (Hbefore j); [lia | exact Hcj].
          -- intros (d & -> & Hd & Hname & Hbefore).
             destruct d as [|d].
             ++ injection Hd as <-. rewrite Hn in Hname.
                injection Hname as ->. simpl in E.
                now rewrite String.eqb_refl in E.
             ++ exists d. repeat split; try assumption; [lia|].
                intros j cj Hj Hcj. apply (Hbefore (S j)); [lia | exact Hcj].
      + split; [discriminate|].
        intros (d & -> & Hd & Hname & Hbefore).
        destruct d as [|d].
        * injection Hd as <-. congruence.
        * destruct (Hbefore 0%nat c0 ltac:(lia) eq_refl)
            as (nj & Hnj & _). congruence. }
  rewrite (G cs 0%nat i c). split.
  - intros (d & -> & H). exact H.
  - intros H. now exists i.
Qed.

(** X6: [find_container] returns the first container of the list, in
    order, whose name is the one asked for, with its position: every
    container before it has a name and it is another one. *)
Theorem find_named_first (name : string) (cs : list value) (i : nat)
  (c : value) :
  find_named name 0 cs = Ok (Some (i, c))
  <-> nth_error cs i = Some c
      /\ getitem c "name" = Ok (VStr name)
      /\ forall j cj, (j < i)%nat -> nth_error cs j = Some cj ->
           exists nj, getitem cj "name" = Ok nj /\ eq_str nj name = false.
Proof. exact (find_named_spec name cs i c). Qed.

(** ** NotFound from update-annotations *)

Lemma nnf_pick_match_edit (spec : Args) (doc : value) :
  nnf (ms <- manifests doc ;;
       edit_manifests (pick_match spec) (fun m _ => annotate spec m)
         doc 0 ms).
Proof.
  apply nnf_bind; [apply nnf_manifests|]. intros ms. generalize 0%nat.
  induction ms as [|m ms IH]; intros j; cbn [edit_manifests];
    [apply nnf_ok|].
  unfold pick_match.
  pose proof (nnf_match_manifest spec m) as Hm.
  destruct (match_manifest spec m) as [[|]|e]; cbn [bind];
    [|apply IH|exact (nnf_raise_any _ Hm)].
  apply nnf_bind; [apply nnf_annotate | intros; apply nnf_ok].
Qed.

(** X7: [update_annotations] ends with [NotFound] exactly when every
    document is gone through without another exception and no manifest
    matches; the stream is then yielded as it was. *)
Theorem update_annotations_not_found (spec : Args) (docs : list value) :
  (snd (update_annotations spec docs) = Some NotFound
   <-> Forall (no_hit (pick_match spec)) docs)
  /\ (snd (update_annotations spec docs) = Some NotFound ->
      fst (update_annotations spec docs) = docs).
Proof.
  rewrite update_annotations_generic.
  set (edit := fun doc =>
         ms <- manifests doc ;;
         edit_manifests (pick_match spec) (fun m _ => annotate spec m)
           doc 0 ms).
  assert (Hn : forall d, nnf (edit d))
    by (intros d; apply nnf_pick_match_edit).
  assert (Hiff : snd (edit_stream edit false docs) = Some NotFound
                 <-> Forall (no_hit (pick_match spec)) docs).
  { rewrite (edit_stream_not_found edit Hn docs).
    split; apply Forall_impl; intros d; apply edit_doc_none. }
  split; [exact Hiff|].
  intros H. apply Hiff in H.
  rewrite edit_stream_none; [reflexivity|].
  revert H. apply Forall_impl. intros d. apply edit_doc_none.
Qed.

(** ** Writing the image of a workload's container *)

Lemma getitems_setitems (keys : list string) :
  forall d d' v, setitems d keys v = Ok d' -> getitems d' keys = Ok v.
Proof.
  induction keys as [|k ks IH]; intros d d' v; cbn [setitems getitems].
  - now intros [= ->].
  - destruct d as [| | | | |m]; try discriminate. cbn [getitem].
    destruct (dict_get k m) as [c|]; [|discriminate]. cbn [bind].
    destruct (setitems c ks v) as [c'|] eqn:E; [|discriminate].
    cbn [bind setitem]. intros [= <-]. cbn [getitem].
    rewrite dict_get_set_same. cbn [bind]. now apply (IH c).
Qed.

Lemma setitems_ok (keys : list string) :
  forall d v0 v, getitems d keys = Ok v0 ->
                 exists d', setitems d keys v = Ok d'.
Proof.
  induction keys as [|k ks IH]; intros d v0 v; cbn [setitems getitems].
  - eauto.
  - destruct d as [| | | | |m]; try discriminate. cbn [getitem].
    destruct (dict_get k m) as [c|]; [|discriminate]. cbn [bind].
    intros H. destruct (IH c v0 v H) as [c' ->]. cbn [bind setitem]. eauto.
Qed.

Lemma setitems_other (k0 : string) (ks : list string) (d d' v : value) :
  setitems d (k0 :: ks) v = Ok d' ->
  forall k, k <> k0 -> getitem d' k = getitem d k.
Proof.
  cbn [setitems]. destruct d as [| | | | |m]; try discriminate.
  cbn [getitem]. destruct (dict_get k0 m) as [c|]; [|discriminate].
  cbn [bind]. destruct (setitems c ks v) as [c'|]; [|discriminate].
  cbn [bind setitem]. intros [= <-] k Hk. cbn [getitem].
  now rewrite dict_get_set_other.
Qed.

Lemma match_manifest_ext (spec : Args) (m m' : value) :
  getitem m' "kind" = getitem m "kind" ->
  getitem m' "metadata" = getitem m "metadata" ->
  match_manifest spec m' = match_manifest spec m.
Proof. intros Hk Hm. unfold match_manifest. now rewrite Hk, Hm. Qed.

Lemma list_set_app_l {A : Type} (a : A) (l2 : list A) :
  forall l1 pos, (pos < List.length l1)%nat ->
  list_set pos a (l1 ++ l2)%list = (list_set pos a l1 ++ l2)%list.
Proof.
  induction l1 as [|x l1 IH]; intros pos H; simpl in *; [lia|].
  destruct pos as [|pos]; [reflexivity|]. simpl. rewrite IH by lia.
  reflexivity.
Qed.

Lemma list_set_app_r {A : Type} (a : A) (l2 : list A) :
  forall l1 pos, (List.length l1 <= pos)%nat ->
  list_set pos a (l1 ++ l2)%list
  = (l1 ++ list_set (pos - List.length l1) a l2)%list.
Proof.
  induction l1 as [|x l1 IH]; intros pos H; simpl in *.
  - now rewrite Nat.sub_0_r.
  - destruct pos as [|pos]; [lia|]. simpl. rewrite IH by lia. reflexivity.
Qed.

Lemma nth_error_list_set_same {A : Type} (a : A) :
  forall l pos, (pos < List.length l)%nat ->
  nth_error (list_set pos a l) pos = Some a.
Proof.
  induction l as [|x l IH]; intros pos H; simpl in *; [lia|].
  destruct pos as [|pos]; [reflexivity|]. simpl. apply IH. lia.
Qed.

Lemma list_set_length {A : Type} (a : A) :
  forall l pos, List.length (list_set pos a l) = List.length l.
Proof.
  induction l as [|x l IH]; intros pos; [destruct pos; reflexivity|].
  destruct pos; simpl; [reflexivity | now rewrite IH].
Qed.

(** the containers of a workload are two lists of its pod specification *)
Lemma containers_workload (py_str : value -> string) (m : value)
  (cs : list value) (c : value) (cm : dict) :
  is_helm_kind m = Ok false ->
  containers py_str m = Ok cs -> In (VMap cm) cs ->
  exists path sm l1 l2,
    podspec_path m = Ok path
    /\ getitems m path = Ok (VMap sm)
    /\ get_default (VMap sm) "containers" (VList []) = Ok (VList l1)
    /\ get_default (VMap sm) "initContainers" (VList []) = Ok (VList l2)
    /\ cs = (l1 ++ l2)%list.
Proof.
  intros Hhelm. unfold containers. rewrite Hhelm. cbn [bind].
  unfold podspec.
  destruct (podspec_path m) as [path|] eqn:Hp; [|discriminate].
  cbn [bind].
  destruct (getitems m path) as [spec|] eqn:Hs; [|discriminate].
  cbn [bind].
  destruct spec as [| | | | |sm]; try discriminate.
  destruct (get_default (VMap sm) "containers" (VList [])) as [a|] eqn:Ea;
    [|discriminate].
  cbn [bind].
  destruct (get_default (VMap sm) "initContainers" (VList [])) as [b|]
    eqn:Eb; [|discriminate].
  cbn [bind]. unfold py_add_iter.
  destruct a as [s1| | | |l1|]; try discriminate;
    destruct b as [s2| | | |l2|]; try discriminate.
  - intros [= <-] Hin. apply in_map_iff in Hin as (x & Hx & _). discriminate.
  - intros [= <-] _. exists path, sm, l1, l2. repeat split; assumption.
Qed.

(* the write of an image into a workload, and what is read after it *)
Lemma set_container_image_workload (py_str : value -> string) (args : Args)
  (m : value) (pos : nat) (c : value) (image : string) :
  find_container py_str args m = Ok (Some (pos, c)) ->
  is_helm_kind m = Ok false ->
  exists cm cs m',
    c = VMap cm
    /\ containers py_str m = Ok cs
    /\ nth_error cs pos = Some c
    /\ set_container_image m (pos, c) image = Ok m'
    /\ containers py_str m'
       = Ok (list_set pos (VMap (dict_set "image" (VStr image) cm)) cs)
    /\ find_container py_str args m'
       = Ok (Some (pos, VMap (dict_set "image" (VStr image) cm)))
    /\ (forall k, k <> "spec" -> getitem m' k = getitem m k).
Proof.
  intros Hfind Hhelm. unfold find_container in Hfind.
  destruct (match_manifest args m) as [[|]|] eqn:Hmatch; try discriminate.
  cbn [bind negb] in Hfind.
  destruct (containers py_str m) as [cs|] eqn:Hcs; [|discriminate].
  cbn [bind] in Hfind.
  apply find_named_spec in Hfind as (Hnth & Hname & Hbefore).
  destruct c as [| | | | |cm]; try discriminate.
  set (c' := VMap (dict_set "image" (VStr image) cm)).
  destruct (containers_workload py_str m cs (VMap cm) cm Hhelm Hcs
              (nth_error_In _ _ Hnth))
    as (path & sm & l1 & l2 & Hpath & Hspec & Ha & Hb & ->).
  assert (Hlen : (pos < List.length l1 + List.length l2)%nat).
  { rewrite <- length_app. apply nth_error_Some. congruence. }
  (* the pod specification after the write *)
  set (sm' := if (pos <? List.length l1)%nat
              then dict_set "containers" (VList (list_set pos c' l1)) sm
              else dict_set "initContainers"
                     (VList (list_set (pos - List.length l1) c' l2)) sm).
  destruct (setitems_ok path m (VMap sm) (VMap sm') Hspec) as [m' Hm'].
  assert (Hstore : store_container m pos c' = Ok m').
  { unfold store_container. rewrite Hpath. cbn [bind]. rewrite Hspec.
    cbn [bind]. rewrite Ha, Hb. cbn [bind]. unfold sm' in Hm'.
    destruct (pos <? List.length l1)%nat eqn:E; cbn [setitem bind];
      [exact Hm'|].
    apply Nat.ltb_ge in E.
    assert (E2 : (pos - List.length l1 <? List.length l2)%nat = true)
      by (apply Nat.ltb_lt; lia).
    rewrite E2. exact Hm'. }
  assert (Hpath1 : exists rest, path = "spec" :: rest).
  { unfold podspec_path in Hpath.
    destruct (getitem m "kind"); [|discriminate]. cbn [bind] in Hpath.
    destruct (eq_str a "CronJob"); injection Hpath as <-; eauto. }
  destruct Hpath1 as [rest ->].
  assert (Hother : forall k, k <> "spec" -> getitem m' k = getitem m k)
    by (apply (setitems_other _ _ _ _ _ Hm')).
  assert (Hkind : getitem m' "kind" = getitem m "kind")
    by (apply Hother; discriminate).
  assert (Hmeta : getitem m' "metadata" = getitem m "metadata")
    by (apply Hother; discriminate).
  assert (Hcs' : containers py_str m'
                 = Ok (list_set pos c' (l1 ++ l2)%list)).
  { unfold containers, is_helm_kind, podspec, podspec_path.
    rewrite Hkind. unfold is_helm_kind in Hhelm.
    unfold podspec_path in Hpath.
    destruct (getitem m "kind") as [k|]; [|discriminate].
    cbn [bind] in *. injection Hhelm as Hhelm. rewrite Hhelm.
    destruct (eq_str k "CronJob"); injection Hpath as Hpath;
      rewrite Hpath; cbn [bind];
      rewrite (getitems_setitems _ _ _ _ Hm'); cbn [bind];
      unfold sm', get_default in *;
      destruct (pos <? List.length l1)%nat eqn:E;
      rewrite ?dict_get_set_same;
      rewrite ?dict_get_set_other by discriminate;
      cbn [bind];
      try (apply Nat.ltb_lt in E; rewrite list_set_app_l by assumption);
      try (apply Nat.ltb_ge in E; rewrite list_set_app_r by assumption).
    all: try (destruct (dict_get "initContainers" sm);
              injection Hb as ->; reflexivity).
    all: destruct (dict_get "containers" sm);
           injection Ha as ->; reflexivity. }
  exists cm, (l1 ++ l2)%list, m'. repeat split; try assumption.
  - unfold set_container_image. rewrite Hhelm. cbn [bind snd fst setitem].
    exact Hstore.
  - unfold find_container.
    rewrite (match_manifest_ext args m m' Hkind Hmeta), Hmatch.
    cbn [bind negb]. rewrite Hcs'. cbn [bind].
    apply find_named_spec. repeat split.
    + apply nth_error_list_set_same. now rewrite length_app.
    + unfold c'. cbn [getitem] in *.
      now rewrite dict_get_set_other by discriminate.
    + intros j cj Hj Hcj.
      rewrite nth_error_list_set_other in Hcj by lia.
      now apply (Hbefore j).
Qed.

(** ** Running update-image again *)

Lemma dict_set_twice (k : string) (v v' : value) (m : dict) :
  dict_set k v (dict_set k v' m) = dict_set k v m.
Proof.
  induction m as [|[k0 v0] m IH]; simpl.
  - now rewrite String.eqb_refl.
  - destruct (String.eqb k k0) eqn:E; simpl; rewrite E; [reflexivity|].
    now rewrite IH.
Qed.

Lemma list_set_same {A : Type} (a : A) :
  forall l pos, nth_error l pos = Some a -> list_set pos a l = l.
Proof.
  induction l as [|x l IH]; intros pos H; [destruct pos; reflexivity|].
  destruct pos as [|pos]; simpl in *.
  - now injection H as ->.
  - now rewrite IH.
Qed.

Lemma list_set_twice {A : Type} (a b : A) :
  forall l pos, list_set pos a (list_set pos b l) = list_set pos a l.
Proof.
  induction l as [|x l IH]; intros pos; [destruct pos; reflexivity|].
  destruct pos; simpl; [reflexivity | now rewrite IH].
Qed.

Lemma get_default_list_present (sm : dict) (k : string) (l : list value) :
  get_default (VMap sm) k (VList []) = Ok (VList l) -> l <> [] ->
  dict_get k sm = Some (VList l).
Proof.
  unfold get_default. destruct (dict_get k sm); intros [= ->]; congruence.
Qed.

(** writing the image that a container of a workload already has changes
    nothing *)
Lemma set_container_image_same (py_str : value -> string) (args : Args)
  (m : value) (pos : nat) (c : value) (image : string) :
  find_container py_str args m = Ok (Some (pos, c)) ->
  is_helm_kind m = Ok false ->
  getitem c "image" = Ok (VStr image) ->
  set_container_image m (pos, c) image = Ok m.
Proof.
  intros Hfind Hhelm Himg. unfold find_container in Hfind.
  destruct (match_manifest args m) as [[|]|]; try discriminate.
  cbn [bind negb] in Hfind.
  destruct (containers py_str m) as [cs|] eqn:Hcs; [|discriminate].
  cbn [bind] in Hfind.
  apply find_named_spec in Hfind as (Hnth & _ & _).
  destruct c as [| | | | |cm]; try discriminate.
  destruct (containers_workload py_str m cs (VMap cm) cm Hhelm Hcs
              (nth_error_In _ _ Hnth))
    as (path & sm & l1 & l2 & Hpath & Hspec & Ha & Hb & ->).
  unfold set_container_image. rewrite Hhelm. cbn [bind snd fst setitem].
  assert (Ec : dict_set "image" (VStr image) cm = cm).
  { apply dict_set_same. cbn [getitem] in Himg.
    destruct (dict_get "image" cm); [now injection Himg as -> | discriminate]. }
  rewrite Ec. unfold store_container. rewrite Hpath. cbn [bind].
  rewrite Hspec. cbn [bind]. rewrite Ha, Hb. cbn [bind].
  assert (Hlen : (pos < List.length (l1 ++ l2))%nat)
    by (apply nth_error_Some; congruence).
  rewrite length_app in Hlen.
  destruct (pos <? List.length l1)%nat eqn:E.
  - apply Nat.ltb_lt in E. rewrite nth_error_app1 in Hnth by assumption.
    rewrite (list_set_same _ _ _ Hnth). cbn [setitem bind].
    rewrite dict_set_same.
    + now apply setitems_same.
    + apply (get_default_list_present sm "containers" l1 Ha).
      destruct l1; [simpl in E; lia | discriminate].
  - apply Nat.ltb_ge in E. rewrite nth_error_app2 in Hnth by assumption.
    assert (E2 : (pos - List.length l1 <? List.length l2)%nat = true)
      by (apply Nat.ltb_lt; lia).
    rewrite E2. rewrite (list_set_same _ _ _ Hnth). cbn [setitem bind].
    rewrite dict_set_same.
    + now apply setitems_same.
    + apply (get_default_list_present sm "initContainers" l2 Hb).
      destruct l2; [simpl in E2; discriminate | discriminate].
Qed.

Lemma edit_manifests_hit {X : Type} (pick : value -> res (option X))
  (apply : value -> X -> res value) (doc : value) :
  forall ms j0 j m x m',
  first_hit pick ms j m x -> apply m x = Ok m' ->
  edit_manifests pick apply doc j0 ms
  = Ok (Some (put_manifest doc (j0 + j) m')).
Proof.
  induction ms as [|m0 ms IH]; intros j0 j m x m' (Hn & Hp & Hb) Ha.
  - destruct j; discriminate.
  - cbn [edit_manifests]. destruct j as [|j].
    + injection Hn as ->. rewrite Hp. cbn [bind]. rewrite Ha.
      now rewrite Nat.add_0_r.
    + rewrite (Hb 0%nat m0 ltac:(lia) eq_refl). cbn [bind].
      rewrite (IH (S j0) j m x m'); [f_equal; f_equal; f_equal; lia| |exact Ha].
      repeat split; try assumption.
      intros i mi Hi Hmi. apply (Hb (S i)); [lia | exact Hmi].
Qed.

(** the manifests of a document after one of them, a mapping, was edited
    without a change of its kind *)
Lemma manifests_put_manifest (doc : value) (ms : list value) (j : nat)
  (mm : dict) (m' : value) :
  manifests doc = Ok ms -> nth_error ms j = Some (VMap mm) ->
  getitem m' "kind" = getitem (VMap mm) "kind" ->
  manifests (put_manifest doc j m') = Ok (list_set j m' ms)
  /\ put_manifest (put_manifest doc j m') j m' = put_manifest doc j m'.
Proof.
  unfold manifests. intros Hms Hnth Hkind.
  destruct doc as [| | | | |d]; try discriminate. cbn [getitem] in Hms.
  destruct (dict_get "kind" d) as [[k| | | | |]|] eqn:Ek; try discriminate.
  cbn [bind str_method] in Hms. cbn [put_manifest]. rewrite Ek.
  destruct (endswith k "List") eqn:El.
  - destruct (dict_get "items" d) as [items|] eqn:Ei; [|discriminate].
    cbn [bind] in Hms.
    destruct items as [s| | | |l|im]; try discriminate.
    + injection Hms as <-. apply nth_error_In in Hnth.
      apply in_map_iff in Hnth as (x & Hx & _). discriminate.
    + injection Hms as <-. split.
      * cbn [getitem]. rewrite dict_get_set_other by discriminate.
        rewrite Ek. cbn [bind str_method]. rewrite El.
        now rewrite dict_get_set_same.
      * cbn [put_manifest]. rewrite dict_get_set_other by discriminate.
        rewrite Ek, El, dict_get_set_same.
        now rewrite list_set_twice, dict_set_twice.
    + injection Hms as <-. apply nth_error_In in Hnth.
      apply in_map_iff in Hnth as (x & Hx & _). discriminate.
  - injection Hms as <-.
    destruct j as [|j]; [|destruct j; discriminate].
    injection Hnth as ->. cbn [getitem] in Hkind. rewrite Ek in Hkind.
    destruct m' as [| | | | |d']; try discriminate. cbn [getitem] in Hkind.
    destruct (dict_get "kind" d') as [k'|] eqn:Ek'; [|discriminate].
    injection Hkind as ->. split.
    + cbn [getitem]. rewrite Ek'. cbn [bind str_method]. now rewrite El.
    + cbn [put_manifest]. now rewrite Ek', El.
Qed.

(** X9: on a stream without Helm releases, a run of [update_image] that
    ended without an exception can be run again on its output with the
    same arguments: it ends without an exception and yields that output
    unchanged. *)
Theorem update_image_again (py_str : value -> string) (args : Args)
  (docs out : list value) :
  workloads_only docs ->
  update_image py_str args docs = (out, None) ->
  update_image py_str args out = (out, None).
Proof.
  intros Hw Hrun. rewrite update_image_generic in *.
  destruct (edit_stream_frame _ _ _ _ _ Hrun) as [Hedit _].
  destruct (Hedit eq_refl)
    as (pre & doc & post & ms & j & m & [pos c] & m' & -> & -> & Hpre
        & Hms & (Hnth & Hpick & Hbefore) & Hset).
  assert (Hhelm : is_helm_kind m = Ok false).
  { assert (Hne : is_helm_kind m <> Ok true).
    { apply (Hw doc ms m); [apply in_elt | exact Hms
                           | exact (nth_error_In _ _ Hnth)]. }
    unfold find_container in Hpick.
    destruct (match_manifest args m) as [[|]|]; try discriminate.
    cbn [bind negb] in Hpick. unfold containers in Hpick.
    destruct (is_helm_kind m) as [[|]|]; [congruence | reflexivity
                                          | discriminate]. }
  destruct (set_container_image_workload py_str args m pos c (args_image args)
              Hpick Hhelm)
    as (cm & cs & m1 & -> & _ & _ & Hset1 & _ & Hfind' & Hother).
  rewrite Hset in Hset1. injection Hset1 as <-.
  assert (Hkind : getitem m' "kind" = getitem m "kind")
    by (apply Hother; discriminate).
  assert (Hm : exists mm, m = VMap mm).
  { unfold is_helm_kind in Hhelm. destruct m; try discriminate. eauto. }
  destruct Hm as [mm ->].
  destruct (manifests_put_manifest doc ms j mm m' Hms Hnth Hkind)
    as [Hms' Hput].
  assert (Hhelm' : is_helm_kind m' = Ok false).
  { unfold is_helm_kind in *. now rewrite Hkind. }
  assert (Hsame : set_container_image m'
                    (pos, VMap (dict_set "image" (VStr (args_image args)) cm))
                    (args_image args) = Ok m').
  { apply (set_container_image_same py_str args); try assumption.
    cbn [getitem]. now rewrite dict_get_set_same. }
  apply edit_stream_edit.
  - revert Hpre. apply Forall_impl. intros d. apply edit_doc_none.
  - rewrite Hms'. cbn [bind].
    rewrite (edit_manifests_hit _ _ _ _ 0%nat j m'
               (pos, VMap (dict_set "image" (VStr (args_image args)) cm)) m').
    + cbn [Nat.add]. now rewrite Hput.
    + repeat split.
      * apply nth_error_list_set_same. apply nth_error_Some. congruence.
      * exact Hfind'.
      * intros i mi Hi Hmi.
        rewrite nth_error_list_set_other in Hmi by lia.
        now apply (Hbefore i).
    + exact Hsame.
Qed.

Lemma update_image_again_witness :
  update_image py_str_example ex_args_image [ex_workload_list_updated]
  = ([ex_workload_list_updated], None).
Proof.
  apply (update_image_again py_str_example ex_args_image
           [ex_workload_list]).
  - intros doc ms m [<-|[]] Hms Hin. injection Hms as <-.
    destruct Hin as [<-|[<-|[<-|[]]]]; discriminate.
  - reflexivity.
Defined.

(** ** Reading and writing at a dot-path *)

Lemma split1_split (sep : ascii) (p key rest : string) :
  split1 sep p = Some (key, rest) -> split sep p = key :: split sep rest.
Proof.
  revert key. induction p as [|c p IH]; intros key; cbn [split1 split];
    [discriminate|].
  destruct (Ascii.eqb c sep); [now intros [= <- <-]|].
  destruct (split1 sep p) as [[k r]|]; [|discriminate].
  intros [= <- <-]. now rewrite (IH k eq_refl).
Qed.

Lemma except_KeyError_idem {A : Type} (c h : res A) :
  (forall e, h <> Raise e) ->
  except_KeyError (except_KeyError c h) h = except_KeyError c h.
Proof.
  intros Hh. destruct c as [a|[]]; try reflexivity.
  cbn [except_KeyError]. destruct h as [a|e]; [reflexivity|].
  now elim (Hh e).
Qed.

(** the recursion of [get_path] goes through the keys of [path.split(".")] *)
Lemma get_path_fuel_getitems (fuel : nat) :
  forall d p, (String.length p < fuel)%nat ->
  get_path_fuel fuel d (VStr p)
  = except_KeyError (x <- getitems d (split "." p) ;; Ok (Some x)) (Ok None).
Proof.
  induction fuel as [|fuel IH]; intros d p Hlen; [lia|].
  cbn [get_path_fuel contains bind str_method].
  destruct (is_substring "." p) eqn:Hdot; cbn [bind].
  - destruct (split1 "." p) as [[key rest]|] eqn:Es;
      [|now apply split1_substring in Hdot].
    rewrite (split1_split _ _ _ _ Es). cbn [getitems].
    destruct (getitem d key) as [d'|e]; cbn [bind]; [|reflexivity].
    rewrite IH by (apply split1_shorter in Es; lia).
    apply except_KeyError_idem. discriminate.
  - apply (split_single_iff ".") in Hdot. rewrite Hdot.
    cbn [getitems subscript]. destruct (getitem d p); reflexivity.
Qed.

Lemma set_path_keys_getitems (v : string) (keys : list string) :
  forall d d', set_path_keys d keys v = Ok (d', true) ->
  getitems d' keys = Ok (VStr v).
Proof.
  induction keys as [|k rest IH]; intros d d'; [discriminate|].
  destruct rest as [|k1 rest].
  - cbn [set_path_keys getitems].
    destruct d as [| | | | |m]; try discriminate. cbn [getitem].
    destruct (dict_get k m) as [cur|]; [|discriminate]. cbn [bind].
    destruct (is_str cur); cbn [negb setitem bind]; [|discriminate].
    intros [= <-]. cbn [getitem]. now rewrite dict_get_set_same.
  - rewrite set_path_keys_cons by discriminate.
    destruct (contains k d) as [[|]|]; cbn [bind negb]; try discriminate.
    destruct d as [| | | | |m]; try discriminate. cbn [getitem].
    destruct (dict_get k m) as [c|]; [|discriminate]. cbn [bind].
    destruct (set_path_keys c (k1 :: rest) v) as [[c' b]|] eqn:E;
      cbn [bind setitem fst snd]; [|discriminate].
    intros [= <- ->]. cbn [getitems getitem]. rewrite dict_get_set_same.
    cbn [bind]. exact (IH c c' E).
Qed.

Lemma getitems_str (s : string) (keys : list string) :
  keys <> [] -> getitems (VStr s) keys = Raise TypeError.
Proof. destruct keys; [congruence | reflexivity]. Qed.

Lemma set_path_keys_frame (v : string) (keys : list string) :
  forall d d' b, set_path_keys d keys v = Ok (d', b) ->
  forall keys', (forall l, keys <> (keys' ++ l)%list) ->
  getitems d' keys' = getitems d keys'.
Proof.
  induction keys as [|k rest IH]; intros d d' b; [discriminate|].
  intros Hset keys' Hpre.
  destruct keys' as [|k' rest']; [now elim (Hpre (k :: rest))|].
  destruct rest as [|k1 rest].
  - cbn [set_path_keys] in Hset.
    destruct d as [| | | | |m]; try discriminate. cbn [getitem] in Hset.
    destruct (dict_get k m) as [cur|] eqn:G; [|discriminate].
    cbn [bind] in Hset.
    destruct cur as [s| | | | |]; cbn [is_str negb setitem bind] in Hset;
      try (now injection Hset as <- <-).
    injection Hset as <- <-. cbn [getitems getitem].
    destruct (String.eqb_spec k' k) as [->|Hne].
    + rewrite dict_get_set_same, G. cbn [bind].
      assert (rest' <> []) by (intros ->; now elim (Hpre [])).
      now rewrite !getitems_str.
    + now rewrite dict_get_set_other.
  - rewrite set_path_keys_cons in Hset by discriminate.
    destruct (contains k d) as [[|]|]; cbn [bind negb] in Hset;
      try discriminate; [|now injection Hset as <- <-].
    destruct d as [| | | | |m]; try discriminate. cbn [getitem] in Hset.
    destruct (dict_get k m) as [c|] eqn:G; [|discriminate].
    cbn [bind] in Hset.
    destruct (set_path_keys c (k1 :: rest) v) as [[c' b']|] eqn:E;
      cbn [bind setitem fst snd] in Hset; [|discriminate].
    injection Hset as <- <-. cbn [getitems getitem].
    destruct (String.eqb_spec k' k) as [->|Hne].
    + rewrite dict_get_set_same, G. cbn [bind].
      apply (IH c c' b' E). intros l Hl. apply (Hpre l). cbn [app].
      now rewrite Hl.
    + now rewrite dict_get_set_other.
Qed.

(** X10: [get_path] reads what the keys of [path.split(".")] lead to, one
    after the other: the value there; [None] when a key on the way is
    missing from a mapping; and the exception of the subscript otherwise
    (a step into a value that is not a mapping).  It never stops for
    another reason. *)
Theorem get_path_walk (d : value) (p : string) :
  get_path d (VStr p)
  = except_KeyError (x <- getitems d (split "." p) ;; Ok (Some x)) (Ok None).
Proof. unfold get_path. apply get_path_fuel_getitems. simpl. lia. Qed.

(** X11: what [set_path] does to [d].  When it returns [True], [get_path]
    then reads the written text at the same path; when it returns
    [False], [d] is as it was; and in both cases [get_path] reads what it
    read before at every path whose keys are not the first keys of the
    written path. *)
Theorem set_path_then_get_path (d d' : value) (p v : string) (b : bool) :
  set_path d (VStr p) v = Ok (d', b) ->
  (b = true -> get_path d' (VStr p) = Ok (Some (VStr v)))
  /\ (b = false -> d' = d)
  /\ (forall q, (forall l, split "." p <> (split "." q ++ l)%list) ->
        get_path d' (VStr q) = get_path d (VStr q)).
Proof.
  unfold set_path. cbn [str_method bind]. intros Hset. repeat split.
  - intros ->. unfold get_path.
    rewrite get_path_fuel_getitems by (simpl; lia).
    now rewrite (set_path_keys_getitems _ _ _ _ Hset).
  - intros ->. now apply set_path_keys_false in Hset.
  - intros q Hq. unfold get_path.
    rewrite !get_path_fuel_getitems by (simpl; lia).
    now rewrite (set_path_keys_frame _ _ _ _ _ Hset _ Hq).
Qed.

Lemma set_path_then_get_path_witness :
  get_path (VMap [("web", VMap [("tag", VStr "v2"); ("port", VInt 80)])])
    (VStr "web.tag") = Ok (Some (VStr "v2"))
  /\ get_path (VMap [("web", VMap [("tag", VStr "v2"); ("port", VInt 80)])])
       (VStr "web.port") = Ok (Some (VInt 80)).
Proof.
  destruct (set_path_then_get_path
              (VMap [("web", VMap [("tag", VStr "v1"); ("port", VInt 80)])])
              (VMap [("web", VMap [("tag", VStr "v2"); ("port", VInt 80)])])
              "web.tag" "v2" true eq_refl) as (Hget & _ & Hother).
  split; [exact (Hget eq_refl)|].
  rewrite (Hother "web.port"); [reflexivity|].
  intros l. discriminate.
Defined.

(** ** Writing and reading the image of a chart *)

Lemma dict_keys_set_mem (k : string) (v : value) (m : dict) :
  dict_mem k m = true -> dict_keys (dict_set k v m) = dict_keys m.
Proof.
  unfold dict_mem. induction m as [|[k0 v0] m IH]; simpl; [discriminate|].
  destruct (String.eqb k k0) eqn:E; simpl.
  - intros _. apply String.eqb_eq in E. now subst.
  - intros H. now rewrite IH.
Qed.

Lemma dict_mem_set_other (k k' : string) (v : value) (m : dict) :
  dict_mem k m = true -> dict_mem k (dict_set k' v m) = true.
Proof.
  unfold dict_mem. destruct (String.eqb_spec k k') as [->|Hne].
  - now rewrite dict_get_set_same.
  - now rewrite dict_get_set_other.
Qed.

(** the fields [set_image] writes are there already: no key is added, the
    keys stay in their order, and a key that is none of the three fields
    keeps its value *)
Lemma set_image_fields_frame (w : dict) (key s : string) (w' : value) :
  dict_mem key w = true ->
  set_image_fields (VMap w) key s = Ok w' ->
  exists w1, w' = VMap w1
    /\ dict_keys w1 = dict_keys w
    /\ forall k, k <> key -> k <> "registry" -> k <> "tag" ->
         dict_get k w1 = dict_get k w.
Proof.
  intros Hkey. unfold set_image_fields.
  destruct (parse_ref s) as [[reg im] tag]. cbn [contains bind].
  destruct (dict_mem "registry" w) eqn:Hr, (dict_mem "tag" w) eqn:Ht;
    cbn [andb setitem bind]; intros [= <-]; eexists; (split; [reflexivity|]);
    split;
    try (intros k H1 H2 H3; now rewrite ?dict_get_set_other by assumption);
    rewrite ?dict_keys_set_mem; auto using dict_mem_set_other.
Qed.

(** X12: [set_image] writes only in keys that are there already.  The
    mapping it is given keeps its keys, in their order, and every key but
    [image], [registry] and [tag] keeps its value.  When [image] is itself
    a mapping with a [repository], the write is made in that mapping
    alone: it keeps its keys, every key of it but [repository],
    [registry] and [tag] keeps its value, and so does every key of the
    outer mapping but [image]. *)
Theorem set_image_keeps_keys (vs : dict) (s : string) (v' : value) :
  set_image (VMap vs) s = Ok v' ->
  exists vs', v' = VMap vs'
    /\ dict_keys vs' = dict_keys vs
    /\ (forall k, k <> "image" -> k <> "registry" -> k <> "tag" ->
          dict_get k vs' = dict_get k vs)
    /\ (forall w, dict_get "image" vs = Some (VMap w) ->
          dict_mem "repository" w = true ->
          exists w', dict_get "image" vs' = Some (VMap w')
            /\ dict_keys w' = dict_keys w
            /\ (forall k, k <> "repository" -> k <> "registry" ->
                  k <> "tag" -> dict_get k w' = dict_get k w)
            /\ (forall k, k <> "image" -> dict_get k vs' = dict_get k vs)).
Proof.
  unfold set_image. cbn [getitem].
  destruct (dict_get "image" vs) as [x|] eqn:Hi; [|discriminate].
  cbn [bind].
  assert (Himg : dict_mem "image" vs = true) by (unfold dict_mem; now rewrite Hi).
  assert (Flat : set_image_fields (VMap vs) "image" s = Ok v' ->
            (forall w, x = VMap w -> dict_mem "repository" w = false) ->
            exists vs', v' = VMap vs'
              /\ dict_keys vs' = dict_keys vs
              /\ (forall k, k <> "image" -> k <> "registry" -> k <> "tag" ->
                    dict_get k vs' = dict_get k vs)
              /\ (forall w, Some x = Some (VMap w) ->
                    dict_mem "repository" w = true ->
                    exists w', dict_get "image" vs' = Some (VMap w')
                      /\ dict_keys w' = dict_keys w
                      /\ (forall k, k <> "repository" -> k <> "registry" ->
                            k <> "tag" -> dict_get k w' = dict_get k w)
                      /\ (forall k, k <> "image" ->
                            dict_get k vs' = dict_get k vs))).
  { intros H Hx.
    destruct (set_image_fields_frame vs "image" s v' Himg H)
      as (vs' & -> & Hk & Hg).
    exists vs'. repeat split; try assumption.
    intros w [= ->] Hrep. rewrite (Hx w eq_refl) in Hrep. discriminate. }
  destruct x as [| | | | |w]; cbn [is_mapping bind];
    try (intros H; apply Flat; [exact H | discriminate]).
  cbn [contains bind]. destruct (dict_mem "repository" w) eqn:Hrep.
  - destruct (set_image_fields (VMap w) "repository" s) as [w1|] eqn:E;
      cbn [bind setitem]; [|discriminate].
    intros [= <-].
    destruct (set_image_fields_frame w "repository" s w1 Hrep E)
      as (w' & -> & Hk & Hg).
    eexists. split; [reflexivity|]. split; [now apply dict_keys_set_mem|].
    split; [intros k H1 _ _; now apply dict_get_set_other|].
    intros w0 [= <-] _. exists w'. rewrite dict_get_set_same.
    repeat split; try assumption.
    intros k Hne. now apply dict_get_set_other.
  - intros H. apply Flat; [exact H|]. now intros w0 [= <-].
Qed.

Lemma set_image_keeps_keys_witness :
  exists vs', dict_keys vs' = ["replicas"; "image"; "tag"]
    /\ dict_get "replicas" vs' = Some (VInt 2).
Proof.
  destruct (set_image_keeps_keys
              [("replicas", VInt 2); ("image", VStr "app"); ("tag", VStr "v1")]
              "quay.io/org/app:v2"
              (VMap [("replicas", VInt 2); ("image", VStr "quay.io/org/app");
                     ("tag", VStr "v2")])
              eq_refl)
    as (vs' & _ & Hk & Hg & _).
  exists vs'. split; [exact Hk|].
  rewrite Hg; [reflexivity | discriminate..].
Defined.

(** what [get_image] composes from a mapping whose image is a text *)
Lemma get_image_flat (py_str : value -> string) (w : dict) (x : string) :
  dict_get "image" w = Some (VStr x) ->
  get_image py_str (VMap w)
  = (let a := match dict_get "registry" w with
              | Some reg => if ne_str reg "" then fmt py_str reg ++ "/" ++ x
                            else x
              | None => x
              end in
     match dict_get "tag" w with
     | Some tag => if ne_str tag ""
                   then Ok (VStr (a ++ ":" ++ fmt py_str tag))
                   else Ok (VStr a)
     | None => Ok (VStr a)
     end).
Proof.
  intros Hi. unfold get_image, getitem, contains, dict_mem. rewrite Hi.
  cbn [bind is_mapping fmt].
  destruct (dict_get "registry" w) as [reg|]; cbn [bind].
  - destruct (ne_str reg ""); cbn [bind fmt];
      (destruct (dict_get "tag" w) as [tag|]; cbn [bind fmt];
       [destruct (ne_str tag "")|]; reflexivity).
  - destruct (dict_get "tag" w) as [tag|]; cbn [bind fmt];
      [destruct (ne_str tag "")|]; reflexivity.
Qed.

(** the same from the mapping under [image], whose image is under
    [repository] *)
Lemma get_image_nested (py_str : value -> string) (vs w : dict) (x : string) :
  dict_get "image" vs = Some (VMap w) ->
  dict_get "repository" w = Some (VStr x) ->
  get_image py_str (VMap vs)
  = (let a := match dict_get "registry" w with
              | Some reg => if ne_str reg "" then fmt py_str reg ++ "/" ++ x
                            else x
              | None => x
              end in
     match dict_get "tag" w with
     | Some tag => if ne_str tag ""
                   then Ok (VStr (a ++ ":" ++ fmt py_str tag))
                   else Ok (VStr a)
     | None => Ok (VStr a)
     end).
Proof.
  intros Hi Hr. unfold get_image, getitem, contains, dict_mem. rewrite Hi.
  cbn [bind is_mapping]. rewrite Hr. cbn [bind fmt].
  destruct (dict_get "registry" w) as [reg|]; cbn [bind].
  - destruct (ne_str reg ""); cbn [bind fmt];
      (destruct (dict_get "tag" w) as [tag|]; cbn [bind fmt];
       [destruct (ne_str tag "")|]; reflexivity).
  - destruct (dict_get "tag" w) as [tag|]; cbn [bind fmt];
      [destruct (ne_str tag "")|]; reflexivity.
Qed.

(** the fields that [set_image] has written compose to the image text *)
Lemma set_image_fields_compose (py_str : value -> string) (w : dict)
  (key s : string) (w' : value) :
  key <> "registry" -> key <> "tag" ->
  well_formed_ref s -> snd (fst (parse_ref s)) <> "" ->
  set_image_fields (VMap w) key s = Ok w' ->
  exists w1 x, w' = VMap w1
    /\ dict_get key w1 = Some (VStr x)
    /\ (let a := match dict_get "registry" w1 with
                 | Some reg => if ne_str reg ""
                               then fmt py_str reg ++ "/" ++ x else x
                 | None => x
                 end in
        match dict_get "tag" w1 with
        | Some tag => if ne_str tag ""
                      then Ok (VStr (a ++ ":" ++ fmt py_str tag))
                      else Ok (VStr a)
        | None => Ok (VStr a)
        end) = Ok (VStr s).
Proof.
  intros K1 K2 Hwf Him. pose proof (format_parse_ref_text s Hwf) as F.
  unfold set_image_fields.
  destruct (parse_ref s) as [[reg im] tag]. cbn [fst snd] in Him.
  unfold format_ref in F. cbn [contains bind]. unfold dict_mem.
  apply String.eqb_neq in Him.
  assert (K1' : "registry" <> key) by congruence.
  assert (K2' : "tag" <> key) by congruence.
  rewrite ?append_nil_r in F.
  destruct (dict_get "registry" w) as [r0|] eqn:Hr,
           (dict_get "tag" w) as [t0|] eqn:Ht;
    cbn [andb setitem bind]; intros [= <-]; eexists; eexists;
    (split; [reflexivity|]);
    repeat (rewrite dict_get_set_same
            || rewrite dict_get_set_other by (assumption || discriminate));
    rewrite ?Hr, ?Ht;
    (split; [reflexivity|]);
    unfold ne_str, filter_nonempty; cbn [eq_str fmt filter join negb];
    rewrite ?Him; cbn [negb join];
    destruct (String.eqb reg "") eqn:Er, (String.eqb tag "") eqn:Et;
    cbn [negb join]; rewrite ?append_nil_r in F;
    rewrite ?append_assoc in F; rewrite ?append_assoc;
    try rewrite F; reflexivity.
Qed.

(** X13: [get_image] reads back the image text that [set_image] wrote,
    whichever of [registry] and [tag] the mapping has beside its image,
    and also when the image is a mapping with a [repository]: for a
    well-formed text whose repository part, as [parse_ref] cuts it, is not
    empty. *)
Theorem set_image_then_get_image (py_str : value -> string)
  (values : value) (s : string) (values' : value) :
  well_formed_ref s -> snd (fst (parse_ref s)) <> "" ->
  set_image values s = Ok values' ->
  get_image py_str values' = Ok (VStr s).
Proof.
  intros Hwf Him. unfold set_image.
  destruct values as [| | | | |vs]; try discriminate. cbn [getitem].
  destruct (dict_get "image" vs) as [x|] eqn:Hi; [|discriminate].
  cbn [bind].
  assert (Flat : set_image_fields (VMap vs) "image" s = Ok values' ->
                 get_image py_str values' = Ok (VStr s)).
  { intros H.
    destruct (set_image_fields_compose py_str vs "image" s values'
                ltac:(discriminate) ltac:(discriminate) Hwf Him H)
      as (w1 & x1 & -> & Hx1 & Hc).
    now rewrite (get_image_flat py_str w1 x1 Hx1). }
  destruct x as [| | | | |w]; cbn [is_mapping bind]; try exact Flat.
  cbn [contains bind]. destruct (dict_mem "repository" w); [|exact Flat].
  destruct (set_image_fields (VMap w) "repository" s) as [w'|] eqn:E;
    cbn [bind setitem]; [|discriminate].
  intros [= <-].
  destruct (set_image_fields_compose py_str w "repository" s w'
              ltac:(discriminate) ltac:(discriminate) Hwf Him E)
    as (w1 & x1 & -> & Hx1 & Hc).
  rewrite (get_image_nested py_str _ w1 x1); [exact Hc | | exact Hx1].
  apply dict_get_set_same.
Qed.

Lemma set_image_then_get_image_witness :
  get_image py_str_example
    (VMap [("registry", VStr "quay.io"); ("image", VStr "org/app:v2")])
  = Ok (VStr "quay.io/org/app:v2").
Proof.
  apply (set_image_then_get_image py_str_example
           (VMap [("registry", VStr "docker.io"); ("image", VStr "app:v1")])
           "quay.io/org/app:v2").
  - split; reflexivity.
  - discriminate.
  - reflexivity.
Defined.

(** ** Containers that annotations add to those of the values *)

Lemma replace_names (k : string) (img : value) :
  forall d d',
  replace d k (container_entry (VStr k) img) = Ok d' ->
  exists extra,
    map (fun c => getitem c "name") d'
    = (map (fun c => getitem c "name") d ++ extra)%list.
Proof.
  induction d as [|c d IH]; intros d'; cbn [replace].
  - intros [= <-]. now eexists.
  - destruct (getitem c "name") as [n|] eqn:Hn; cbn [bind]; [|discriminate].
    destruct (eq_str n k) eqn:E.
    + intros [= <-]. exists []. rewrite app_nil_r. cbn [map]. f_equal.
      rewrite Hn. destruct n; try discriminate. cbn [eq_str] in E.
      apply String.eqb_eq in E. now subst.
    + destruct (replace d k _) as [r|] eqn:R; cbn [bind]; [|discriminate].
      intros [= <-]. destruct (IH r eq_refl) as [extra He].
      exists extra. cbn [map app]. now rewrite He.
Qed.

(** X14: the containers that the annotations yield never remove, move or
    rename a container found in the values: the names of the containers
    found before, in their order, are the first names of the result.  (A
    mapping named as one of them replaces the first one of that name in
    its place; any other is added at the end.) *)
Theorem annotated_containers_names (values : value) (mappings : dict)
  (cs0 cs : list value) :
  annotated_containers values mappings cs0 = Ok cs ->
  exists extra,
    map (fun c => getitem c "name") cs
    = (map (fun c => getitem c "name") cs0 ++ extra)%list.
Proof.
  revert cs0. induction mappings as [|[k v] rest IH]; intros cs0;
    cbn [annotated_containers].
  - intros [= <-]. exists []. now rewrite app_nil_r.
  - destruct (get_image_for_mapping values v) as [[i|]|]; cbn [bind];
      try discriminate; try apply IH.
    destruct (String.eqb i ""); [apply IH|].
    destruct (replace cs0 k _) as [cs1|] eqn:R; cbn [bind]; [|discriminate].
    intros H. destruct (IH cs1 H) as [e2 H2].
    destruct (replace_names k (VStr i) cs0 cs1 R) as [e1 H1].
    exists (e1 ++ e2)%list. now rewrite H2, H1, app_assoc.
Qed.

Lemma annotated_containers_names_witness :
  exists extra,
    map (fun c => getitem c "name")
      [container_entry (VStr "chart-image") (VStr "a:1");
       container_entry (VStr "web") (VStr "x:y")]
    = ([Ok (VStr "chart-image")] ++ extra)%list.
Proof.
  apply (annotated_containers_names
           (VMap [("image", VStr "a:1");
                  ("web", VMap [("image", VStr "x"); ("version", VStr "y")])])
           [("web", VMap [("repository", VStr "web.image");
                          ("tag", VStr "web.version")])]
           [container_entry (VStr "chart-image") (VStr "a:1")]).
  reflexivity.
Defined.

(** ** The mappings that the annotations give *)

Lemma startswith_drop (p : string) :
  forall k, startswith k p = true -> k = p ++ drop (String.length p) k.
Proof.
  induction p as [|a p IH]; intros k; [reflexivity|].
  destruct k as [|b k]; cbn [startswith]; [discriminate|].
  intros H. apply andb_prop in H as [Hab Hk].
  apply Ascii.eqb_eq in Hab as <-. cbn [String.length drop append].
  now rewrite <- (IH k Hk).
Qed.

Lemma append_inj_l (p a b : string) : p ++ a = p ++ b -> a = b.
Proof. induction p; cbn [append]; [trivial | intros [= H]; auto]. Qed.

Lemma mapping_field_update (ms : dict) (n g : string) (v : value)
  (name f : string) :
  mapping_field (update_field ms n g v) name f
  = if (String.eqb name n && String.eqb f g)%bool then Some v
    else mapping_field ms name f.
Proof.
  unfold mapping_field, update_field.
  destruct (String.eqb_spec name n) as [->|Hne]; cbn [andb].
  - rewrite dict_get_set_same.
    destruct (String.eqb_spec f g) as [->|Hfg].
    + apply dict_get_set_same.
    + rewrite dict_get_set_other by assumption.
      destruct (dict_get n ms) as [[| | | | |d]|]; reflexivity.
  - now rewrite dict_get_set_other.
Qed.

(** one annotation gives one field: the three prefixes exclude each other *)
Lemma collect_mappings_cons (k : string) (v : value) (rest ms : dict) :
  exists ms1,
    collect_mappings ((k, v) :: rest) ms = collect_mappings rest ms1
    /\ forall P f name,
         (P = REGISTRY_ANNOTATION /\ f = "registry")
         \/ (P = REPOSITORY_ANNOTATION /\ f = "repository")
         \/ (P = TAG_ANNOTATION /\ f = "tag") ->
         mapping_field ms1 name f
         = if String.eqb (P ++ name) k then Some v
           else mapping_field ms name f.
Proof.
  cbn [collect_mappings].
  destruct (startswith k REGISTRY_ANNOTATION) eqn:E1;
    [|destruct (startswith k REPOSITORY_ANNOTATION) eqn:E2;
      [|destruct (startswith k TAG_ANNOTATION) eqn:E3]].
  - pose proof (startswith_drop _ _ E1) as Hk.
    set (n := drop (String.length REGISTRY_ANNOTATION) k) in *.
    assert (E2 : startswith k REPOSITORY_ANNOTATION = false)
      by (rewrite Hk; reflexivity).
    assert (E3 : startswith k TAG_ANNOTATION = false)
      by (rewrite Hk; reflexivity).
    rewrite E2, E3. eexists. split; [reflexivity|].
    intros P f name [[-> ->]|[[-> ->]|[-> ->]]];
      rewrite mapping_field_update.
    + destruct (String.eqb_spec name n) as [->|Hne]; cbn [andb String.eqb].
      * now rewrite <- Hk, String.eqb_refl.
      * destruct (String.eqb_spec (REGISTRY_ANNOTATION ++ name) k) as [H|_];
          [|reflexivity].
        rewrite Hk in H. now apply append_inj_l in H.
    + rewrite andb_false_r.
      destruct (String.eqb_spec (REPOSITORY_ANNOTATION ++ name) k) as [H|_];
        [|reflexivity].
      rewrite <- H in E2. now rewrite startswith_append in E2.
    + rewrite andb_false_r.
      destruct (String.eqb_spec (TAG_ANNOTATION ++ name) k) as [H|_];
        [|reflexivity].
      rewrite <- H in E3. now rewrite startswith_append in E3.
  - pose proof (startswith_drop _ _ E2) as Hk.
    set (n := drop (String.length REPOSITORY_ANNOTATION) k) in *.
    eexists. split; [reflexivity|].
    intros P f name [[-> ->]|[[-> ->]|[-> ->]]];
      rewrite mapping_field_update.
    + rewrite andb_false_r.
      destruct (String.eqb_spec (REGISTRY_ANNOTATION ++ name) k) as [H|_];
        [|reflexivity].
      rewrite <- H in E1. now rewrite startswith_append in E1.
    + destruct (String.eqb_spec name n) as [->|Hne]; cbn [andb String.eqb].
      * now rewrite <- Hk, String.eqb_refl.
      * destruct (String.eqb_spec (REPOSITORY_ANNOTATION ++ name) k)
          as [H|_]; [|reflexivity].
        rewrite Hk in H. now apply append_inj_l in H.
    + rewrite andb_false_r.
      destruct (String.eqb_spec (TAG_ANNOTATION ++ name) k) as [H|_];
        [|reflexivity].
      rewrite Hk in H. discriminate H.
  - pose proof (startswith_drop _ _ E3) as Hk.
    set (n := drop (String.length TAG_ANNOTATION) k) in *.
    eexists. split; [reflexivity|].
    intros P f name [[-> ->]|[[-> ->]|[-> ->]]];
      rewrite mapping_field_update.
    + rewrite andb_false_r.
      destruct (String.eqb_spec (REGISTRY_ANNOTATION ++ name) k) as [H|_];
        [|reflexivity].
      rewrite <- H in E1. now rewrite startswith_append in E1.
    + rewrite andb_false_r.
      destruct (String.eqb_spec (REPOSITORY_ANNOTATION ++ name) k) as [H|_];
        [|reflexivity].
      rewrite <- H in E2. now rewrite startswith_append in E2.
    + destruct (String.eqb_spec name n) as [->|Hne]; cbn [andb String.eqb].
      * now rewrite <- Hk, String.eqb_refl.
      * destruct (String.eqb_spec (TAG_ANNOTATION ++ name) k) as [H|_];
          [|reflexivity].
        rewrite Hk in H. now apply append_inj_l in H.
  - exists ms. split; [reflexivity|].
    intros P f name [[-> ->]|[[-> ->]|[-> ->]]];
      (match goal with |- _ = if String.eqb ?x k then _ else _ =>
         destruct (String.eqb_spec x k) as [H|_]; [|reflexivity] end);
      [rewrite <- H in E1; now rewrite startswith_append in E1
      |rewrite <- H in E2; now rewrite startswith_append in E2
      |rewrite <- H in E3; now rewrite startswith_append in E3].
Qed.

Lemma collect_mappings_field (P f : string) :
  (P = REGISTRY_ANNOTATION /\ f = "registry")
  \/ (P = REPOSITORY_ANNOTATION /\ f = "repository")
  \/ (P = TAG_ANNOTATION /\ f = "tag") ->
  forall a ms name, NoDup (dict_keys a) ->
  mapping_field (collect_mappings a ms) name f
  = match dict_get (P ++ name) a with
    | Some v => Some v
    | None => mapping_field ms name f
    end.
Proof.
  intros HP. induction a as [|[k v] rest IH]; intros ms name Hnd;
    [reflexivity|].
  cbn [dict_keys map fst] in Hnd. inversion Hnd as [|? ? Hnin Hnd']; subst.
  destruct (collect_mappings_cons k v rest ms) as (ms1 & -> & Hf).
  rewrite (IH ms1 name Hnd'), (Hf P f name HP). cbn [dict_get].
  destruct (String.eqb_spec (P ++ name) k) as [->|Hne]; [|reflexivity].
  now rewrite (dict_get_not_in k rest Hnin).
Qed.

(** X15: the mappings read from the annotations of a manifest.  The
    mapping of the container [name] has under [registry], [repository] and
    [tag] the values of the annotations
    [registry.flux.weave.works/name], [repository.flux.weave.works/name]
    and [tag.flux.weave.works/name], and has none of the three when that
    annotation is absent. *)
Theorem container_mappings_fields (manifest : value) (a : dict)
  (name : string) :
  getitems manifest ["metadata"; "annotations"] = Ok (VMap a) ->
  NoDup (dict_keys a) ->
  exists mappings,
    container_mappings_from_annotations manifest = Ok mappings
    /\ mapping_field mappings name "registry"
       = dict_get (REGISTRY_ANNOTATION ++ name) a
    /\ mapping_field mappings name "repository"
       = dict_get (REPOSITORY_ANNOTATION ++ name) a
    /\ mapping_field mappings name "tag"
       = dict_get (TAG_ANNOTATION ++ name) a.
Proof.
  intros Hget Hnd. unfold container_mappings_from_annotations.
  cbn [getitems] in Hget.
  destruct (getitem manifest "metadata") as [md|]; [|discriminate].
  cbn [bind] in *.
  destruct (getitem md "annotations") as [x|]; [|discriminate].
  cbn [bind] in *. injection Hget as ->. cbn [except_KeyError].
  eexists. split; [reflexivity|].
  repeat split.
  - rewrite (collect_mappings_field REGISTRY_ANNOTATION "registry")
      by (assumption || tauto).
    now destruct (dict_get _ a).
  - rewrite (collect_mappings_field REPOSITORY_ANNOTATION "repository")
      by (assumption || tauto).
    now destruct (dict_get _ a).
  - rewrite (collect_mappings_field TAG_ANNOTATION "tag")
      by (assumption || tauto).
    now destruct (dict_get _ a).
Qed.

Lemma container_mappings_fields_witness :
  exists mappings,
    container_mappings_from_annotations
      (ex_release ex_annotations_relative ex_values_web) = Ok mappings
    /\ mapping_field mappings "web" "registry" = None
    /\ mapping_field mappings "web" "repository" = Some (VStr "web.image")
    /\ mapping_field mappings "web" "tag" = Some (VStr "web.version").
Proof.
  apply (container_mappings_fields
           (ex_release ex_annotations_relative ex_values_web)
           ex_annotations_relative "web").
  - reflexivity.
  - repeat constructor; simpl; intuition discriminate.
Defined.

(** ** Writing an image through annotated paths and reading it back *)

Lemma get_path_resolves (d : value) (p : string) (x : value) :
  get_path d (VStr p) = Ok (Some x) <-> getitems d (split "." p) = Ok x.
Proof.
  unfold get_path. rewrite get_path_fuel_getitems by (simpl; lia).
  destruct (getitems d (split "." p)) as [y|[]]; cbn [bind except_KeyError];
    split; intros H; try discriminate; congruence.
Qed.

Lemma set_path_keys_ok (v : string) (keys : list string) :
  forall d a, getitems d keys = Ok (VStr a) -> keys <> [] ->
  exists d', set_path_keys d keys v = Ok (d', true).
Proof.
  induction keys as [|k rest IH]; intros d a Hget Hne; [congruence|].
  cbn [getitems] in Hget.
  destruct d as [| | | | |m]; try discriminate. cbn [getitem] in Hget.
  destruct (dict_get k m) as [c|] eqn:G; [|discriminate].
  cbn [bind] in Hget. destruct rest as [|k1 rest].
  - cbn [getitems] in Hget. injection Hget as ->.
    cbn [set_path_keys getitem]. rewrite G. cbn [bind is_str negb setitem].
    now eexists.
  - rewrite set_path_keys_cons by discriminate.
    cbn [contains bind getitem]. unfold dict_mem. rewrite G.
    cbn [negb bind].
    destruct (IH c a Hget ltac:(discriminate)) as [c' ->].
    cbn [bind setitem fst snd]. now eexists.
Qed.

Lemma getitems_app (k1 k2 : list string) :
  forall d, getitems d (k1 ++ k2)%list = (x <- getitems d k1 ;; getitems x k2).
Proof.
  induction k1 as [|k k1 IH]; intros d; cbn [app getitems bind];
    [reflexivity|].
  destruct (getitem d k) as [c|]; cbn [bind]; [apply IH | reflexivity].
Qed.

Lemma split_inj (sep : ascii) (p q : string) :
  split sep p = split sep q -> p = q.
Proof.
  intros H. rewrite <- (join_split sep p), <- (join_split sep q).
  now rewrite H.
Qed.

(** a write at a path that leads to a text: it is made, it is read back,
    and every other path that led to a text leads to the same text *)
Lemma set_path_resolving (d : value) (p a v : string) :
  get_path d (VStr p) = Ok (Some (VStr a)) ->
  exists d',
    set_path d (VStr p) v = Ok (d', true)
    /\ get_path d' (VStr p) = Ok (Some (VStr v))
    /\ forall q b, q <> p ->
         get_path d (VStr q) = Ok (Some (VStr b)) ->
         get_path d' (VStr q) = Ok (Some (VStr b)).
Proof.
  intros Hp. apply get_path_resolves in Hp.
  destruct (set_path_keys_ok v _ d a Hp (split_not_nil "." p)) as [d' Hset].
  exists d'. unfold set_path. cbn [str_method bind].
  split; [exact Hset|]. split.
  - apply get_path_resolves. exact (set_path_keys_getitems _ _ _ _ Hset).
  - intros q b Hne Hq. apply get_path_resolves in Hq.
    apply get_path_resolves.
    rewrite (set_path_keys_frame _ _ _ _ _ Hset); [exact Hq|].
    intros l Hl. rewrite Hl, getitems_app, Hq in Hp. cbn [bind] in Hp.
    destruct l as [|k l]; [|discriminate].
    rewrite app_nil_r in Hl. apply split_inj in Hl. congruence.
Qed.

(** X16: an image written through the annotated paths of a container and
    read back.  Let the mapping have a [repository] and a [tag] path, and
    perhaps a [registry] path, different paths that all lead to texts in
    the values.  Then [set_image_for_mapping] succeeds, and
    [get_image_for_mapping] reads from the new values the repository part
    of the image text, [":"] and its tag, when neither is empty: the
    registry part is not read, and without a [registry] path it is not
    written either. *)
Theorem annotated_image_read_back (values : value) (fields : dict)
  (pr pt r0 t0 s : string) :
  dict_get "repository" fields = Some (VStr pr) ->
  dict_get "tag" fields = Some (VStr pt) ->
  match dict_get "registry" fields with
  | None => True
  | Some x => exists pg g0, x = VStr pg /\ pg <> pr /\ pg <> pt
                /\ get_path values x = Ok (Some (VStr g0))
  end ->
  pr <> pt ->
  get_path values (VStr pr) = Ok (Some (VStr r0)) ->
  get_path values (VStr pt) = Ok (Some (VStr t0)) ->
  snd (fst (parse_ref s)) <> "" -> snd (parse_ref s) <> "" ->
  exists values',
    set_image_for_mapping values (VMap fields) s = Ok values'
    /\ get_image_for_mapping values' (VMap fields)
       = Ok (Some (snd (fst (parse_ref s)) ++ ":" ++ snd (parse_ref s))).
Proof.
  intros Hr Ht Hg Hne Hpr Hpt Him Htag.
  unfold set_image_for_mapping.
  destruct (parse_ref s) as [[reg im] tag]. cbn [fst snd] in *.
  cbn [contains getitem bind]. unfold dict_mem. rewrite Hr, Ht.
  assert (Read : forall v2,
            get_path v2 (VStr pr) = Ok (Some (VStr im)) ->
            get_path v2 (VStr pt) = Ok (Some (VStr tag)) ->
            get_image_for_mapping v2 (VMap fields)
            = Ok (Some (im ++ ":" ++ tag))).
  { intros v2 H1 H2.
    rewrite (get_image_for_mapping_cases v2 fields (VStr pr) im Hr H1 Him).
    rewrite Ht, H2. cbn [bind].
    apply String.eqb_neq in Htag. now rewrite Htag. }
  destruct (dict_get "registry" fields) as [x|].
  - destruct Hg as (pg & g0 & -> & Hgr & Hgt & Hpg). cbn [andb bind].
    destruct (set_path_resolving values pg g0 reg Hpg)
      as (v1 & -> & _ & F1). cbn [bind fst].
    destruct (set_path_resolving v1 pr r0 im
                (F1 pr r0 ltac:(congruence) Hpr))
      as (v2 & -> & G2 & F2). cbn [bind fst].
    destruct (set_path_resolving v2 pt t0 tag
                (F2 pt t0 ltac:(congruence)
                   (F1 pt t0 ltac:(congruence) Hpt)))
      as (v3 & -> & G3 & F3). cbn [bind fst].
    exists v3. split; [reflexivity|].
    apply Read; [|exact G3]. apply F3; [assumption | exact G2].
  - cbn [andb bind].
    destruct (set_path_resolving values pr r0 im Hpr)
      as (v1 & -> & G1 & F1). cbn [bind fst].
    destruct (set_path_resolving v1 pt t0 tag
                (F1 pt t0 ltac:(congruence) Hpt))
      as (v2 & -> & G2 & F2). cbn [bind fst].
    exists v2. split; [reflexivity|].
    apply Read; [|exact G2]. apply F2; [assumption | exact G1].
Qed.

Lemma annotated_image_read_back_witness :
  exists values',
    set_image_for_mapping ex_values_web
      (VMap [("repository", VStr "web.image"); ("tag", VStr "web.version")])
      "quay.io/org/app:v2" = Ok values'
    /\ get_image_for_mapping values'
         (VMap [("repository", VStr "web.image");
                ("tag", VStr "web.version")])
       = Ok (Some "org/app:v2").
Proof.
  apply (annotated_image_read_back ex_values_web
           [("repository", VStr "web.image"); ("tag", VStr "web.version")]
           "web.image" "web.version" "x" "y" "quay.io/org/app:v2");
    try reflexivity; discriminate.
Defined.

(** ** What a write of an image leaves alone *)

Lemma set_fluxhelmrelease_container_setitems (m c : value) (s : string)
  (m' : value) :
  set_fluxhelmrelease_container m c s = Ok m' ->
  exists values', setitems m ["spec"; "values"] values' = Ok m'.
Proof.
  unfold set_fluxhelmrelease_container.
  destruct (getitems m ["spec"; "values"]) as [values|]; [|discriminate].
  cbn [bind]. destruct (getitem c "name") as [cname|]; [|discriminate].
  cbn [bind].
  match goal with |- (x <- ?t ;; _) = _ -> _ =>
    destruct t as [[|]|]; cbn [bind]; try discriminate end.
  - destruct (set_image values s) as [v1|]; cbn [bind]; [|discriminate].
    eauto.
  - destruct (container_mappings_from_annotations m) as [ms|]; cbn [bind];
      [|discriminate].
    destruct (set_annotated values ms cname s) as [[v1|]|]; cbn [bind];
      try discriminate; [eauto|].
    destruct (py_iter values) as [keys|]; cbn [bind]; [|discriminate].
    destruct (set_nested values keys cname s) as [[v1|]|]; cbn [bind];
      try discriminate.
    eauto.
Qed.

Lemma store_container_setitems (m : value) (pos : nat) (c m' : value) :
  store_container m pos c = Ok m' ->
  exists ks x, setitems m ("spec" :: ks) x = Ok m'.
Proof.
  unfold store_container, podspec_path.
  destruct (getitem m "kind") as [k|]; [|discriminate]. cbn [bind].
  destruct (eq_str k "CronJob"); cbn [bind];
    (match goal with |- (x <- getitems m ?p ;; _) = _ -> _ =>
       destruct (getitems m p) as [spec|]; [|discriminate] end;
     cbn [bind];
     destruct (get_default spec "containers" (VList [])) as [a|];
       [|discriminate]; cbn [bind];
     destruct (get_default spec "initContainers" (VList [])) as [b|];
       [|discriminate]; cbn [bind];
     destruct a; try discriminate; destruct b; try discriminate;
     match goal with |- (x <- ?t ;; _) = _ -> _ =>
       destruct t as [spec'|]; [|discriminate] end;
     cbn [bind]; eauto).
Qed.

(** X17: a write of an image changes nothing of a manifest outside its
    [spec], in a workload as in a Helm release: [kind], [metadata] and
    every other key but [spec] are as before, so the manifest matches the
    same arguments as before. *)
Theorem set_container_image_only_spec (m : value) (c : nat * value)
  (image : string) (m' : value) :
  set_container_image m c image = Ok m' ->
  (forall k, k <> "spec" -> getitem m' k = getitem m k)
  /\ (forall spec, match_manifest spec m' = match_manifest spec m).
Proof.
  intros H.
  assert (Hk : forall k, k <> "spec" -> getitem m' k = getitem m k).
  { unfold set_container_image in H.
    destruct (is_helm_kind m) as [[|]|]; cbn [bind] in H; [| |discriminate].
    - apply set_fluxhelmrelease_container_setitems in H as [v Hv].
      exact (setitems_other _ _ _ _ _ Hv).
    - destruct (setitem (snd c) "image" (VStr image)) as [c'|];
        cbn [bind] in H; [|discriminate].
      apply store_container_setitems in H as (ks & x & Hx).
      exact (setitems_other _ _ _ _ _ Hx). }
  split; [exact Hk|].
  intros spec. apply match_manifest_ext; apply Hk; discriminate.
Qed.

Lemma set_container_image_only_spec_witness :
  getitem (ex_release ex_annotations_relative
             (VMap [("web", VMap [("image", VStr "z"); ("version", VStr "9")])]))
    "metadata"
  = getitem (ex_release ex_annotations_relative ex_values_web) "metadata".
Proof.
  apply (set_container_image_only_spec
           (ex_release ex_annotations_relative ex_values_web)
           (0%nat, container_entry (VStr "web") (VStr "x:y")) "z:9").
  - reflexivity.
  - discriminate.
Defined.

(** ** Skipped writes of an annotated mapping: C6 *)











(** ** The image of a workload's container, and nothing else *)

Lemma setitems_frame (keys : list string) :
  forall d d' v, setitems d keys v = Ok d' ->
  forall keys',
    (forall l, keys <> (keys' ++ l)%list) ->
    (forall l, keys' <> (keys ++ l)%list) ->
    getitems d' keys' = getitems d keys'.
Proof.
  induction keys as [|k ks IH]; intros d d' v Hset keys' H1 H2.
  - now elim (H2 keys').
  - destruct keys' as [|k' ks']; [now elim (H1 (k :: ks))|].
    cbn [setitems] in Hset.
    destruct d as [| | | | |m]; try discriminate. cbn [getitem] in Hset.
    destruct (dict_get k m) as [c|] eqn:G; [|discriminate].
    cbn [bind] in Hset.
    destruct (setitems c ks v) as [c'|] eqn:E; [|discriminate].
    cbn [bind setitem] in Hset. injection Hset as <-.
    cbn [getitems getitem].
    destruct (String.eqb_spec k' k) as [->|Hne].
    + rewrite dict_get_set_same, G. cbn [bind].
      apply (IH c c' v E).
      * intros l Hl. apply (H1 l). cbn [app]. now rewrite Hl.
      * intros l Hl. apply (H2 l). cbn [app]. now rewrite Hl.
    + now rewrite dict_get_set_other.
Qed.

(** what [container['image'] = image] leaves of the manifest: the pod
    specification keeps its keys and, but for its two lists of
    containers, their values; of the two lists one is as it was and the
    other has the one container replaced; and everything that is read
    beside the path to the pod specification is as it was *)
Lemma store_container_frame (py_str : value -> string) (m : value)
  (cs : list value) (pos : nat) (cm : dict) (c' m' : value) :
  is_helm_kind m = Ok false ->
  containers py_str m = Ok cs ->
  nth_error cs pos = Some (VMap cm) ->
  store_container m pos c' = Ok m' ->
  exists path sm sm' l1 l2 l1' l2',
    podspec_path m = Ok path
    /\ getitems m path = Ok (VMap sm)
    /\ getitems m' path = Ok (VMap sm')
    /\ dict_keys sm' = dict_keys sm
    /\ (forall k, k <> "containers" -> k <> "initContainers" ->
          dict_get k sm' = dict_get k sm)
    /\ get_default (VMap sm) "containers" (VList []) = Ok (VList l1)
    /\ get_default (VMap sm) "initContainers" (VList []) = Ok (VList l2)
    /\ get_default (VMap sm') "containers" (VList []) = Ok (VList l1')
    /\ get_default (VMap sm') "initContainers" (VList []) = Ok (VList l2')
    /\ List.length l1' = List.length l1
    /\ (l1' ++ l2')%list = list_set pos c' cs
    /\ (forall keys,
          (forall l, path <> (keys ++ l)%list) ->
          (forall l, keys <> (path ++ l)%list) ->
          getitems m' keys = getitems m keys).
Proof.
  intros Hhelm Hcs Hnth Hstore.
  destruct (containers_workload py_str m cs (VMap cm) cm Hhelm Hcs
              (nth_error_In _ _ Hnth))
    as (path & sm & l1 & l2 & Hpath & Hspec & Ha & Hb & ->).
  unfold store_container in Hstore. rewrite Hpath in Hstore.
  cbn [bind] in Hstore. rewrite Hspec in Hstore. cbn [bind] in Hstore.
  rewrite Ha, Hb in Hstore. cbn [bind] in Hstore.
  destruct (pos <? List.length l1)%nat eqn:E; cbn [setitem bind] in Hstore.
  - apply Nat.ltb_lt in E.
    assert (Hin : dict_get "containers" sm = Some (VList l1)).
    { apply (get_default_list_present sm "containers" l1 Ha).
      destruct l1; [simpl in E; lia | discriminate]. }
    exists path, sm,
      (dict_set "containers" (VList (list_set pos c' l1)) sm),
      l1, l2, (list_set pos c' l1), l2.
    repeat split; try assumption.
    + exact (getitems_setitems _ _ _ _ Hstore).
    + apply dict_keys_set_mem. unfold dict_mem. now rewrite Hin.
    + intros k Hk _. now apply dict_get_set_other.
    + unfold get_default. now rewrite dict_get_set_same.
    + unfold get_default in *.
      now rewrite dict_get_set_other by discriminate.
    + apply list_set_length.
    + symmetry. now apply list_set_app_l.
    + exact (setitems_frame _ _ _ _ Hstore).
  - apply Nat.ltb_ge in E.
    destruct (pos - List.length l1 <? List.length l2)%nat eqn:E2;
      cbn [setitem bind] in Hstore; [|discriminate].
    apply Nat.ltb_lt in E2.
    assert (Hin : dict_get "initContainers" sm = Some (VList l2)).
    { apply (get_default_list_present sm "initContainers" l2 Hb).
      destruct l2; [simpl in E2; lia | discriminate]. }
    exists path, sm,
      (dict_set "initContainers"
         (VList (list_set (pos - List.length l1) c' l2)) sm),
      l1, l2, l1, (list_set (pos - List.length l1) c' l2).
    repeat split; try assumption.
    + exact (getitems_setitems _ _ _ _ Hstore).
    + apply dict_keys_set_mem. unfold dict_mem. now rewrite Hin.
    + intros k _ Hk. now apply dict_get_set_other.
    + unfold get_default in *.
      now rewrite dict_get_set_other by discriminate.
    + unfold get_default. now rewrite dict_get_set_same.
    + symmetry. now apply list_set_app_r.
    + exact (setitems_frame _ _ _ _ Hstore).
Qed.

(** X8: in a workload (a manifest that is not a Helm release), writing
    the image of a container that [find_container] returned always
    succeeds; it changes the [image] of that container and nothing else.
    The containers are the same list with the one container replaced, and
    [find_container] then returns the same container, at the same
    position, with the new image.  The pod specification keeps its keys,
    in their order, and every key of it but [containers] and
    [initContainers] keeps its value; these two lists keep their lengths
    and are, one after the other, the list of the containers with the one
    container replaced.  Every key of the manifest but [spec] is as it
    was, and so is whatever is read along keys that neither lead to the
    pod specification nor go through it. *)
Theorem workload_image_written (py_str : value -> string) (args : Args)
  (m : value) (pos : nat) (c : value) (image : string) :
  find_container py_str args m = Ok (Some (pos, c)) ->
  is_helm_kind m = Ok false ->
  exists cm cs m',
    c = VMap cm
    /\ containers py_str m = Ok cs
    /\ nth_error cs pos = Some c
    /\ set_container_image m (pos, c) image = Ok m'
    /\ containers py_str m'
       = Ok (list_set pos (VMap (dict_set "image" (VStr image) cm)) cs)
    /\ find_container py_str args m'
       = Ok (Some (pos, VMap (dict_set "image" (VStr image) cm)))
    /\ (forall k, k <> "spec" -> getitem m' k = getitem m k)
    /\ exists path sm sm' l1 l2 l1' l2',
         podspec_path m = Ok path
         /\ getitems m path = Ok (VMap sm)
         /\ getitems m' path = Ok (VMap sm')
         /\ dict_keys sm' = dict_keys sm
         /\ (forall k, k <> "containers" -> k <> "initContainers" ->
               dict_get k sm' = dict_get k sm)
         /\ get_default (VMap sm) "containers" (VList []) = Ok (VList l1)
         /\ get_default (VMap sm) "initContainers" (VList [])
            = Ok (VList l2)
         /\ get_default (VMap sm') "containers" (VList [])
            = Ok (VList l1')
         /\ get_default (VMap sm') "initContainers" (VList [])
            = Ok (VList l2')
         /\ List.length l1' = List.length l1
         /\ (l1' ++ l2')%list
            = list_set pos (VMap (dict_set "image" (VStr image) cm)) cs
         /\ (forall keys,
               (forall l, path <> (keys ++ l)%list) ->
               (forall l, keys <> (path ++ l)%list) ->
               getitems m' keys = getitems m keys).
Proof.
  intros Hfind Hhelm.
  destruct (set_container_image_workload py_str args m pos c image
              Hfind Hhelm)
    as (cm & cs & m' & -> & Hcs & Hnth & Hset & Hcs' & Hfind' & Hother).
  exists cm, cs, m'. repeat (split; [assumption|]).
  split; [reflexivity|]. repeat (split; [assumption|]).
  apply (store_container_frame py_str m cs pos cm); try assumption.
  unfold set_container_image in Hset. rewrite Hhelm in Hset.
  exact Hset.
Qed.

Lemma workload_image_written_witness :
  exists m',
    set_container_image (ex_workload "Deployment" "b" [])
      (0%nat, VMap [("name", VStr "c"); ("image", VStr "old")]) "new:1"
    = Ok m'
    /\ find_container py_str_example ex_args_image m'
       = Ok (Some (0%nat, VMap [("name", VStr "c");
                                ("image", VStr "new:1")])).
Proof.
  destruct (workload_image_written py_str_example ex_args_image
              (ex_workload "Deployment" "b" []) 0%nat
              (VMap [("name", VStr "c"); ("image", VStr "old")]) "new:1"
              eq_refl eq_refl)
    as (cm & cs & m' & Ec & _ & _ & Hset & _ & Hfind & _).
  injection Ec as <-. exists m'. split; [exact Hset | exact Hfind].
Defined.
